(** * Azure tools of LISA: a shallow embedding of
      [lisa/sut_orchestrator/azure/tools.py]

    The development follows the Python module class by class:
    - [Py]   : the pieces of Python's [str] API the module calls;
    - [re]   : a backtracking matcher for the regular expressions the
               module compiles, with [findall];
    - [Remote]: the node a tool is bound to, seen as an oracle that
               answers requests and a log of the requests made so far;
    - [Waagent], [LisDriver], [KvpClient], [KvpClientFreeBSD]: the
               methods, written in a state-and-exception monad.

    Python's [str] is modelled as [string], one [ascii] per character:
    the texts are those of the characters 0 to 255, and the classes of
    characters below are Python's on these.  [int] is modelled as [Z],
    [dict] as [gmap], [Optional[T]] as [option T]. *)

From Stdlib Require Import Ascii String ZArith Lia.
From stdpp Require Import gmap strings list fin_maps pretty.

(** ** Characters used by the module *)

Definition NUL : ascii := "000"%char.
Definition LF : ascii := "010"%char.
Definition CR : ascii := "013"%char.
Definition DQUOTE : ascii := "034"%char.

(** ** Python's [str] methods *)

Module Py.

(** [s.split(sep)] for a separator of one character: every field is
    kept, the empty ones too, and the empty text gives one empty
    field. *)
Fixpoint split (sep : ascii) (s : string) : list string :=
  match s with
  | EmptyString => [EmptyString]
  | String c s' =>
      if Ascii.eqb c sep then EmptyString :: split sep s'
      else match split sep s' with
           | f :: fs => String c f :: fs
           | [] => [String c EmptyString]
           end
  end.

(** [s.lstrip(c)], [s.rstrip(c)] and [s.strip(c)] for a set of one
    character. *)
Fixpoint lstrip (c : ascii) (s : string) : string :=
  match s with
  | String d s' => if Ascii.eqb d c then lstrip c s' else s
  | EmptyString => EmptyString
  end.

Fixpoint rstrip (c : ascii) (s : string) : string :=
  match s with
  | String d s' =>
      match rstrip c s' with
      | EmptyString => if Ascii.eqb d c then EmptyString else String d EmptyString
      | r => String d r
      end
  | EmptyString => EmptyString
  end.

Definition strip (c : ascii) (s : string) : string := rstrip c (lstrip c s).

(** [s.endswith(c)] for one character. *)
Fixpoint endswith (c : ascii) (s : string) : bool :=
  match s with
  | EmptyString => false
  | String d EmptyString => Ascii.eqb d c
  | String _ s' => endswith c s'
  end.

(** [s.lower()]: the capital letters are A to Z and the characters
    192 to 222 but the multiplication sign, 215. *)
Definition lower_char (c : ascii) : ascii :=
  let n := nat_of_ascii c in
  if ((65 <=? n)%nat && (n <=? 90)%nat)
     || ((192 <=? n)%nat && (n <=? 222)%nat && negb (n =? 215)%nat)
  then ascii_of_nat (n + 32) else c.

Fixpoint lower (s : string) : string :=
  match s with
  | String c s' => String (lower_char c) (lower s')
  | EmptyString => EmptyString
  end.

(** Character classes of [re]: [\d], [\s] and [.].  White space is
    the characters 9 to 13 and 28 to 32, the next line character 133
    and the no-break space 160; it is the white space of [str.strip]
    and [str.isspace] too. *)
Definition is_digit (c : ascii) : bool :=
  let n := nat_of_ascii c in (48 <=? n)%nat && (n <=? 57)%nat.

Definition is_space (c : ascii) : bool :=
  let n := nat_of_ascii c in
  ((9 <=? n)%nat && (n <=? 13)%nat) || ((28 <=? n)%nat && (n <=? 32)%nat)
  || (n =? 133)%nat || (n =? 160)%nat.

Definition not_space (c : ascii) : bool := negb (is_space c).

Definition not_newline (c : ascii) : bool := negb (Ascii.eqb c LF).

(** [int(s)] for the texts this module passes to it: a run of decimal
    digits gives its value, anything else this module can pass (the
    empty text) raises [ValueError], here [None]. *)
Definition digit_value (c : ascii) : Z := Z.of_nat (nat_of_ascii c) - 48.

Fixpoint int_go (acc : Z) (s : string) : option Z :=
  match s with
  | EmptyString => Some acc
  | String c s' =>
      if is_digit c then int_go (10 * acc + digit_value c) s' else None
  end.

Definition int (s : string) : option Z :=
  match s with
  | EmptyString => None
  | _ => int_go 0 s
  end.

(** [str(n)] and the [{n}] of an f-string, for an [int]. *)
Definition str (n : Z) : string := pretty n.

(** Truth value of a [str]: the empty text is false. *)
Definition truthy (s : string) : bool :=
  match s with EmptyString => false | _ => true end.

End Py.

(** ** More of Python's [str] *)

Module PyText.

(** The characters [str.splitlines] ends a line at: line feed,
    vertical tab, form feed, carriage return, the file, group and
    record separators, and the next line character 133. *)
Definition is_linebreak (c : ascii) : bool :=
  let n := nat_of_ascii c in
  ((10 <=? n)%nat && (n <=? 13)%nat) || ((28 <=? n)%nat && (n <=? 30)%nat)
  || (n =? 133)%nat.

(** [s.splitlines()]: the lines without their ends; a carriage return
    and the line feed after it end one line; no empty line is added
    after the last line end.  [after_cr] says that the character
    before was a carriage return. *)
Fixpoint splitlines_go (after_cr : bool) (s : string) : list string :=
  match s with
  | EmptyString => []
  | String c s' =>
      if after_cr && Ascii.eqb c LF then splitlines_go false s'
      else if is_linebreak c then EmptyString :: splitlines_go (Ascii.eqb c CR) s'
      else match splitlines_go false s' with
           | l :: ls => String c l :: ls
           | [] => [String c EmptyString]
           end
  end.

Definition splitlines (s : string) : list string := splitlines_go false s.

(** Stripping the characters of a class from the start, from the end
    and from both ends of a text. *)
Fixpoint lstrip_of (cls : ascii -> bool) (s : string) : string :=
  match s with
  | String c s' => if cls c then lstrip_of cls s' else s
  | EmptyString => EmptyString
  end.

Fixpoint rstrip_of (cls : ascii -> bool) (s : string) : string :=
  match s with
  | String c s' =>
      match rstrip_of cls s' with
      | EmptyString => if cls c then EmptyString else String c EmptyString
      | r => String c r
      end
  | EmptyString => EmptyString
  end.

(** [s.lstrip()], [s.rstrip()] and [s.strip()]. *)
Definition lstrip (s : string) : string := lstrip_of Py.is_space s.

Definition rstrip (s : string) : string := rstrip_of Py.is_space s.

Definition strip (s : string) : string := rstrip (lstrip s).

(** [int(s)] for any text.  The white space around is dropped: for
    [int] this is the characters 9 to 13, the space, 133 and 160, not
    the separators 28 to 31.  One sign may lead, and the decimal
    digits may have single underscores between them.  A number of more
    than 4300 digits is refused.  Anything refused raises
    [ValueError], here [None]. *)
Definition is_int_space (c : ascii) : bool :=
  let n := nat_of_ascii c in
  ((9 <=? n)%nat && (n <=? 13)%nat) || (n =? 32)%nat
  || (n =? 133)%nat || (n =? 160)%nat.

Inductive int_state : Type := Start | AfterDigit | AfterUnderscore.

Fixpoint int_digits (acc : Z) (state : int_state) (s : string) : option Z :=
  match s with
  | EmptyString =>
      match state with
      | AfterDigit => Some acc
      | _ => None
      end
  | String c s' =>
      if Py.is_digit c then int_digits (10 * acc + Py.digit_value c) AfterDigit s'
      else if Ascii.eqb c "_" then
        match state with
        | AfterDigit => int_digits acc AfterUnderscore s'
        | _ => None
        end
      else None
  end.

(* sys.get_int_max_str_digits(), as Python starts with *)
Definition int_max_str_digits : nat := 4300.

Fixpoint count_digits (s : string) : nat :=
  match s with
  | String c s' => (if Py.is_digit c then 1 else 0) + count_digits s'
  | EmptyString => 0
  end.

Definition int_unsigned (s : string) : option Z :=
  if (int_max_str_digits <? count_digits s)%nat then None
  else int_digits 0 Start s.

Definition int (s : string) : option Z :=
  match rstrip_of is_int_space (lstrip_of is_int_space s) with
  | String c s' =>
      if Ascii.eqb c "+" then int_unsigned s'
      else if Ascii.eqb c "-" then Z.opp <$> int_unsigned s'
      else int_unsigned (String c s')
  | EmptyString => None
  end.

End PyText.

(** ** Regular expressions

    [re] patterns are kept as lists of atoms; only the constructs the
    module's patterns use are present.  Every pattern is compiled with
    [re.M] or has no anchor, so [^] and [$] have their multi-line
    reading.  Matching is by backtracking, longest repetition first,
    as in Python. *)

Module re.

Inductive atom : Type :=
  | Lit (c : ascii)                       (* a literal character *)
  | Caret                                 (* ^ under re.M *)
  | Dollar                                (* $ under re.M *)
  | LookBehind (c : ascii)                (* (?<=c) *)
  | Opt (c : ascii)                       (* c? *)
  | Rep (cls : ascii -> bool) (plus : bool) (group : bool).
      (* cls* or cls+, as a capturing group when [group] *)

Definition pattern := list atom.

Fixpoint lits (s : string) : pattern :=
  match s with
  | String c s' => Lit c :: lits s'
  | EmptyString => []
  end.

(** A match: the groups captured, left to right, and the number of
    characters consumed. *)
Definition found : Type := list string * nat.

Definition consume (n : nat) (r : option found) : option found :=
  match r with
  | Some (gs, m) => Some (gs, (n + m)%nat)
  | None => None
  end.

Definition capture (group : bool) (g : string) (r : option found) : option found :=
  match r with
  | Some (gs, m) => Some (if group then g :: gs else gs, m)
  | None => None
  end.

Definition at_bol (prev : option ascii) : bool :=
  match prev with
  | None => true
  | Some c => Ascii.eqb c LF
  end.

Definition at_eol (s : string) : bool :=
  match s with
  | EmptyString => true
  | String c _ => Ascii.eqb c LF
  end.

Definition prev_is (c : ascii) (prev : option ascii) : bool :=
  match prev with
  | None => false
  | Some d => Ascii.eqb d c
  end.

(** Greedy repetition of a character class followed by the rest of the
    pattern [k]: take one more character when the class allows it and
    the rest then matches, else stop here.  [acc] is the text taken so
    far, in reading order. *)
Fixpoint rep (k : option ascii -> string -> option found)
    (cls : ascii -> bool) (plus group : bool)
    (acc : string) (prev : option ascii) (s : string) : option found :=
  let stop :=
    if plus && negb (Py.truthy acc) then None
    else consume (String.length acc) (capture group acc (k prev s)) in
  match s with
  | String c s' =>
      if cls c then
        match rep k cls plus group (acc +:+ String c EmptyString) (Some c) s' with
        | Some r => Some r
        | None => stop
        end
      else stop
  | EmptyString => stop
  end.

(** [match_here p prev s]: does [p] match at the start of [s], the
    character before being [prev]? *)
Fixpoint match_here (p : pattern) (prev : option ascii) (s : string) : option found :=
  match p with
  | [] => Some ([], 0%nat)
  | Lit c :: p' =>
      match s with
      | String d s' =>
          if Ascii.eqb d c then consume 1 (match_here p' (Some d) s') else None
      | EmptyString => None
      end
  | Caret :: p' => if at_bol prev then match_here p' prev s else None
  | Dollar :: p' => if at_eol s then match_here p' prev s else None
  | LookBehind c :: p' => if prev_is c prev then match_here p' prev s else None
  | Opt c :: p' =>
      match s with
      | String d s' =>
          if Ascii.eqb d c then
            match consume 1 (match_here p' (Some d) s') with
            | Some r => Some r
            | None => match_here p' prev s
            end
          else match_here p' prev s
      | EmptyString => match_here p' prev s
      end
  | Rep cls plus group :: p' => rep (match_here p') cls plus group EmptyString prev s
  end.

(** [scan p skip prev s]: the matches of [p] in [s], left to right and
    not overlapping; [skip] characters of [s] belong to the previous
    match.  None of the module's patterns matches the empty text. *)
Fixpoint scan (p : pattern) (skip : nat) (prev : option ascii) (s : string)
    {struct s} : list (list string) :=
  match skip with
  | S n =>
      match s with
      | String c s' => scan p n (Some c) s'
      | EmptyString => []
      end
  | O =>
      match match_here p prev s with
      | Some (gs, n) =>
          gs :: match s with
                | String c s' => scan p (Nat.pred n) (Some c) s'
                | EmptyString => []
                end
      | None =>
          match s with
          | String c s' => scan p 0 (Some c) s'
          | EmptyString => []
          end
      end
  end.

(** [pattern.findall(s)]: one entry per match, holding its groups. *)
Definition findall (p : pattern) (s : string) : list (list string) :=
  scan p 0 None s.

End re.

(** ** Exceptions and results *)

Inductive exn : Type :=
  | AssertionError (msg : string)
  | IndexError
  | ValueError
  | UnboundLocalError
  | UnsupportedDistroException (msg : string)
  | LisaException (msg : string).

Inductive outcome (A : Type) : Type :=
  | Return (a : A)
  | Raise (e : exn).
Arguments Return {A} a.
Arguments Raise {A} e.

(** [lisa.util.process.ExecutableResult], the fields the module reads. *)
Record ExecutableResult : Type := {
  stdout : string;
  stderr : string;
  exit_code : Z
}.

(** ** The remote node

    Everything a tool asks of its node goes through one of the
    requests below.  The node answers as a function of the request and
    of the whole history, so a node whose files and installed commands
    change over time is covered; the log keeps each request with its
    answer, in the order they were made. *)

Module Remote.

(** Modelled from the spec: the platform profile has a version that is
    `ordered, comparable`; the class of [os.information.version] is
    not among the sources.  It is taken as major, minor and patch
    numbers compared from the left. *)
Record VersionInfo : Type := { major : N; minor : N; patch : N }.

Definition version_compare (a b : VersionInfo) : comparison :=
  match (major a ?= major b)%N with
  | Eq => match (minor a ?= minor b)%N with
          | Eq => (patch a ?= patch b)%N
          | c => c
          end
  | c => c
  end.

Definition version_lt (a b : VersionInfo) : bool :=
  match version_compare a b with Lt => true | _ => false end.

(** [node.os]: the answer of each [isinstance] test the module makes
    (the class hierarchy of [lisa.operating_system] is not among the
    sources, so the tests are independent) and the version. *)
Record OperatingSystem : Type := {
  is_CoreOs : bool;
  is_BSD : bool;
  is_Debian : bool;
  is_Redhat : bool;
  is_CBLMariner : bool;
  version : VersionInfo
}.

Inductive event : Type :=
  (* Tool.run of the tool whose command is [command] *)
  | Run (command parameters : string) (force_run sudo : bool) (r : ExecutableResult)
  (* node.execute *)
  | Execute (cmd : string) (sudo : bool) (r : ExecutableResult)
  (* Tool.command_exists: (exists, use_sudo) *)
  | CommandExists (command : string) (r : bool * bool)
  (* Tool._check_exists of the base class *)
  | CheckExists (command : string) (r : bool)
  (* node.tools[Cat].read *)
  | CatRead (file : string) (sudo : bool) (r : outcome string)
  (* node.tools[Uname].get_linux_information().hardware_platform *)
  | UnameHardwarePlatform (r : outcome string)
  (* node.tools[Wget].get *)
  | WgetGet (url file_path filename : string) (executable : bool) (r : outcome string)
  (* node.os.install_packages *)
  | InstallPackages (packages : string) (r : outcome unit)
  (* node.tools[Gcc].compile *)
  | GccCompile (filename output_name arguments : string) (r : outcome unit).

Definition history := list event.

Record Node : Type := {
  os : OperatingSystem;
  working_path : string;
  on_run : history -> string -> string -> bool -> bool -> ExecutableResult;
  on_execute : history -> string -> bool -> ExecutableResult;
  on_command_exists : history -> string -> bool * bool;
  on_check_exists : history -> string -> bool;
  on_cat_read : history -> string -> bool -> outcome string;
  on_uname : history -> outcome string;
  on_wget_get : history -> string -> string -> string -> bool -> outcome string;
  on_install_packages : history -> string -> outcome unit;
  on_gcc_compile : history -> string -> string -> string -> outcome unit
}.

End Remote.
Export Remote.

(** ** The monad of tool methods

    A method runs against the fields of its object ([self]) and the
    log of the node; it returns a value or raises, and either way the
    fields and the log keep what was done before. *)

Record world (S : Type) : Type := World { self : S; log : history }.
Arguments World {S}.
Arguments self {S}.
Arguments log {S}.

Definition M (S A : Type) : Type := world S -> outcome A * world S.

Global Instance M_ret {S} : MRet (M S) := fun A a w => (Return a, w).

Global Instance M_bind {S} : MBind (M S) := fun A B k c w =>
  match c w with
  | (Return a, w') => k a w'
  | (Raise e, w') => (Raise e, w')
  end.

Definition raise {S A} (e : exn) : M S A := fun w => (Raise e, w).

Definition get {S} : M S S := fun w => (Return (self w), w).

Definition modify {S} (f : S -> S) : M S unit :=
  fun w => (Return tt, World (f (self w)) (log w)).

(** Ask the node: [ask] computes the answer from the history, [ev]
    files the request with its answer. *)
Definition request {S A} (ask : history -> A) (ev : A -> event) : M S A :=
  fun w => let a := ask (log w) in (Return a, World (self w) (log w ++ [ev a])).

(** A request whose answer may be an exception of the tool asked. *)
Definition request_raising {S A} (ask : history -> outcome A)
    (ev : outcome A -> event) : M S A :=
  fun w => let a := ask (log w) in (a, World (self w) (log w ++ [ev a])).

(** The requests made by a method between two logs. *)
Definition events_since (before after : history) : history :=
  drop (length before) after.

(** ** [lisa.util] *)

Module util.

(** Modelled from the spec: [lisa.util.find_patterns_in_lines] is not
    among the sources.  The records of a pool are the
    `Key: K; Value: V` lines of the output: for each pattern it gives
    the matches of [findall] over the whole text. *)
Definition find_patterns_in_lines (lines : string) (patterns : list re.pattern)
    : list (list (list string)) :=
  map (fun p => re.findall p lines) patterns.

(** Modelled from the spec: [lisa.util.get_matched_str] is not among
    the sources.  It reads one value out of an output, as the count of
    the `Num records is N` line: the group of the first match, and
    the empty text when the content is empty or nothing matches. *)
Definition get_matched_str (content : string) (p : re.pattern) : string :=
  if Py.truthy content then
    match re.findall p content with
    | (g :: _) :: _ => g
    | _ => EmptyString
    end
  else EmptyString.

End util.

(** ** class Waagent *)

Module Waagent.

Record fields : Type := {
  _command : string;
  _python_cmd : option string;
  _python_use_sudo : option bool;
  _distro_version : option string;
  _waagent_conf_path : option string
}.

(* re.compile(r"(?<=\-)([^\s]+)") *)
Definition __version_pattern : re.pattern :=
  [re.LookBehind "-"; re.Rep Py.not_space true true].

Definition _python_candidates : list string :=
  ["python3"; "python2"; "/usr/libexec/platform-python";
   "/usr/share/oem/python/bin/python3"].

Definition set_command (c : string) (w : fields) : fields :=
  {| _command := c;
     _python_cmd := _python_cmd w;
     _python_use_sudo := _python_use_sudo w;
     _distro_version := _distro_version w;
     _waagent_conf_path := _waagent_conf_path w |}.

Definition set_python (c : string) (use_sudo : bool) (w : fields) : fields :=
  {| _command := _command w;
     _python_cmd := Some c;
     _python_use_sudo := Some use_sudo;
     _distro_version := _distro_version w;
     _waagent_conf_path := _waagent_conf_path w |}.

Definition set_distro_version (v : string) (w : fields) : fields :=
  {| _command := _command w;
     _python_cmd := _python_cmd w;
     _python_use_sudo := _python_use_sudo w;
     _distro_version := Some v;
     _waagent_conf_path := _waagent_conf_path w |}.

Definition set_waagent_conf_path (p : string) (w : fields) : fields :=
  {| _command := _command w;
     _python_cmd := _python_cmd w;
     _python_use_sudo := _python_use_sudo w;
     _distro_version := _distro_version w;
     _waagent_conf_path := Some p |}.

(** The two command lines of [_get_waagent_conf_path] and
    [get_distro_version] hold double quotes, spelled [DQUOTE] here. *)
Definition conf_path_query (python_cmd : string) : string :=
  python_cmd +:+ " -c " +:+
  String DQUOTE ("from azurelinuxagent.common.osutil import get_osutil;" +:+
                 "print(get_osutil().agent_conf_file_path)" +:+
                 String DQUOTE EmptyString).

Definition distro_query (python_cmd : string) : string :=
  python_cmd +:+ " -c " +:+
  String DQUOTE ("from azurelinuxagent.common.version import get_distro;" +:+
                 "print('-'.join(get_distro()[0:3]))" +:+
                 String DQUOTE EmptyString).

Definition legacy_distro_query (python_cmd : string) : string :=
  python_cmd +:+ " -c " +:+
  String DQUOTE ("import platform;" +:+
                 "print('-'.join(platform.linux_distribution(0)))" +:+
                 String DQUOTE EmptyString).

Section methods.

Variable node : Node.

Definition _initialize : fields :=
  {| _command :=
       if is_CoreOs (os node)
       then "/usr/share/oem/python/bin/python /usr/share/oem/bin/waagent"
       else "waagent";
     _python_cmd := None;
     _python_use_sudo := None;
     _distro_version := None;
     _waagent_conf_path := None |}.

(* self.run(parameters): Tool.run with the command of the moment *)
Definition run (parameters : string) : M fields ExecutableResult :=
  w ← get;
  request (fun h => on_run node h (_command w) parameters false false)
          (Run (_command w) parameters false false).

Definition execute (cmd : string) (sudo : bool) : M fields ExecutableResult :=
  request (fun h => on_execute node h cmd sudo) (Execute cmd sudo).

Definition command_exists (command : string) : M fields (bool * bool) :=
  request (fun h => on_command_exists node h command) (CommandExists command).

Definition failed (result : ExecutableResult) : bool :=
  negb (exit_code result =? 0)%Z.

Definition get_version : M fields string :=
  result ← run "-version";
  result ← (if failed result
            then modify (set_command "/usr/sbin/waagent");; run "-version"
            else mret result);
  result ← (if failed result
            then modify (set_command "python3 /usr/sbin/waagent");; run "-version"
            else mret result);
  mret (util.get_matched_str (stdout result) __version_pattern).

(** The [for ... break] of [get_python_cmd]: [bound] holds the loop
    variables as the last iteration left them. *)
Fixpoint probe_python (candidates : list string) (bound : option (string * bool))
    : M fields (option (string * bool)) :=
  match candidates with
  | [] => mret bound
  | python_cmd :: rest =>
      '(python_exists, use_sudo) ← command_exists python_cmd;
      if python_exists : bool then mret (Some (python_cmd, use_sudo))
      else probe_python rest (Some (python_cmd, use_sudo))
  end.

Definition get_python_cmd : M fields (string * bool) :=
  w ← get;
  match _python_cmd w, _python_use_sudo w with
  | Some python_cmd, Some use_sudo => mret (python_cmd, use_sudo)
  | _, _ =>
      bound ← probe_python _python_candidates None;
      match bound with
      | Some (python_cmd, use_sudo) =>
          modify (set_python python_cmd use_sudo);;
          mret (python_cmd, use_sudo)
      | None => raise UnboundLocalError
      end
  end.

Definition _get_waagent_conf_path : M fields string :=
  w ← get;
  match _waagent_conf_path w with
  | Some path => mret path
  | None =>
      '(python_cmd, use_sudo) ← get_python_cmd;
      result ← execute (conf_path_query python_cmd) use_sudo;
      let waagent_path :=
        if (exit_code result =? 0)%Z then stdout result
        else if is_CoreOs (os node) then "/usr/share/oem/waagent.conf"
        else if is_BSD (os node) then "/usr/local/etc/waagent.conf"
        else "/etc/waagent.conf" in
      modify (set_waagent_conf_path waagent_path);;
      mret waagent_path
  end.

Definition get_distro_version : M fields string :=
  w ← get;
  match _distro_version w with
  | Some v => mret v
  | None =>
      '(python_cmd, use_sudo) ← get_python_cmd;
      result ← execute (distro_query python_cmd) use_sudo;
      distro_version ←
        (if (exit_code result =? 0)%Z then mret (stdout result)
         else
           result ← execute (legacy_distro_query python_cmd) use_sudo;
           if (exit_code result =? 0)%Z
           then mret (Py.lower (Py.strip " " (Py.strip DQUOTE (stdout result))))
           else mret "Unknown");
      modify (set_distro_version distro_version);;
      mret distro_version
  end.

End methods.

End Waagent.

(** ** class LisDriver *)

Module LisDriver.

(* the "7.8.0" the version is compared with *)
Definition ceiling : VersionInfo := {| major := 7; minor := 8; patch := 0 |}.

Definition cannot_install : exn :=
  UnsupportedDistroException "lis driver can't be installed on this distro".

Definition can_install (node : Node) : M unit bool :=
  if is_Redhat (os node) && version_lt (version (os node)) ceiling
  then mret true
  else raise cannot_install.

End LisDriver.

(** ** Helpers shared by the key/value clients *)

(* l[i] *)
Definition index {S A} (l : list A) (i : nat) : M S A :=
  match l !! i with
  | Some x => mret x
  | None => raise IndexError
  end.

(* assert_that(...) with its description *)
Definition assert_that {S} (holds : bool) (description : string) : M S unit :=
  if holds then mret tt else raise (AssertionError description).

(* range(start, stop, step) for a positive step *)
Fixpoint range_go (fuel start stop step : nat) : list nat :=
  match fuel with
  | O => []
  | S fuel' =>
      if (start <? stop)%nat then start :: range_go fuel' (start + step) stop step
      else []
  end.

Definition range (start stop step : nat) : list nat :=
  range_go stop start stop step.

(** The methods a subclass of [KvpClient] may override; the inherited
    ones call them through [self]. *)
Module Tool.

Record class : Type := {
  command : string;
  can_install : bool;
  _check_exists : M unit bool;
  get_pool_records : Z -> bool -> M unit (gmap string string)
}.

End Tool.

(** ** class KvpClient *)

Module KvpClient.

Definition _binaries : gmap string string :=
  {[ "x86_64" := "https://raw.githubusercontent.com/microsoft/" +:+
                 "lis-test/master/WS2012R2/lisa/tools/KVP/kvp_client64";
     "i686" := "https://raw.githubusercontent.com/microsoft/" +:+
               "lis-test/master/WS2012R2/lisa/tools/KVP/kvp_client32" ]}.

Definition _command_name : string := "kvp_client".

Definition _source_location : string :=
  "https://raw.githubusercontent.com/microsoft/" +:+
  "lis-test/master/WS2012R2/lisa/tools/KVP/kvp_client.c".

(* _key_value_pattern, compiled with re.M: ^, the text [Key: ], the
   group key (any characters but a line feed, as many as can be), the
   text [; Value: ], the group value (the same), an optional carriage
   return, $ *)
Definition _key_value_pattern : re.pattern :=
  [re.Caret] ++ re.lits "Key: " ++ [re.Rep Py.not_newline false true] ++
  re.lits "; Value: " ++ [re.Rep Py.not_newline false true; re.Opt CR; re.Dollar].

(* re.compile(r"Num records is (\d+)\r?$", re.M) *)
Definition _count_record_pattern : re.pattern :=
  re.lits "Num records is " ++ [re.Rep Py.is_digit true true; re.Opt CR; re.Dollar].

(** {item[0]: item[1] for item in items}, filled from the left. *)
Fixpoint dict_of_items (items : list (list string)) (records : gmap string string)
    : M unit (gmap string string) :=
  match items with
  | [] => mret records
  | item :: rest =>
      key ← index item 0;
      value ← index item 1;
      dict_of_items rest (<[key := value]> records)
  end.

Section methods.

Variable node : Node.

(* str(self.node.working_path / self._command_name); [working_path]
   is the text of the path, which ends with a slash only when the
   path is a root, and is a dot or empty for the empty path *)
Definition command : string :=
  if bool_decide (working_path node = EmptyString ∨ working_path node = ".")
  then _command_name
  else if Py.endswith "/" (working_path node)
  then working_path node +:+ _command_name
  else working_path node +:+ "/" +:+ _command_name.

(* Tool._check_exists, not overridden by KvpClient *)
Definition _check_exists : M unit bool :=
  request (fun h => on_check_exists node h command) (CheckExists command).

Definition get_pool_records (pool_id : Z) (force_run : bool)
    : M unit (gmap string string) :=
  result ← request (fun h => on_run node h command (Py.str pool_id) force_run false)
                   (Run command (Py.str pool_id) force_run false);
  assert_that (bool_decide (exit_code result ∈ [0; 4]%Z)) "failed to get pool";;
  matched_lines ← mret (util.find_patterns_in_lines (stdout result) [_key_value_pattern]);
  items ← index matched_lines 0;
  records ← dict_of_items items ∅;
  match Py.int (util.get_matched_str (stdout result) _count_record_pattern) with
  | None => raise ValueError
  | Some count =>
      assert_that (bool_decide (Z.of_nat (size records) = count))
                  "result count is not the same as stats";;
      mret records
  end.

Definition class : Tool.class :=
  {| Tool.command := command;
     Tool.can_install := true;
     Tool._check_exists := _check_exists;
     Tool.get_pool_records := get_pool_records |}.

End methods.

(** The methods below are inherited as they are by [KvpClientFreeBSD];
    [self] is the class of the object they are called on. *)
Section inherited.

Variable node : Node.
Variable self : Tool.class.

Definition get_host_name : M unit string :=
  items ← Tool.get_pool_records self 3%Z false;
  mret (default EmptyString (items !! "HostName")).

Definition _install_by_download (binary_location : string) : M unit unit :=
  request_raising
    (fun h => on_wget_get node h binary_location (working_path node) _command_name true)
    (WgetGet binary_location (working_path node) _command_name true);;
  mret tt.

Definition _install_by_build : M unit unit :=
  source_file ←
    request_raising
      (fun h => on_wget_get node h _source_location (working_path node) EmptyString false)
      (WgetGet _source_location (working_path node) EmptyString false);
  (if is_CBLMariner (os node)
   then request_raising
          (fun h => on_install_packages node h "kernel-headers glibc-devel binutils")
          (InstallPackages "kernel-headers glibc-devel binutils")
   else mret tt);;
  request_raising
    (fun h => on_gcc_compile node h source_file (Tool.command self) "-std=c99")
    (GccCompile source_file (Tool.command self) "-std=c99").

Definition _install : M unit bool :=
  architecture ← request_raising (on_uname node) UnameHardwarePlatform;
  binary_location ← mret (default EmptyString (_binaries !! architecture));
  (if Py.truthy binary_location
   then _install_by_download binary_location
   else _install_by_build);;
  Tool._check_exists self.

End inherited.

End KvpClient.

(** ** class KvpClientFreeBSD(KvpClient) *)

Module KvpClientFreeBSD.

Definition _KVP_POOL_LOCATION : string := "/var/db/hyperv/pool".

(** The loop over [range(0, len(content_split), 2)]. *)
Fixpoint store_pairs (content_split : list string) (indices : list nat)
    (records : gmap string string) : M unit (gmap string string) :=
  match indices with
  | [] => mret records
  | i :: rest =>
      value ← index content_split (i + 1);
      key ← index content_split i;
      store_pairs content_split rest (<[key := value]> records)
  end.

Definition pool_file (pool_id : Z) : string :=
  _KVP_POOL_LOCATION +:+ "/.kvp_pool_" +:+ Py.str pool_id.

Section methods.

Variable node : Node.

Definition get_pool_records (pool_id : Z) (force_run : bool)
    : M unit (gmap string string) :=
  content ← request_raising (fun h => on_cat_read node h (pool_file pool_id) true)
                            (CatRead (pool_file pool_id) true);
  content_split ← mret (Py.split NUL content);
  content_split ← mret (filter (fun item => item ≠ EmptyString) content_split);
  store_pairs content_split (range 0 (length content_split) 2) ∅.

Definition class : Tool.class :=
  {| Tool.command := EmptyString;
     Tool.can_install := false;
     Tool._check_exists := mret true;
     Tool.get_pool_records := get_pool_records |}.

(* inherited *)
Definition get_host_name : M unit string := KvpClient.get_host_name class.

End methods.

End KvpClientFreeBSD.


(** * Vocabulary of the statements *)

(** A version at or above another, spelled out on the numbers. *)
Definition at_or_above (v c : VersionInfo) : Prop :=
  (major c < major v)%N
  ∨ (major v = major c ∧ (minor c < minor v)%N)
  ∨ (major v = major c ∧ minor v = minor c ∧ (patch c <= patch v)%N).

Definition strictly_below (v c : VersionInfo) : Prop :=
  (major v < major c)%N
  ∨ (major v = major c ∧ (minor v < minor c)%N)
  ∨ (major v = major c ∧ minor v = minor c ∧ (patch v < patch c)%N).


(** The request [get_version] makes for a command, and its answer on a
    given history. *)
Definition version_probe (node : Node) (h : history) (command : string)
    : ExecutableResult :=
  on_run node h command "-version" false false.

Definition version_event (command : string) (r : ExecutableResult) : event :=
  Run command "-version" false false r.

(** The command forms [get_version] goes through, from the one the
    object holds. *)
Definition version_chain (w : Waagent.fields) : list string :=
  [Waagent._command w; "/usr/sbin/waagent"; "python3 /usr/sbin/waagent"].

(** The three facts [Waagent] derives once and keeps, a call of the
    method of each, and the value its fields hold for it. *)
Inductive derived_fact : Type := PythonCmd | WaagentConfPath | DistroVersion.

Inductive fact_value : Type :=
  | Interpreter (python_cmd : string) (use_sudo : bool)
  | Text (s : string).

Definition call (node : Node) (f : derived_fact) : M Waagent.fields fact_value :=
  match f with
  | PythonCmd =>
      '(python_cmd, use_sudo) ← Waagent.get_python_cmd node;
      mret (Interpreter python_cmd use_sudo)
  | WaagentConfPath =>
      path ← Waagent._get_waagent_conf_path node;
      mret (Text path)
  | DistroVersion =>
      distro_version ← Waagent.get_distro_version node;
      mret (Text distro_version)
  end.

Definition cached (f : derived_fact) (w : Waagent.fields) : option fact_value :=
  match f with
  | PythonCmd =>
      match Waagent._python_cmd w, Waagent._python_use_sudo w with
      | Some python_cmd, Some use_sudo => Some (Interpreter python_cmd use_sudo)
      | _, _ => None
      end
  | WaagentConfPath => Text <$> Waagent._waagent_conf_path w
  | DistroVersion => Text <$> Waagent._distro_version w
  end.

(** The fields [w'] keep every fact the fields [w] hold. *)
Definition keeps (w w' : Waagent.fields) : Prop :=
  ∀ f v, cached f w = Some v → cached f w' = Some v.

(** A sequence of calls, one after the other on the same object. *)
Fixpoint calls (node : Node) (fs : list derived_fact)
    : M Waagent.fields (list fact_value) :=
  match fs with
  | [] => mret []
  | f :: rest =>
      v ← call node f;
      vs ← calls node rest;
      mret (v :: vs)
  end.

(** ** Sample nodes *)

Module Sample.

Definition ok (out : string) : ExecutableResult :=
  {| stdout := out; stderr := EmptyString; exit_code := 0 |}.

Definition not_found : ExecutableResult :=
  {| stdout := EmptyString; stderr := "command not found"; exit_code := 127 |}.

Definition system (coreos bsd redhat : bool) (v : VersionInfo) : OperatingSystem :=
  {| is_CoreOs := coreos; is_BSD := bsd; is_Debian := false;
     is_Redhat := redhat; is_CBLMariner := false; version := v |}.

Definition v (a b c : N) : VersionInfo := {| major := a; minor := b; patch := c |}.

(** A node whose answers do not depend on the history, but for the
    existence check of a tool: it holds once a download or a compile
    was asked for. *)
Definition installed (h : history) : bool :=
  existsb (fun e => match e with
                    | WgetGet _ _ _ true (Return _) => true
                    | GccCompile _ _ _ (Return _) => true
                    | _ => false
                    end) h.

Definition node (system : OperatingSystem)
    (run : string -> string -> ExecutableResult)
    (execute : string -> ExecutableResult)
    (exists_ : string -> bool * bool)
    (read : string -> outcome string)
    (architecture : string) : Node :=
  {| os := system;
     working_path := "/home/lisa";
     on_run := fun _ command parameters _ _ => run command parameters;
     on_execute := fun _ cmd _ => execute cmd;
     on_command_exists := fun _ command => exists_ command;
     on_check_exists := fun h _ => installed h;
     on_cat_read := fun _ file _ => read file;
     on_uname := fun _ => Return architecture;
     on_wget_get := fun _ url file_path filename _ =>
       Return (file_path +:+ "/" +:+
               (if Py.truthy filename then filename else "kvp_client.c"));
     on_install_packages := fun _ _ => Return tt;
     on_gcc_compile := fun _ _ _ _ => Return tt |}.

(** Nothing is installed and nothing answers. *)
Definition bare (system : OperatingSystem) : Node :=
  node system (fun _ _ => not_found) (fun _ => not_found)
       (fun _ => (false, false)) (fun _ => Raise (LisaException "no such file"))
       "aarch64".

Definition linux : OperatingSystem := system false false false (v 18 4 0).
Definition coreos : OperatingSystem := system true false true (v 2512 3 0).

End Sample.

(** ** Probe chains *)

Definition oem_waagent : string :=
  "/usr/share/oem/python/bin/python /usr/share/oem/bin/waagent".

(** What [get_version] does to the object [w] on the history [h]: it
    runs a non-empty prefix of the chain, in order; a form that exits
    with 0 is the last one run; when the last one run fails the whole
    chain was run; and the object holds the last form run. *)
Definition version_chain_short_circuits (node : Node) (w : Waagent.fields)
    (h : history) : Prop :=
  ∃ results : list ExecutableResult,
    1 ≤ length results ≤ 3
    ∧ log (snd (Waagent.get_version node (World w h)))
      = h ++ zip_with version_event (version_chain w) results
    ∧ (∀ i r, results !! i = Some r → exit_code r = 0%Z → S i = length results)
    ∧ (∀ r, last results = Some r → exit_code r ≠ 0%Z → length results = 3)
    ∧ version_chain w !! (length results - 1)
      = Some (Waagent._command (self (snd (Waagent.get_version node (World w h))))).

(** What [get_python_cmd] does when nothing is cached: it asks for a
    non-empty prefix of the candidates, in order; a candidate that
    exists is the last one asked; when the last one asked does not
    exist every candidate was asked; and the last one asked is
    returned and kept in the fields with its [use_sudo]. *)
Definition python_probe_short_circuits (node : Node) (w : Waagent.fields)
    (h : history) : Prop :=
  ∃ (answers : list (bool * bool)) (python_cmd : string) (answer : bool * bool),
    1 ≤ length answers ≤ length Waagent._python_candidates
    ∧ (∀ i a, answers !! i = Some a → a.1 = true → S i = length answers)
    ∧ (answer.1 = false → length answers = length Waagent._python_candidates)
    ∧ last answers = Some answer
    ∧ Waagent._python_candidates !! (length answers - 1) = Some python_cmd
    ∧ Waagent.get_python_cmd node (World w h)
      = (Return (python_cmd, answer.2),
         World (Waagent.set_python python_cmd answer.2 w)
               (h ++ zip_with CommandExists Waagent._python_candidates answers)).

(** A node where [waagent] is not on the path, [/usr/sbin/waagent]
    answers, and the second interpreter candidate is the first to
    exist. *)
Definition Sample_fallback : Node :=
  Sample.node Sample.linux
    (fun command _ =>
       if decide (command = "/usr/sbin/waagent")
       then Sample.ok "WALinuxAgent-2.2.45 running on ubuntu 18.04"
       else Sample.not_found)
    (fun _ => Sample.not_found)
    (fun command => (bool_decide (command ≠ "python3"), false))
    (fun _ => Raise (LisaException "no such file"))
    "x86_64".

(** ** The distribution version *)

(* the output stripped of double quotes, then of spaces, then lowered *)
Definition normalised (out : string) : string :=
  Py.lower (Py.strip " " (Py.strip DQUOTE out)).

(** How [get_distro_version] degrades once the interpreter is known
    (it is [python_cmd], to be run with [use_sudo], the fields being
    [w1] and the history [h1]): the modern query first; when it exits
    with a non-zero code the legacy one; when both do, the text
    [Unknown]. *)
Definition distro_version_degrades (node : Node) (w : Waagent.fields) (h : history)
    (python_cmd : string) (use_sudo : bool) (w1 : Waagent.fields) (h1 : history)
    : Prop :=
  let modern := on_execute node h1 (Waagent.distro_query python_cmd) use_sudo in
  let h2 := h1 ++ [Execute (Waagent.distro_query python_cmd) use_sudo modern] in
  let legacy := on_execute node h2 (Waagent.legacy_distro_query python_cmd) use_sudo in
  let h3 := h2 ++ [Execute (Waagent.legacy_distro_query python_cmd) use_sudo legacy] in
  (exit_code modern = 0%Z →
     Waagent.get_distro_version node (World w h)
     = (Return (stdout modern),
        World (Waagent.set_distro_version (stdout modern) w1) h2))
  ∧ (exit_code modern ≠ 0%Z → exit_code legacy = 0%Z →
     Waagent.get_distro_version node (World w h)
     = (Return (normalised (stdout legacy)),
        World (Waagent.set_distro_version (normalised (stdout legacy)) w1) h3))
  ∧ (exit_code modern ≠ 0%Z → exit_code legacy ≠ 0%Z →
     Waagent.get_distro_version node (World w h)
     = (Return "Unknown", World (Waagent.set_distro_version "Unknown" w1) h3)).

(** A node with an old agent: only the legacy query answers. *)
Definition Sample_legacy : Node :=
  Sample.node Sample.linux
    (fun _ _ => Sample.not_found)
    (fun cmd =>
       if decide (cmd = Waagent.legacy_distro_query "python2")
       then Sample.ok "CentOS-6.5-Final"
       else Sample.not_found)
    (fun command => (bool_decide (command = "python2"), false))
    (fun _ => Raise (LisaException "no such file"))
    "x86_64".

(** ** Pools *)

(** The non-empty fields of a pool file, as [get_pool_records] of
    FreeBSD keeps them. *)
Definition fields_of (content : string) : list string :=
  filter (fun item => item ≠ EmptyString) (Py.split NUL content).

(** A dictionary filled from the left with (key, value) pairs. *)
Definition dict_of (pairs : list (string * string)) (records : gmap string string)
    : gmap string string :=
  foldl (fun m kv => <[kv.1 := kv.2]> m) records pairs.

(** The fields of a pool file taken two by two; a last field without a
    partner is left out. *)
Fixpoint pair_up (l : list string) : list (string * string) :=
  match l with
  | key :: value :: rest => (key, value) :: pair_up rest
  | _ => []
  end.

(** The pool file of the specification's scenario: [HostName], NUL,
    [example-host], NUL. *)
Definition host_name_pool : string :=
  "HostName" +:+ String NUL ("example-host" +:+ String NUL EmptyString).

(** A FreeBSD node whose pool 3 holds [content]. *)
Definition Sample_freebsd (content : string) : Node :=
  Sample.node (Sample.system false true false (Sample.v 13 1 0))
    (fun _ _ => Sample.not_found)
    (fun _ => Sample.not_found)
    (fun _ => (false, false))
    (fun file =>
       if decide (file = "/var/db/hyperv/pool/.kvp_pool_3") then Return content
       else Raise (LisaException "no such file"))
    "amd64".

(** The number of capturing groups of a pattern. *)
Fixpoint groups (p : re.pattern) : nat :=
  match p with
  | re.Rep _ _ true :: p' => S (groups p')
  | _ :: p' => groups p'
  | [] => 0
  end.

(** The (key, value) of a match of the key/value pattern. *)
Definition key_value (item : list string) : string * string :=
  (default EmptyString (item !! 0), default EmptyString (item !! 1)).

(** What the output of the client says: the records of its
    `Key: K; Value: V` lines, and the count of its first
    `Num records is N` line. *)
Definition parsed_records (output : string) : gmap string string :=
  dict_of (map key_value (re.findall KvpClient._key_value_pattern output)) ∅.

Definition reported_count (output : string) : option Z :=
  Py.int (util.get_matched_str output KvpClient._count_record_pattern).

(** A Linux node whose client prints [output] and exits with [code]. *)
Definition Sample_client (output : string) (code : Z) : Node :=
  Sample.node Sample.linux
    (fun _ _ => {| stdout := output; stderr := EmptyString; exit_code := code |})
    (fun _ => Sample.not_found)
    (fun _ => (false, false))
    (fun _ => Raise (LisaException "no such file"))
    "x86_64".

Definition line (s : string) : string := s +:+ String LF EmptyString.

(** Two records under one key, and a count of two. *)
Definition duplicate_output : string :=
  line "Pool is 3" +:+ line "Num records is 2" +:+
  line "Key: a; Value: 1" +:+ line "Key: a; Value: 2".

(** ** Installation *)

(** The answer kept with a request is an exception. *)
Definition raised (e : event) : bool :=
  match e with
  | CatRead _ _ (Raise _) | UnameHardwarePlatform (Raise _)
  | WgetGet _ _ _ _ (Raise _) | InstallPackages _ (Raise _)
  | GccCompile _ _ _ (Raise _) => true
  | _ => false
  end.

(** A download of the binary: [Wget.get] asked for an executable. *)
Definition is_download (e : event) : bool :=
  match e with
  | WgetGet _ _ _ true _ => true
  | _ => false
  end.

Definition is_compile (e : event) : bool :=
  match e with
  | GccCompile _ _ _ _ => true
  | _ => false
  end.

(** Nodes of a given architecture with nothing installed. *)
Definition Sample_arch (architecture : string) : Node :=
  Sample.node Sample.linux
    (fun _ _ => Sample.not_found)
    (fun _ => Sample.not_found)
    (fun _ => (false, false))
    (fun _ => Raise (LisaException "no such file"))
    architecture.

(** ** The same records behind both clients

    The same list of (key, value) records as the client of Linux
    prints it and as the pool file of FreeBSD stores it. *)

(** What [kvp_client] prints for a pool: the pool, the number of
    records, then one line per record.  [pool] and [count] are the
    numbers as printed. *)
Definition record_text (record : string * string) : string :=
  "Key: " +:+ record.1 +:+ "; Value: " +:+ record.2.

Definition record_line (record : string * string) : string :=
  record_text record +:+ String LF EmptyString.

Fixpoint record_lines (records : list (string * string)) : string :=
  match records with
  | record :: rest => record_line record +:+ record_lines rest
  | [] => EmptyString
  end.

Definition client_output (pool count : string) (records : list (string * string))
    : string :=
  "Pool is " +:+ pool +:+ String LF
    ("Num records is " +:+ count +:+ String LF (record_lines records)).

(** A pool file: each key and each value is followed by one NUL and
    by as many more as the padding of the file has for it. *)
Fixpoint nuls (n : nat) (rest : string) : string :=
  match n with
  | O => rest
  | S n' => String NUL (nuls n' rest)
  end.

Fixpoint pool_content (key_pad value_pad : string -> nat)
    (records : list (string * string)) : string :=
  match records with
  | (key, value) :: rest =>
      key +:+ nuls (S (key_pad key))
        (value +:+ nuls (S (value_pad value)) (pool_content key_pad value_pad rest))
  | [] => EmptyString
  end.

(** Texts and their characters. *)
Fixpoint all_chars (P : ascii -> bool) (s : string) : bool :=
  match s with
  | String c s' => P c && all_chars P s'
  | EmptyString => true
  end.

Fixpoint contains (sub s : string) : bool :=
  String.prefix sub s ||
  match s with
  | String _ s' => contains sub s'
  | EmptyString => false
  end.

(** A record both clients read back as it is: key and value are not
    empty, hold no NUL and no line feed, and the value does not hold
    the text that separates a key from its value in the output. *)
Definition plain (s : string) : bool :=
  Py.truthy s
  && all_chars (fun c => negb (Ascii.eqb c NUL) && negb (Ascii.eqb c LF)) s.

Definition readable (record : string * string) : bool :=
  plain record.1 && plain record.2 && negb (contains "; Value: " record.2).

(** Sample records, and a Linux node and a FreeBSD node holding them. *)
Definition sample_records : list (string * string) :=
  [("HostName", "example-host"); ("OSName", "FreeBSD; Value 13")].


(** The character before the position reached after reading [t],
    [prev] being the one before [t]. *)
Fixpoint last_char (prev : option ascii) (t : string) : option ascii :=
  match t with
  | String c t' => last_char (Some c) t'
  | EmptyString => prev
  end.

(** The key/value pattern after the key, and after the separator. *)
Definition value_part : re.pattern :=
  [re.Rep Py.not_newline false true; re.Opt CR; re.Dollar].

Definition separator_part : re.pattern := re.lits "; Value: " ++ value_part.

(** ** What a run hands over

    The text of a run, and of [Cat.read], reaches the tools without
    the white space at its ends ([str.strip]; [lisa.util.process] is
    not among the sources): of what the client prints, the last line
    feed is gone, and so is the white space at the end of the last
    line. *)

(** Lines with a line feed after each, and lines with a line feed
    between them. *)
Fixpoint unlines (lines : list string) : string :=
  match lines with
  | l :: rest => l +:+ String LF (unlines rest)
  | [] => EmptyString
  end.

Fixpoint join_lines (lines : list string) : string :=
  match lines with
  | [] => EmptyString
  | l :: rest =>
      match rest with
      | [] => l
      | _ :: _ => l +:+ String LF (join_lines rest)
      end
  end.

(** The lines of [client_output]. *)
Definition client_lines (pool count : string) (records : list (string * string))
    : list string :=
  ("Pool is " +:+ pool) :: ("Num records is " +:+ count) :: map record_text records.

(** A text that does not start, or does not end, with white space. *)
Definition starts_clean (s : string) : bool :=
  match s with
  | String c _ => negb (Py.is_space c)
  | EmptyString => true
  end.

Definition ends_clean (s : string) : bool :=
  match last_char None s with
  | Some c => negb (Py.is_space c)
  | None => true
  end.


Definition last_value_clean (records : list (string * string)) : bool :=
  match last records with
  | Some record => ends_clean record.2
  | None => true
  end.

(** What [findall] gives for a line, wherever the line stands in a
    text: [found] are the matches in the line [l], when [l] starts at
    the start of a line and the text ends or goes on with a line feed
    after it. *)
Definition reads_line (p : re.pattern) (l : string) (found : list (list string))
    : Prop :=
  ∀ prev tail,
    re.at_bol prev = true → re.at_eol tail = true →
    re.scan p 0 prev (l +:+ tail) = found ++ re.scan p 0 (last_char prev l) tail.

(** A line without line feed that does not start with a given
    character. *)
Definition other_line (first : ascii) (l : string) : bool :=
  match l with
  | String c _ => negb (Ascii.eqb c first)
  | EmptyString => true
  end
  && all_chars Py.not_newline l.

(** A Linux node and a FreeBSD node that hold the same records. *)
Definition Sample_linux_holds (records : list (string * string)) : Node :=
  Sample_client
    (PyText.strip (client_output "3" (Py.str (Z.of_nat (length records))) records)) 0.

Definition Sample_freebsd_holds (records : list (string * string)) : Node :=
  Sample_freebsd
    (PyText.strip
       (pool_content (fun key => 511 - String.length key)
                     (fun value => 2047 - String.length value) records)).

(** * Further vocabulary *)

(** A node whose answer to a run does not depend on the history. *)
Definition run_stateless (node : Node) : Prop :=
  ∀ (h h' : history) (command parameters : string) (force_run sudo : bool),
    on_run node h command parameters force_run sudo
    = on_run node h' command parameters force_run sudo.

(** The last interpreter candidate of [Waagent]. *)
Definition last_python_candidate : string := "/usr/share/oem/python/bin/python3".

(** Asking the node for each of the commands in turn: every request
    with the answer the node gives on the history of the moment. *)
Fixpoint asked (node : Node) (h : history) (commands : list string) : history :=
  match commands with
  | [] => []
  | command :: rest =>
      let e := CommandExists command (on_command_exists node h command) in
      e :: asked node (h ++ [e]) rest
  end.

(** A node with [cat], found under sudo as every other command is
    looked for there, and without any interpreter. *)
Definition Sample_no_python : Node :=
  Sample.node Sample.linux
    (fun _ _ => Sample.not_found)
    (fun _ => Sample.not_found)
    (fun command => (bool_decide (command = "cat"), true))
    (fun _ => Raise (LisaException "no such file"))
    "x86_64".

(** The text stops here or goes on with white space. *)
Definition ends_word (rest : string) : bool :=
  match rest with
  | EmptyString => true
  | String c _ => Py.is_space c
  end.

Definition no_dash (name : string) : bool :=
  all_chars (fun c => negb (Ascii.eqb c "-")) name.

(** The pairs of a list that stand under a key. *)
Definition under_key (k : string) (pairs : list (string * string))
    : list (string * string) :=
  filter (fun kv => kv.1 = k) pairs.


(** The output of the client when its lines end with a carriage
    return before the line feed. *)
Definition crlf : string := String CR (String LF EmptyString).

Fixpoint record_lines_crlf (records : list (string * string)) : string :=
  match records with
  | record :: rest => record_text record +:+ crlf +:+ record_lines_crlf rest
  | [] => EmptyString
  end.

Definition client_output_crlf (pool count : string) (records : list (string * string))
    : string :=
  "Pool is " +:+ pool +:+ crlf +:+
  "Num records is " +:+ count +:+ crlf +:+ record_lines_crlf records.

(** A record whose value has a carriage return at its end. *)
Definition with_cr (record : string * string) : string * string :=
  (record.1, record.2 +:+ String CR EmptyString).

(** A line with a carriage return at its end; lines, and records, of
    which all but the last have one: stripping takes the carriage
    return of the last line with its line feed. *)
Definition add_cr (l : string) : string := l +:+ String CR EmptyString.

Fixpoint cr_but_last (lines : list string) : list string :=
  match lines with
  | [] => []
  | l :: rest =>
      match rest with
      | [] => [l]
      | _ :: _ => add_cr l :: cr_but_last rest
      end
  end.

Fixpoint with_cr_but_last (records : list (string * string))
    : list (string * string) :=
  match records with
  | [] => []
  | record :: rest =>
      match rest with
      | [] => [record]
      | _ :: _ => with_cr record :: with_cr_but_last rest
      end
  end.

(** * The configuration of the agent

    [Waagent._get_configuration] and the methods that read a setting
    out of it. *)

(** ** [pattern.fullmatch] for a pattern compiled without [re.M]

    The whole text has to be matched; [^] holds at the start of the
    text only, and [$] at its end or before a line feed that is its
    last character. *)

Module refull.

Definition at_start (prev : option ascii) : bool :=
  match prev with
  | None => true
  | Some _ => false
  end.

Definition at_end (s : string) : bool :=
  match s with
  | EmptyString => true
  | String c EmptyString => Ascii.eqb c LF
  | _ => false
  end.

Fixpoint fullmatch_here (p : re.pattern) (prev : option ascii) (s : string)
    : option re.found :=
  match p with
  | [] =>
      match s with
      | EmptyString => Some ([], 0%nat)
      | _ => None
      end
  | re.Lit c :: p' =>
      match s with
      | String d s' =>
          if Ascii.eqb d c then re.consume 1 (fullmatch_here p' (Some d) s') else None
      | EmptyString => None
      end
  | re.Caret :: p' => if at_start prev then fullmatch_here p' prev s else None
  | re.Dollar :: p' => if at_end s then fullmatch_here p' prev s else None
  | re.LookBehind c :: p' =>
      if re.prev_is c prev then fullmatch_here p' prev s else None
  | re.Opt c :: p' =>
      match s with
      | String d s' =>
          if Ascii.eqb d c then
            match re.consume 1 (fullmatch_here p' (Some d) s') with
            | Some r => Some r
            | None => fullmatch_here p' prev s
            end
          else fullmatch_here p' prev s
      | EmptyString => fullmatch_here p' prev s
      end
  | re.Rep cls plus group :: p' =>
      re.rep (fullmatch_here p') cls plus group EmptyString prev s
  end.

(** The groups of the match, or [None]. *)
Definition fullmatch (p : re.pattern) (s : string) : option (list string) :=
  match fullmatch_here p None s with
  | Some (gs, _) => Some gs
  | None => None
  end.

End refull.

(** ** The exceptions of the methods that index the configuration *)

Inductive failure : Type :=
  | Exn (e : exn)
  | KeyError (key : string).

Inductive answer (A : Type) : Type :=
  | Returned (a : A)
  | Failed (f : failure).
Arguments Returned {A} a.
Arguments Failed {A} f.

(** ** class Waagent, the configuration *)

Module WaagentConfiguration.

(* _key_value_regex: ^, white space, the group key (characters that
   are not white space, one at least), an equals sign, the group value
   (the same), white space, $ *)
Definition _key_value_regex : re.pattern :=
  [re.Caret; re.Rep Py.is_space false false; re.Rep Py.not_space true true;
   re.Lit "="; re.Rep Py.not_space true true; re.Rep Py.is_space false false;
   re.Dollar].

(** The loop over the lines of the file. *)
Fixpoint read_lines (lines : list string) (config : gmap string string)
    : gmap string string :=
  match lines with
  | [] => config
  | line :: rest =>
      match refull.fullmatch _key_value_regex line with
      | Some (key :: value :: _) => read_lines rest (<[key := value]> config)
      | _ => read_lines rest config
      end
  end.

(* config[key] *)
Definition item (config : gmap string string) (key : string) : answer string :=
  match config !! key with
  | Some value => Returned value
  | None => Failed (KeyError key)
  end.

Section methods.

Variable node : Node.

(** The command of the [Cat] tool, which is not among the sources. *)
Variable cat : string.

Definition _get_configuration (force_run : bool)
    : M Waagent.fields (gmap string string) :=
  waagent_conf_file ← Waagent._get_waagent_conf_path node;
  result ← request (fun h => on_run node h cat waagent_conf_file force_run false)
                   (Run cat waagent_conf_file force_run false);
  mret (WaagentConfiguration.read_lines (PyText.splitlines (stdout result)) ∅).

(** A method that reads the configuration and answers from it. *)
Definition reading {A} (force_run : bool) (f : gmap string string -> answer A)
    (w : world Waagent.fields) : answer A * world Waagent.fields :=
  match _get_configuration force_run w with
  | (Return config, w') => (f config, w')
  | (Raise e, w') => (Failed (Exn e), w')
  end.

Definition get_root_device_timeout :=
  reading false (fun waagent_configuration =>
    match item waagent_configuration "OS.RootDeviceScsiTimeout" with
    | Returned value =>
        match PyText.int value with
        | Some n => Returned n
        | None => Failed (Exn ValueError)
        end
    | Failed f => Failed f
    end).

Definition get_resource_disk_mount_point :=
  reading false (fun waagent_configuration =>
    item waagent_configuration "ResourceDisk.MountPoint").

Definition is_autoupdate_enabled :=
  reading false (fun waagent_configuration =>
    if decide (waagent_configuration !! "AutoUpdate.Enabled" = Some "n")
    then Returned false
    else Returned true).

Definition yes_or_no (name : string) (value : string) : answer bool :=
  if decide (value = "y") then Returned true
  else if decide (value = "n") then Returned false
  else Failed (Exn (LisaException ("Unknown value for " +:+ name +:+ " : " +:+ value))).

Definition is_swap_enabled :=
  reading false (fun waagent_configuration =>
    match item waagent_configuration "ResourceDisk.EnableSwap" with
    | Returned is_swap_enabled => yes_or_no "ResourceDisk.EnableSwap" is_swap_enabled
    | Failed f => Failed f
    end).

Definition is_rdma_enabled :=
  reading true (fun waagent_configuration =>
    match item waagent_configuration "OS.EnableRDMA" with
    | Returned is_rdma_enabled => yes_or_no "OS.EnableRDMA" is_rdma_enabled
    | Failed f => Failed f
    end).

End methods.

End WaagentConfiguration.

(** ** Configuration files *)

(** A line of a configuration file: a setting, with the blanks before
    and after it, or any other text. *)
Inductive conf_line : Type :=
  | Setting (indent key value trail : string)
  | Other (text : string).

Definition conf_text (l : conf_line) : string :=
  match l with
  | Setting indent key value trail => indent +:+ key +:+ "=" +:+ value +:+ trail
  | Other text => text
  end.

(** The text of a file as [cat] hands it over: the lines, with line
    feeds between them. *)
Definition conf_file (lines : list conf_line) : string :=
  join_lines (map conf_text lines).

Fixpoint settings (lines : list conf_line) : list (string * string) :=
  match lines with
  | Setting _ key value _ :: rest => (key, value) :: settings rest
  | Other _ :: rest => settings rest
  | [] => []
  end.

(** White space that ends no line: the tab, the space, the unit
    separator 31 and the no-break space 160. *)
Definition is_blank (c : ascii) : bool :=
  Py.is_space c && negb (PyText.is_linebreak c).

Definition not_equals (c : ascii) : bool := negb (Ascii.eqb c "=").

Definition not_linebreak (c : ascii) : bool := negb (PyText.is_linebreak c).

Fixpoint has_char (c : ascii) (s : string) : bool :=
  match s with
  | String d s' => Ascii.eqb d c || has_char c s'
  | EmptyString => false
  end.

(** A text without its last character, and without its first and
    last characters. *)
Fixpoint init (s : string) : string :=
  match s with
  | EmptyString => EmptyString
  | String c s' =>
      match s' with
      | EmptyString => EmptyString
      | String _ _ => String c (init s')
      end
  end.

Definition middle (s : string) : string :=
  match s with
  | String _ s' => init s'
  | EmptyString => EmptyString
  end.

(** The shape of a setting: the white space around it apart, the text
    holds no white space and has an equals sign after its first and
    before its last character. *)
Definition setting_shape (text : string) : bool :=
  all_chars Py.not_space (PyText.strip text)
  && has_char "=" (middle (PyText.strip text)).

(** A setting has a key and a value that are not empty and hold no
    white space, a value without equals sign before its last
    character (the key goes up to the last equals sign that leaves a
    value), and white space that ends no line around; another line
    holds no line end and has not the shape of a setting: a comment,
    an empty line, a setting that is commented out or followed by a
    comment. *)
Definition well_formed (l : conf_line) : bool :=
  match l with
  | Setting indent key value trail =>
      all_chars is_blank indent && all_chars is_blank trail
      && Py.truthy key && all_chars Py.not_space key
      && Py.truthy value && all_chars Py.not_space value
      && all_chars not_equals (init value)
  | Other text => all_chars not_linebreak text && negb (setting_shape text)
  end.

(** The text stops here or goes on with a character outside a class. *)
Definition ends_with (cls : ascii -> bool) (s : string) : bool :=
  match s with
  | EmptyString => true
  | String c _ => negb (cls c)
  end.

(** The configuration pattern after the value, after the key, and
    after the white space that leads the line. *)
Definition conf_end_part : re.pattern := [re.Dollar].

Definition conf_trail_part : re.pattern :=
  re.Rep Py.is_space false false :: conf_end_part.

Definition conf_equals_part : re.pattern :=
  re.Lit "=" :: re.Rep Py.not_space true true :: conf_trail_part.

Definition conf_key_part : re.pattern :=
  re.Rep Py.not_space true true :: conf_equals_part.

(** The value the settings give for a key: that of the last one. *)
Definition setting_of (key : string) (lines : list conf_line) : option string :=
  snd <$> last (under_key key (settings lines)).

(** The path [_get_waagent_conf_path] gives leads to a file with these
    lines: [cat] of it prints them. *)
Definition configuration_file (node : Node) (cat : string) (force_run : bool)
    (w : Waagent.fields) (h : history) (lines : list conf_line) : Prop :=
  ∃ path w1 h1,
    Waagent._get_waagent_conf_path node (World w h) = (Return path, World w1 h1)
    ∧ stdout (on_run node h1 cat path force_run false) = conf_file lines.

(** A node whose [/etc/waagent.conf] holds [lines]. *)
Definition Sample_configured (lines : list conf_line) : Node :=
  Sample.node Sample.linux
    (fun command parameters =>
       if decide (command = "cat" ∧ parameters = "/etc/waagent.conf")
       then Sample.ok (conf_file lines)
       else Sample.not_found)
    (fun _ => Sample.not_found)
    (fun command => (bool_decide (command = "python3"), false))
    (fun _ => Raise (LisaException "no such file"))
    "x86_64".

Definition sample_conf : list conf_line :=
  [Other "# Microsoft Azure Linux Agent Configuration";
   Other EmptyString;
   Setting EmptyString "ResourceDisk.MountPoint" "/mnt" EmptyString;
   Setting EmptyString "ResourceDisk.EnableSwap" "n" " ";
   Other "# AutoUpdate.Enabled=n";
   Other "Logs.Verbose=n # as shipped";
   Setting "  " "OS.RootDeviceScsiTimeout" "300" EmptyString;
   Setting EmptyString "ResourceDisk.EnableSwap" "y" EmptyString;
   Setting EmptyString "OS.EnableRDMA" "maybe" EmptyString].

(** * Counting the pools *)

(** ** class KvpClient, [get_pool_count] *)

Module KvpClientPools.

(* _pool_pattern, compiled with re.M: ^, the text [Pool is ], a group
   of digits, an optional carriage return, $ *)
Definition _pool_pattern : re.pattern :=
  [re.Caret] ++ re.lits "Pool is " ++
  [re.Rep Py.is_digit true true; re.Opt CR; re.Dollar].

(** [self.run] with [expected_exit_code=0]: the run, then the
    assertion on its exit code. *)
Definition get_pool_count (node : Node) : M unit nat :=
  result ← request (fun h => on_run node h (KvpClient.command node) EmptyString false false)
                   (Run (KvpClient.command node) EmptyString false false);
  assert_that (exit_code result =? 0)%Z "failed to run kvp_client";;
  matched_lines ← mret (util.find_patterns_in_lines (stdout result) [_pool_pattern]);
  pools ← index matched_lines 0;
  mret (length pools).

End KvpClientPools.

(** What the client prints without a pool to look at: every pool in
    turn, each as [client_output] has it. *)
Record pool_block : Type := {
  block_pool : string;
  block_count : string;
  block_records : list (string * string)
}.

Fixpoint all_pools_output (blocks : list pool_block) : string :=
  match blocks with
  | b :: rest =>
      client_output (block_pool b) (block_count b) (block_records b)
      +:+ all_pools_output rest
  | [] => EmptyString
  end.

(** The lines of a block, and the lines of all blocks. *)
Definition block_lines (b : pool_block) : list string :=
  client_lines (block_pool b) (block_count b) (block_records b).

(** A block as the client prints it: the pool is a number, the count
    is made of digits, and no key and no value holds a line feed. *)
Definition printable_block (b : pool_block) : bool :=
  Py.truthy (block_pool b)
  && all_chars Py.is_digit (block_pool b)
  && all_chars Py.is_digit (block_count b)
  && forallb (fun record => all_chars Py.not_newline record.1
                            && all_chars Py.not_newline record.2)
       (block_records b).

(** What [findall] of the pool pattern gives for the lines of a
    block: the pool for the first line, nothing for the others. *)
Definition block_pools (b : pool_block) : list (list (list string)) :=
  [[block_pool b]] :: [] :: map (fun _ => []) (block_records b).

(** Five pools, the last one ending with a record without value. *)
Definition sample_blocks : list pool_block :=
  [{| block_pool := "0"; block_count := "0"; block_records := [] |};
   {| block_pool := "1"; block_count := "0"; block_records := [] |};
   {| block_pool := "2"; block_count := "0"; block_records := [] |};
   {| block_pool := "3"; block_count := "2"; block_records := sample_records |};
   {| block_pool := "4"; block_count := "1";
      block_records := [("Pool is 7", EmptyString)] |}].
(** * Properties *)

(** ** Python helpers on samples *)

Example split_sample :
  Py.split NUL (String "a" (String NUL (String NUL (String "b" EmptyString))))
  = ["a"; ""; "b"].
Proof. reflexivity. Qed.

Example strip_sample :
  Py.lower (Py.strip " " (Py.strip DQUOTE (String DQUOTE " Red Hat-7.2 "))) = "red hat-7.2".
Proof. reflexivity. Qed.

(** ** Running the monad *)

Lemma run_bind {S A B} (c : M S A) (k : A -> M S B) (w : world S) :
  (c ≫= k) w = match c w with
               | (Return a, w') => k a w'
               | (Raise e, w') => (Raise e, w')
               end.
Proof. reflexivity. Qed.

Lemma run_ret {S A} (a : A) (w : world S) : (mret a : M S A) w = (Return a, w).
Proof. reflexivity. Qed.

Lemma run_request {S A} (ask : history -> A) (ev : A -> event) (w : world S) :
  request ask ev w = (Return (ask (log w)), World (self w) (log w ++ [ev (ask (log w))])).
Proof. reflexivity. Qed.

Lemma run_request_raising {S A} (ask : history -> outcome A)
    (ev : outcome A -> event) (w : world S) :
  request_raising ask ev w = (ask (log w), World (self w) (log w ++ [ev (ask (log w))])).
Proof. reflexivity. Qed.

Ltac run_monad :=
  repeat first
    [ rewrite run_bind
    | rewrite run_ret
    | rewrite run_request
    | rewrite run_request_raising
    | progress cbn [self log fst snd] ].

Lemma events_since_app (before new : history) :
  events_since before (before ++ new) = new.
Proof. unfold events_since. apply drop_app_length. Qed.

(** ** LisDriver: the version gate *)

Lemma version_lt_true (v c : VersionInfo) :
  version_lt v c = true ↔ strictly_below v c.
Proof.
  unfold version_lt, version_compare, strictly_below.
  destruct (N.compare_spec (major v) (major c)) as [Hm|Hm|Hm];
    destruct (N.compare_spec (minor v) (minor c)) as [Hn|Hn|Hn];
    destruct (N.compare_spec (patch v) (patch c)) as [Hp|Hp|Hp];
    split; intros H; try discriminate; try reflexivity; try lia.
Qed.

Lemma version_lt_false (v c : VersionInfo) :
  version_lt v c = false ↔ at_or_above v c.
Proof.
  unfold version_lt, version_compare, at_or_above.
  destruct (N.compare_spec (major v) (major c)) as [Hm|Hm|Hm];
    destruct (N.compare_spec (minor v) (minor c)) as [Hn|Hn|Hn];
    destruct (N.compare_spec (patch v) (patch c)) as [Hp|Hp|Hp];
    split; intros H; try discriminate; try reflexivity; try lia.
Qed.

(** C4. The version gate of [LisDriver.can_install]: on a node whose
    version is at or above 7.8.0 the query raises
    [UnsupportedDistroException] and makes no request of the node, so
    no install command runs; on any node it makes no request; and it
    returns (then [True]) exactly when the system is Redhat with a
    version strictly below 7.8.0. *)
Theorem can_install_version_gate (node : Node) (h : history) :
  (at_or_above (version (os node)) LisDriver.ceiling →
     LisDriver.can_install node (World tt h)
     = (Raise LisDriver.cannot_install, World tt h))
  ∧ snd (LisDriver.can_install node (World tt h)) = World tt h
  ∧ (∀ b, fst (LisDriver.can_install node (World tt h)) = Return b ↔
          b = true ∧ is_Redhat (os node) = true
          ∧ strictly_below (version (os node)) LisDriver.ceiling).
Proof.
  unfold LisDriver.can_install.
  split; [|split].
  - intros Hge. apply version_lt_false in Hge. rewrite Hge, andb_false_r. reflexivity.
  - destruct (is_Redhat (os node) && _); reflexivity.
  - intros b. rewrite <- version_lt_true.
    destruct (is_Redhat (os node)), (version_lt _ _); cbn; split.
    all: try (intros [= <-]; auto).
    all: try (intros (-> & _ & _); reflexivity).
    all: try discriminate.
    all: intros (_ & H1 & H2); discriminate.
Qed.

Lemma can_install_version_gate_witness :
  LisDriver.can_install
    (Sample.bare (Sample.system false false true (Sample.v 7 9 0))) (World tt [])
  = (Raise LisDriver.cannot_install, World tt [])
  ∧ fst (LisDriver.can_install
           (Sample.bare (Sample.system false false true (Sample.v 7 7 0))) (World tt []))
    = Return true.
Proof.
  split.
  - apply (can_install_version_gate
             (Sample.bare (Sample.system false false true (Sample.v 7 9 0))) []).
    right. left. split; [reflexivity|]. cbn. lia.
  - apply (can_install_version_gate
             (Sample.bare (Sample.system false false true (Sample.v 7 7 0))) []).
    split; [reflexivity|]. split; [reflexivity|].
    right. left. split; [reflexivity|]. cbn. lia.
Defined.

(** ** Waagent.get_version *)

Section get_version.

Variable node : Node.

(** The three runs of [get_version], one case per exit code. *)
Lemma get_version_run (w : Waagent.fields) (h : history) :
  let r1 := version_probe node h (Waagent._command w) in
  let h1 := h ++ [version_event (Waagent._command w) r1] in
  let r2 := version_probe node h1 "/usr/sbin/waagent" in
  let h2 := h1 ++ [version_event "/usr/sbin/waagent" r2] in
  let r3 := version_probe node h2 "python3 /usr/sbin/waagent" in
  let h3 := h2 ++ [version_event "python3 /usr/sbin/waagent" r3] in
  Waagent.get_version node (World w h) =
    if Waagent.failed r1 then
      if Waagent.failed r2 then
        (Return (util.get_matched_str (stdout r3) Waagent.__version_pattern),
         World (Waagent.set_command "python3 /usr/sbin/waagent" w) h3)
      else
        (Return (util.get_matched_str (stdout r2) Waagent.__version_pattern),
         World (Waagent.set_command "/usr/sbin/waagent" w) h2)
    else
      (Return (util.get_matched_str (stdout r1) Waagent.__version_pattern),
       World w h1).
Proof.
  cbv zeta. unfold version_probe, version_event.
  unfold Waagent.get_version, Waagent.run, get, modify.
  run_monad.
  destruct (Waagent.failed (on_run node h _ _ _ _)) eqn:F1; run_monad.
  - destruct (Waagent.failed (on_run node (h ++ _) _ _ _ _)) eqn:F2; run_monad.
    + reflexivity.
    + reflexivity.
  - rewrite F1. run_monad. reflexivity.
Qed.

End get_version.

(** C7, as amended.  When the three command forms all return a
    non-zero exit code, [get_version] raises nothing: it returns what
    the version pattern finds in the output of the last form (the
    empty text when it finds nothing), and leaves the last form as the
    command of the object; the exit code and the error output of the
    last run are not part of what it returns. *)
Theorem get_version_all_candidates_fail (node : Node) (w : Waagent.fields) (h : history) :
  let r1 := version_probe node h (Waagent._command w) in
  let h1 := h ++ [version_event (Waagent._command w) r1] in
  let r2 := version_probe node h1 "/usr/sbin/waagent" in
  let h2 := h1 ++ [version_event "/usr/sbin/waagent" r2] in
  let r3 := version_probe node h2 "python3 /usr/sbin/waagent" in
  let h3 := h2 ++ [version_event "python3 /usr/sbin/waagent" r3] in
  exit_code r1 ≠ 0%Z → exit_code r2 ≠ 0%Z → exit_code r3 ≠ 0%Z →
  Waagent.get_version node (World w h)
  = (Return (util.get_matched_str (stdout r3) Waagent.__version_pattern),
     World (Waagent.set_command "python3 /usr/sbin/waagent" w) h3).
Proof.
  intros r1 h1 r2 h2 r3 h3 F1 F2 _.
  pose proof (get_version_run node w h) as Hrun. cbv zeta in Hrun.
  fold r1 h1 in Hrun. fold r2 h2 in Hrun. fold r3 h3 in Hrun.
  rewrite Hrun. unfold Waagent.failed.
  apply Z.eqb_neq in F1, F2. rewrite F1, F2. reflexivity.
Qed.

Lemma get_version_all_candidates_fail_witness :
  Waagent.get_version (Sample.bare Sample.linux)
    (World (Waagent._initialize (Sample.bare Sample.linux)) [])
  = (Return EmptyString,
     World (Waagent.set_command "python3 /usr/sbin/waagent"
              (Waagent._initialize (Sample.bare Sample.linux)))
           [version_event "waagent" Sample.not_found;
            version_event "/usr/sbin/waagent" Sample.not_found;
            version_event "python3 /usr/sbin/waagent" Sample.not_found]).
Proof.
  apply (get_version_all_candidates_fail (Sample.bare Sample.linux)
           (Waagent._initialize (Sample.bare Sample.linux)) []);
    cbn; lia.
Defined.

(** C7, the claim as it stands fails: on a node where the three forms
    all exit with 127, [get_version] returns the empty text, not a
    failure. *)
Lemma get_version_all_fail_is_no_failure :
  fst (Waagent.get_version (Sample.bare Sample.linux)
         (World (Waagent._initialize (Sample.bare Sample.linux)) []))
  = Return EmptyString
  ∧ events_since []
      (log (snd (Waagent.get_version (Sample.bare Sample.linux)
                   (World (Waagent._initialize (Sample.bare Sample.linux)) []))))
    = [version_event "waagent" Sample.not_found;
       version_event "/usr/sbin/waagent" Sample.not_found;
       version_event "python3 /usr/sbin/waagent" Sample.not_found]
  ∧ exit_code Sample.not_found = 127%Z.
Proof. vm_compute. auto. Qed.

(** ** Waagent.get_python_cmd *)

Section get_python_cmd.

Variable node : Node.

(** The loop asks for the candidates from the left, stops at the first
    that exists, and leaves the loop variables at the last one asked. *)
Lemma probe_python_spec (candidates : list string) :
  ∀ (bound : option (string * bool)) (w : Waagent.fields) (h : history),
  ∃ answers : list (bool * bool),
    length answers ≤ length candidates
    ∧ (candidates ≠ [] → answers ≠ [])
    ∧ (∀ i a, answers !! i = Some a → a.1 = true → S i = length answers)
    ∧ (∀ a, last answers = Some a → a.1 = false → length answers = length candidates)
    ∧ Waagent.probe_python node candidates bound (World w h)
      = (Return match last (zip candidates answers) with
                | Some (c, a) => Some (c, a.2)
                | None => bound
                end,
         World w (h ++ zip_with CommandExists candidates answers)).
Proof.
  induction candidates as [|c rest IH]; intros bound w h.
  - exists []. cbn. rewrite app_nil_r.
    repeat split; auto; try discriminate; try lia; congruence.
  - cbn [Waagent.probe_python]. unfold Waagent.command_exists. run_monad.
    destruct (on_command_exists node h c) as [python_exists use_sudo] eqn:Ha.
    destruct python_exists.
    + exists [(true, use_sudo)]. cbn. run_monad.
      repeat split; auto; try lia; try discriminate.
      * intros [|i] a Hi _; [reflexivity | discriminate].
      * intros a [= <-]. discriminate.
      * rewrite !zip_with_nil_r. reflexivity.
    + destruct (IH (Some (c, use_sudo)) w (h ++ [CommandExists c (false, use_sudo)]))
        as (answers & Hlen & Hne & Hfirst & Hlast & Hrun).
      exists ((false, use_sudo) :: answers).
      split; [cbn; lia|]. split; [discriminate|]. split; [|split].
      * intros [|i] a Hi Ha1; cbn in Hi.
        -- injection Hi as <-. discriminate.
        -- cbn. f_equal. eauto.
      * intros a Hl Ha1. cbn. f_equal.
        rewrite last_cons in Hl. destruct (last answers) as [a'|] eqn:Hl'.
        -- injection Hl as ->. eauto.
        -- destruct answers; [|rewrite last_cons in Hl'; destruct (last answers); discriminate].
           destruct rest; [reflexivity|]. exfalso. apply Hne; [discriminate | reflexivity].
      * rewrite Hrun. cbn [zip_with]. rewrite <- app_assoc. cbn [app].
        rewrite last_cons.
        destruct (last (zip rest answers)) as [[c' a']|]; reflexivity.
Qed.

(** With nothing cached, [get_python_cmd] returns the last candidate
    asked and keeps it, with its [use_sudo], in the fields. *)
Lemma get_python_cmd_probe (w : Waagent.fields) (h : history) :
  cached PythonCmd w = None → python_probe_short_circuits node w h.
Proof.
  intros Hnone. unfold python_probe_short_circuits.
  destruct (probe_python_spec Waagent._python_candidates None w h)
    as (answers & Hlen & Hne & Hfirst & Hlast & Hrun).
  assert (Hne' : answers ≠ []) by (apply Hne; discriminate).
  destruct (last answers) as [answer|] eqn:Hl;
    [|destruct answers as [|a l]; [congruence|];
      rewrite last_cons in Hl; destruct (last l); discriminate].
  assert (Hlookup : answers !! (length answers - 1) = Some answer).
  { apply last_Some in Hl as [l' ->]. rewrite length_app. cbn.
    replace (length l' + 1 - 1) with (length l') by lia.
    apply list_lookup_middle. reflexivity. }
  destruct (Waagent._python_candidates !! (length answers - 1)) as [python_cmd|] eqn:Hc;
    [|apply lookup_ge_None in Hc; destruct answers; [congruence | cbn in *; lia]].
  assert (Hzip : last (zip Waagent._python_candidates answers) = Some (python_cmd, answer)).
  { assert (Hz : zip Waagent._python_candidates answers !! (length answers - 1)
                 = Some (python_cmd, answer)).
    { apply lookup_zip_with_Some. eauto. }
    rewrite last_lookup.
    replace (pred (length (zip Waagent._python_candidates answers)))
      with (length answers - 1); [exact Hz|].
    rewrite length_zip_with. lia. }
  exists answers, python_cmd, answer.
  split; [destruct answers; [congruence | cbn in *; lia]|].
  split; [exact Hfirst|]. split; [eauto|]. split; [exact Hl|]. split; [exact Hc|].
  unfold Waagent.get_python_cmd, get, modify. run_monad.
  assert (Hmatch : match Waagent._python_cmd w, Waagent._python_use_sudo w with
                   | Some c, Some s => Some (Interpreter c s)
                   | _, _ => None
                   end = None) by exact Hnone.
  destruct (Waagent._python_cmd w), (Waagent._python_use_sudo w);
    try discriminate; run_monad; rewrite Hrun, Hzip; run_monad; reflexivity.
Qed.

End get_python_cmd.

(** ** Probe chains *)

Lemma failed_false (r : ExecutableResult) :
  Waagent.failed r = false ↔ exit_code r = 0%Z.
Proof.
  unfold Waagent.failed. rewrite negb_false_iff. apply Z.eqb_eq.
Qed.

Lemma failed_true (r : ExecutableResult) :
  Waagent.failed r = true ↔ exit_code r ≠ 0%Z.
Proof.
  unfold Waagent.failed. rewrite negb_true_iff. apply Z.eqb_neq.
Qed.

Lemma get_version_short_circuits (node : Node) (w : Waagent.fields) (h : history) :
  version_chain_short_circuits node w h.
Proof.
  unfold version_chain_short_circuits.
  pose proof (get_version_run node w h) as Hrun. cbv zeta in Hrun. rewrite Hrun.
  set (r1 := version_probe node h (Waagent._command w)).
  set (h1 := h ++ [version_event (Waagent._command w) r1]).
  set (r2 := version_probe node h1 "/usr/sbin/waagent").
  set (h2 := h1 ++ [version_event "/usr/sbin/waagent" r2]).
  set (r3 := version_probe node h2 "python3 /usr/sbin/waagent").
  destruct (Waagent.failed r1) eqn:F1; [destruct (Waagent.failed r2) eqn:F2|].
  - exists [r1; r2; r3]. cbn. subst h2 h1. rewrite <- !app_assoc. cbn.
    apply failed_true in F1, F2.
    repeat split; auto.
    intros [|[|[|i]]] r [= <-] E; congruence.
  - exists [r1; r2]. cbn. subst h2 h1. rewrite <- !app_assoc. cbn.
    apply failed_true in F1. apply failed_false in F2.
    repeat split; auto; try lia.
    + intros [|[|i]] r [= <-] E; congruence.
    + intros r [= <-]. congruence.
  - exists [r1]. cbn. apply failed_false in F1.
    repeat split; auto; try lia.
    + intros [|i] r [= <-] E; congruence.
    + intros r [= <-]. congruence.
Qed.

(** C2, as amended.  Probe chains stop at the first success and keep
    the form that worked.  [get_version] starts from the command the
    object holds (after [_initialize]: [waagent], or the OEM command on
    CoreOS), then tries [/usr/sbin/waagent], then
    [python3 /usr/sbin/waagent]; no form is run after one that exits
    with 0, and the object holds the last form run.  [get_python_cmd],
    with nothing cached, asks for the interpreter candidates in order,
    stops at the first that exists, returns it and keeps it. *)
Theorem probe_chains_short_circuit (node : Node) (w : Waagent.fields) (h : history) :
  Waagent._command (Waagent._initialize node)
  = (if is_CoreOs (os node) then oem_waagent else "waagent")
  ∧ version_chain_short_circuits node w h
  ∧ (cached PythonCmd w = None → python_probe_short_circuits node w h).
Proof.
  split; [reflexivity|]. split.
  - apply get_version_short_circuits.
  - apply get_python_cmd_probe.
Qed.

Lemma probe_chains_short_circuit_witness :
  version_chain_short_circuits Sample_fallback (Waagent._initialize Sample_fallback) []
  ∧ python_probe_short_circuits Sample_fallback (Waagent._initialize Sample_fallback) [].
Proof.
  destruct (probe_chains_short_circuit Sample_fallback
              (Waagent._initialize Sample_fallback) []) as (_ & Hv & Hp).
  split; [exact Hv | apply Hp; reflexivity].
Defined.

(** The scenario of the specification: the first form fails, the
    second succeeds, the third is never run and the second is kept. *)
Example fallback_get_version :
  Waagent.get_version Sample_fallback (World (Waagent._initialize Sample_fallback) [])
  = (Return "2.2.45",
     World (Waagent.set_command "/usr/sbin/waagent" (Waagent._initialize Sample_fallback))
           [version_event "waagent" Sample.not_found;
            version_event "/usr/sbin/waagent"
              (Sample.ok "WALinuxAgent-2.2.45 running on ubuntu 18.04")]).
Proof. vm_compute. reflexivity. Qed.

Example fallback_get_python_cmd :
  Waagent.get_python_cmd Sample_fallback (World (Waagent._initialize Sample_fallback) [])
  = (Return ("python2", false),
     World (Waagent.set_python "python2" false (Waagent._initialize Sample_fallback))
           [CommandExists "python3" (false, false);
            CommandExists "python2" (true, false)]).
Proof. vm_compute. reflexivity. Qed.

(** C2, the claim as it stands fails: on CoreOS the chain starts from
    the OEM command, and [waagent] is not among the forms run. *)
Lemma get_version_chain_on_coreos :
  log (snd (Waagent.get_version (Sample.bare Sample.coreos)
              (World (Waagent._initialize (Sample.bare Sample.coreos)) [])))
  = [version_event oem_waagent Sample.not_found;
     version_event "/usr/sbin/waagent" Sample.not_found;
     version_event "python3 /usr/sbin/waagent" Sample.not_found].
Proof. vm_compute. reflexivity. Qed.

(** ** Derived facts are computed once *)

Section derived_facts.

Variable node : Node.

Lemma keeps_refl (w : Waagent.fields) : keeps w w.
Proof. intros f v H. exact H. Qed.

Lemma keeps_trans (w1 w2 w3 : Waagent.fields) :
  keeps w1 w2 → keeps w2 w3 → keeps w1 w3.
Proof. intros H12 H23 f v H. apply H23, H12, H. Qed.

Lemma keeps_set_python (c : string) (s : bool) (w : Waagent.fields) :
  cached PythonCmd w = None → keeps w (Waagent.set_python c s w).
Proof. intros Hnone [] v H; [congruence | exact H | exact H]. Qed.

Lemma keeps_set_waagent_conf_path (p : string) (w : Waagent.fields) :
  cached WaagentConfPath w = None → keeps w (Waagent.set_waagent_conf_path p w).
Proof. intros Hnone [] v H; [exact H | congruence | exact H]. Qed.

Lemma keeps_set_distro_version (d : string) (w : Waagent.fields) :
  cached DistroVersion w = None → keeps w (Waagent.set_distro_version d w).
Proof. intros Hnone [] v H; [exact H | exact H | congruence]. Qed.

Lemma get_python_cmd_cached (w : Waagent.fields) (h : history) (c : string) (s : bool) :
  cached PythonCmd w = Some (Interpreter c s) →
  Waagent.get_python_cmd node (World w h) = (Return (c, s), World w h).
Proof.
  unfold cached, Waagent.get_python_cmd, get. run_monad.
  destruct (Waagent._python_cmd w), (Waagent._python_use_sudo w); try discriminate.
  intros [= -> ->]. reflexivity.
Qed.

(** [get_python_cmd] always returns, holds its answer afterwards, and
    touches no other field. *)
Lemma get_python_cmd_returns (w : Waagent.fields) (h : history) :
  ∃ c s w' h',
    Waagent.get_python_cmd node (World w h) = (Return (c, s), World w' h')
    ∧ cached PythonCmd w' = Some (Interpreter c s)
    ∧ keeps w w'
    ∧ Waagent._waagent_conf_path w' = Waagent._waagent_conf_path w
    ∧ Waagent._distro_version w' = Waagent._distro_version w.
Proof.
  destruct (cached PythonCmd w) as [[c s|t]|] eqn:Hc.
  - exists c, s, w, h. rewrite (get_python_cmd_cached w h c s Hc).
    auto using keeps_refl.
  - unfold cached in Hc.
    destruct (Waagent._python_cmd w), (Waagent._python_use_sudo w); discriminate.
  - destruct (get_python_cmd_probe node w h Hc)
      as (answers & c & a & _ & _ & _ & _ & _ & Hrun).
    eexists c, a.2, (Waagent.set_python c a.2 w), _. rewrite Hrun.
    repeat split; auto using keeps_set_python.
Qed.

Lemma call_cached (f : derived_fact) (w : Waagent.fields) (h : history) (v : fact_value) :
  cached f w = Some v → call node f (World w h) = (Return v, World w h).
Proof.
  destruct f; cbn [call cached].
  - intros H. destruct v as [c s|t].
    + run_monad. rewrite (get_python_cmd_cached w h c s H). reflexivity.
    + destruct (Waagent._python_cmd w), (Waagent._python_use_sudo w); discriminate.
  - unfold Waagent._get_waagent_conf_path, get. run_monad.
    destruct (Waagent._waagent_conf_path w); [|discriminate].
    intros [= <-]. reflexivity.
  - unfold Waagent.get_distro_version, get. run_monad.
    destruct (Waagent._distro_version w); [|discriminate].
    intros [= <-]. reflexivity.
Qed.

(** Every call returns, and the fields then hold what it returned
    together with every fact they held before. *)
Lemma call_returns (f : derived_fact) (w : Waagent.fields) (h : history) :
  ∃ v w' h',
    call node f (World w h) = (Return v, World w' h')
    ∧ cached f w' = Some v
    ∧ keeps w w'.
Proof.
  destruct (cached f w) as [v|] eqn:Hc.
  { exists v, w, h. rewrite (call_cached f w h v Hc). auto using keeps_refl. }
  destruct f; cbn [call].
  - destruct (get_python_cmd_returns w h) as (c & s & w' & h' & Hrun & Hc' & Hk & _).
    exists (Interpreter c s), w', h'. run_monad. rewrite Hrun. auto.
  - cbn in Hc. destruct (Waagent._waagent_conf_path w) eqn:Hp; [discriminate|].
    unfold Waagent._get_waagent_conf_path, get, modify, Waagent.execute.
    run_monad. rewrite Hp.
    destruct (get_python_cmd_returns w h) as (c & s & w' & h' & Hrun & _ & Hk & Hp' & _).
    run_monad. rewrite Hrun. run_monad.
    eexists _, _, _. split; [reflexivity|]. split; [reflexivity|].
    eapply keeps_trans; [exact Hk|].
    apply keeps_set_waagent_conf_path. cbn. rewrite Hp', Hp. reflexivity.
  - cbn in Hc. destruct (Waagent._distro_version w) eqn:Hd; [discriminate|].
    unfold Waagent.get_distro_version, get, modify, Waagent.execute.
    run_monad. rewrite Hd.
    destruct (get_python_cmd_returns w h) as (c & s & w' & h' & Hrun & _ & Hk & _ & Hd').
    run_monad. rewrite Hrun. run_monad.
    assert (Hnone : cached DistroVersion w' = None) by (cbn; rewrite Hd', Hd; reflexivity).
    destruct (exit_code (on_execute node h' _ s) =? 0)%Z; run_monad;
      [|destruct (exit_code (on_execute node (h' ++ _) _ s) =? 0)%Z; run_monad];
      (eexists _, _, _; split; [reflexivity|]; split; [reflexivity|];
       eapply keeps_trans; [exact Hk|]; apply keeps_set_distro_version, Hnone).
Qed.

Lemma calls_return (fs : list derived_fact) :
  ∀ (w : Waagent.fields) (h : history),
  ∃ vs w' h',
    calls node fs (World w h) = (Return vs, World w' h') ∧ keeps w w'.
Proof.
  induction fs as [|f fs IH]; intros w h.
  - exists [], w, h. split; [reflexivity | apply keeps_refl].
  - destruct (call_returns f w h) as (v & w1 & h1 & Hcall & _ & Hk1).
    destruct (IH w1 h1) as (vs & w2 & h2 & Hcalls & Hk2).
    exists (v :: vs), w2, h2. cbn [calls]. run_monad.
    rewrite Hcall. run_monad. rewrite Hcalls. run_monad.
    split; [reflexivity | eapply keeps_trans; eauto].
Qed.

End derived_facts.

(** C3.  Each derived fact is computed at most once and then reused.
    Whatever the object and the history, a call of [get_python_cmd],
    [_get_waagent_conf_path] or [get_distro_version] returns a value
    [v]; after any further sequence of calls of the three methods,
    calling the same method again returns the same [v] and leaves the
    world as it was: fields unchanged and, the log being unchanged, no
    request made of the node. *)
Theorem derived_facts_computed_once (node : Node) (f : derived_fact)
    (fs : list derived_fact) (w : Waagent.fields) (h : history) :
  ∃ v w1 vs w2,
    call node f (World w h) = (Return v, w1)
    ∧ calls node fs w1 = (Return vs, w2)
    ∧ call node f w2 = (Return v, w2).
Proof.
  destruct (call_returns node f w h) as (v & w1 & h1 & Hcall & Hc & _).
  destruct (calls_return node fs w1 h1) as (vs & w2 & h2 & Hcalls & Hk).
  exists v, (World w1 h1), vs, (World w2 h2).
  split; [exact Hcall|]. split; [exact Hcalls|].
  apply call_cached, Hk, Hc.
Qed.

(** ** Waagent.get_distro_version *)

(** C6, as amended.  [get_distro_version] never raises.  With nothing
    cached it finds the interpreter, then tries the modern query
    ([azurelinuxagent]'s [get_distro]); when that exits with a non-zero
    code it tries the legacy one ([platform.linux_distribution]); when
    both do it returns the text [Unknown], with a capital U. *)
Theorem get_distro_version_degrades (node : Node) (w : Waagent.fields) (h : history) :
  (∃ v w', Waagent.get_distro_version node (World w h) = (Return v, w'))
  ∧ (cached DistroVersion w = None →
     ∃ python_cmd use_sudo w1 h1,
       Waagent.get_python_cmd node (World w h)
       = (Return (python_cmd, use_sudo), World w1 h1)
       ∧ distro_version_degrades node w h python_cmd use_sudo w1 h1).
Proof.
  split.
  - destruct (call_returns node DistroVersion w h) as (v & w' & h' & Hcall & _).
    cbn [call] in Hcall. rewrite run_bind in Hcall.
    destruct (Waagent.get_distro_version node (World w h)) as [[d|e] w''].
    + eauto.
    + discriminate.
  - intros Hnone. cbn in Hnone.
    destruct (Waagent._distro_version w) eqn:Hd; [discriminate|].
    destruct (get_python_cmd_returns node w h) as (c & s & w1 & h1 & Hrun & _).
    exists c, s, w1, h1. split; [exact Hrun|].
    unfold distro_version_degrades, Waagent.get_distro_version, get, modify,
      Waagent.execute, normalised.
    run_monad. rewrite Hd. run_monad. rewrite Hrun. run_monad.
    repeat split.
    + intros E. apply Z.eqb_eq in E. rewrite E. run_monad. reflexivity.
    + intros E1 E2. apply Z.eqb_neq in E1. apply Z.eqb_eq in E2.
      rewrite E1. run_monad. rewrite E2. run_monad. reflexivity.
    + intros E1 E2. apply Z.eqb_neq in E1, E2.
      rewrite E1. run_monad. rewrite E2. run_monad. reflexivity.
Qed.

Lemma get_distro_version_degrades_witness :
  ∃ python_cmd use_sudo w1 h1,
    Waagent.get_python_cmd Sample_legacy (World (Waagent._initialize Sample_legacy) [])
    = (Return (python_cmd, use_sudo), World w1 h1)
    ∧ distro_version_degrades Sample_legacy (Waagent._initialize Sample_legacy) []
        python_cmd use_sudo w1 h1.
Proof.
  apply (get_distro_version_degrades Sample_legacy (Waagent._initialize Sample_legacy) []).
  reflexivity.
Defined.

Example legacy_get_distro_version :
  fst (Waagent.get_distro_version Sample_legacy
         (World (Waagent._initialize Sample_legacy) []))
  = Return "centos-6.5-final".
Proof. vm_compute. reflexivity. Qed.

(** C6, the claim as it stands fails: when both queries exit with a
    non-zero code the text returned is [Unknown], which is not the
    text [unknown]. *)
Lemma get_distro_version_sentinel :
  fst (Waagent.get_distro_version (Sample.bare Sample.linux)
         (World (Waagent._initialize (Sample.bare Sample.linux)) []))
  = Return "Unknown"
  ∧ "Unknown" ≠ "unknown".
Proof. split; [vm_compute; reflexivity | discriminate]. Qed.

(** ** KvpClientFreeBSD.get_pool_records *)

Section freebsd_pool.

(** The loop over [range(i, n, 2)] on a list of [n] fields. *)
Lemma store_pairs_odd (l : list string) (w : world unit) :
  ∀ fuel i records,
    i ≤ length l → length l - i ≤ fuel → Nat.Odd (length l - i) →
    KvpClientFreeBSD.store_pairs l (range_go fuel i (length l) 2) records w
    = (Raise IndexError, w).
Proof.
  induction fuel as [|fuel IH]; intros i records Hi Hfuel Hodd.
  - destruct Hodd as [k Hk]. lia.
  - cbn [range_go].
    assert (Hlt : i < length l) by (destruct Hodd as [k Hk]; lia).
    apply Nat.ltb_lt in Hlt as Hltb. rewrite Hltb.
    cbn [KvpClientFreeBSD.store_pairs]. unfold index. rewrite run_bind.
    destruct (l !! (i + 1)) as [value|] eqn:Hv; [|reflexivity].
    rewrite run_ret, run_bind.
    destruct (l !! i) as [key|] eqn:Hk; [|reflexivity].
    rewrite run_ret.
    apply lookup_lt_Some in Hv.
    apply IH; [lia | lia |].
    destruct Hodd as [k Hodd]. exists (k - 1). lia.
Qed.

Lemma pair_up_drop (l : list string) (i : nat) (key value : string) :
  l !! i = Some key → l !! (i + 1) = Some value →
  pair_up (drop i l) = (key, value) :: pair_up (drop (i + 2) l).
Proof.
  intros Hk Hv.
  rewrite (drop_S l key i Hk).
  replace (S i) with (i + 1) by lia.
  rewrite (drop_S l value (i + 1) Hv).
  replace (S (i + 1)) with (i + 2) by lia.
  reflexivity.
Qed.

Lemma store_pairs_even (l : list string) (w : world unit) :
  ∀ fuel i records,
    i ≤ length l → length l - i ≤ fuel → Nat.Even (length l - i) →
    KvpClientFreeBSD.store_pairs l (range_go fuel i (length l) 2) records w
    = (Return (dict_of (pair_up (drop i l)) records), w).
Proof.
  induction fuel as [|fuel IH]; intros i records Hi Hfuel Heven.
  - assert (i = length l) as -> by lia. rewrite drop_all. reflexivity.
  - cbn [range_go].
    destruct (Nat.ltb_spec i (length l)) as [Hlt|Hge].
    + assert (Hlt' : i + 1 < length l) by (destruct Heven as [k Hk]; lia).
      cbn [KvpClientFreeBSD.store_pairs]. unfold index. rewrite run_bind.
      destruct (lookup_lt_is_Some_2 l (i + 1) Hlt') as [value Hv].
      destruct (lookup_lt_is_Some_2 l i Hlt) as [key Hk].
      rewrite Hv, run_ret, run_bind, Hk, run_ret.
      rewrite (pair_up_drop l i key value Hk Hv).
      rewrite IH; [reflexivity | lia | lia |].
      destruct Heven as [k Heven]. exists (k - 1). lia.
    + assert (i = length l) as -> by lia. rewrite drop_all. reflexivity.
Qed.

Variable node : Node.

(** What [get_pool_records] makes of a file it could read. *)
Lemma freebsd_get_pool_records_read (pool_id : Z) (force_run : bool)
    (h : history) (content : string) :
  on_cat_read node h (KvpClientFreeBSD.pool_file pool_id) true = Return content →
  KvpClientFreeBSD.get_pool_records node pool_id force_run (World tt h)
  = (if Nat.even (length (fields_of content))
     then Return (dict_of (pair_up (fields_of content)) ∅)
     else Raise IndexError,
     World tt (h ++ [CatRead (KvpClientFreeBSD.pool_file pool_id) true (Return content)])).
Proof.
  intros Hread. unfold KvpClientFreeBSD.get_pool_records. run_monad.
  rewrite Hread. run_monad. fold (fields_of content). unfold range.
  destruct (Nat.even (length (fields_of content))) eqn:Hparity.
  - rewrite store_pairs_even; [reflexivity | lia | lia |].
    rewrite Nat.sub_0_r. apply Nat.even_spec, Hparity.
  - rewrite store_pairs_odd; [reflexivity | lia | lia |].
    rewrite Nat.sub_0_r. apply Nat.odd_spec. unfold Nat.odd. rewrite Hparity. reflexivity.
Qed.

End freebsd_pool.

(** C9.  [KvpClientFreeBSD.get_pool_records] is not total: on every
    pool file whose content has an odd number of non-empty fields
    between NULs, once the file is read the pairing loop reads one past
    the last field and the call raises [IndexError]; no dictionary is
    returned. *)
Theorem freebsd_get_pool_records_odd (node : Node) (pool_id : Z) (force_run : bool)
    (h : history) (content : string) :
  on_cat_read node h (KvpClientFreeBSD.pool_file pool_id) true = Return content →
  Nat.Odd (length (fields_of content)) →
  KvpClientFreeBSD.get_pool_records node pool_id force_run (World tt h)
  = (Raise IndexError,
     World tt (h ++ [CatRead (KvpClientFreeBSD.pool_file pool_id) true (Return content)])).
Proof.
  intros Hread Hodd.
  rewrite (freebsd_get_pool_records_read node pool_id force_run h content Hread).
  apply Nat.odd_spec in Hodd. unfold Nat.odd in Hodd.
  apply negb_true_iff in Hodd. rewrite Hodd. reflexivity.
Qed.

Lemma freebsd_get_pool_records_odd_witness :
  KvpClientFreeBSD.get_pool_records
    (Sample_freebsd ("HostName" +:+ String NUL EmptyString)) 3 false (World tt [])
  = (Raise IndexError,
     World tt [CatRead "/var/db/hyperv/pool/.kvp_pool_3" true
                 (Return ("HostName" +:+ String NUL EmptyString))]).
Proof.
  apply (freebsd_get_pool_records_odd
           (Sample_freebsd ("HostName" +:+ String NUL EmptyString)) 3 false []
           ("HostName" +:+ String NUL EmptyString)).
  - reflexivity.
  - exists 0. reflexivity.
Defined.

(** C8.  On a node whose pool file 3 holds [HostName], NUL,
    [example-host], NUL, [KvpClientFreeBSD.get_pool_records(3)]
    returns the dictionary with the one entry [HostName] to
    [example-host], and [get_host_name], which reads pool 3 and looks
    [HostName] up, returns [example-host]. *)
Theorem freebsd_host_name_scenario (node : Node) (h : history) :
  on_cat_read node h "/var/db/hyperv/pool/.kvp_pool_3" true = Return host_name_pool →
  KvpClientFreeBSD.get_pool_records node 3 false (World tt h)
  = (Return {[ "HostName" := "example-host" ]},
     World tt (h ++ [CatRead "/var/db/hyperv/pool/.kvp_pool_3" true
                       (Return host_name_pool)]))
  ∧ KvpClientFreeBSD.get_host_name node (World tt h)
    = (Return "example-host",
       World tt (h ++ [CatRead "/var/db/hyperv/pool/.kvp_pool_3" true
                         (Return host_name_pool)])).
Proof.
  intros Hread.
  assert (Hrecords :
    KvpClientFreeBSD.get_pool_records node 3 false (World tt h)
    = (Return {[ "HostName" := "example-host" ]},
       World tt (h ++ [CatRead "/var/db/hyperv/pool/.kvp_pool_3" true
                         (Return host_name_pool)]))).
  { exact (freebsd_get_pool_records_read node 3 false h host_name_pool Hread). }
  split; [exact Hrecords|].
  unfold KvpClientFreeBSD.get_host_name, KvpClient.get_host_name.
  cbn [Tool.get_pool_records KvpClientFreeBSD.class].
  rewrite run_bind, Hrecords, run_ret. reflexivity.
Qed.

Lemma freebsd_host_name_scenario_witness :
  KvpClientFreeBSD.get_pool_records (Sample_freebsd host_name_pool) 3 false (World tt [])
  = (Return {[ "HostName" := "example-host" ]},
     World tt [CatRead "/var/db/hyperv/pool/.kvp_pool_3" true (Return host_name_pool)])
  ∧ KvpClientFreeBSD.get_host_name (Sample_freebsd host_name_pool) (World tt [])
    = (Return "example-host",
       World tt [CatRead "/var/db/hyperv/pool/.kvp_pool_3" true (Return host_name_pool)]).
Proof.
  apply (freebsd_host_name_scenario (Sample_freebsd host_name_pool) []).
  reflexivity.
Defined.

(** ** Matches and their groups *)

Lemma rep_groups (k : option ascii -> string -> option re.found)
    (cls : ascii -> bool) (plus group : bool) (g : nat) :
  (∀ prev s gs n, k prev s = Some (gs, n) → length gs = g) →
  ∀ s acc prev gs n,
    re.rep k cls plus group acc prev s = Some (gs, n) →
    length gs = if group then S g else g.
Proof.
  intros Hk.
  assert (Hstop : ∀ acc prev s gs n,
    (if plus && negb (Py.truthy acc) then None
     else re.consume (String.length acc) (re.capture group acc (k prev s)))
    = Some (gs, n) → length gs = if group then S g else g).
  { intros acc prev s gs n.
    destruct (plus && negb (Py.truthy acc)); [discriminate|].
    destruct (k prev s) as [[gs' m]|] eqn:Hks; [|discriminate].
    cbn. intros [= <- _]. apply Hk in Hks. destruct group; cbn; congruence. }
  induction s as [|c s IH]; intros acc prev gs n; cbn [re.rep].
  - apply Hstop.
  - destruct (cls c); [|apply Hstop].
    destruct (re.rep k cls plus group _ (Some c) s) as [[gs' m]|] eqn:Hrec.
    + intros [= <- <-]. eapply IH, Hrec.
    + apply Hstop.
Qed.

Lemma consume_Some (m : nat) (r : option re.found) (gs : list string) (n : nat) :
  re.consume m r = Some (gs, n) → ∃ n', r = Some (gs, n') ∧ n = m + n'.
Proof. destruct r as [[gs' n']|]; [|discriminate]. intros [= <- <-]. eauto. Qed.

Lemma match_here_groups (p : re.pattern) :
  ∀ prev s gs n, re.match_here p prev s = Some (gs, n) → length gs = groups p.
Proof.
  induction p as [|a p IH]; intros prev s gs n; cbn [re.match_here].
  - intros [= <- _]. reflexivity.
  - destruct a as [c| | |c|c|cls plus group].
    + destruct s as [|d s]; [discriminate|].
      destruct (Ascii.eqb d c); [|discriminate].
      intros H. apply consume_Some in H as (n' & H & _). cbn. eauto.
    + destruct (re.at_bol prev); [|discriminate]. cbn. eauto.
    + destruct (re.at_eol s); [|discriminate]. cbn. eauto.
    + destruct (re.prev_is c prev); [|discriminate]. cbn. eauto.
    + cbn [groups]. destruct s as [|d s]; [eauto|].
      destruct (Ascii.eqb d c); [|eauto].
      destruct (re.consume 1 _) as [r|] eqn:Hc; [|eauto].
      intros [= ->]. apply consume_Some in Hc as (n' & H & _). eauto.
    + intros H. apply (rep_groups _ cls plus group (groups p) IH) in H.
      destruct group; exact H.
Qed.

Lemma scan_groups (p : re.pattern) :
  ∀ s skip prev, Forall (fun gs => length gs = groups p) (re.scan p skip prev s).
Proof.
  induction s as [|c s IH]; intros skip prev; cbn [re.scan].
  - destruct skip; [|constructor].
    destruct (re.match_here p prev EmptyString) as [[gs n]|] eqn:Hm; [|constructor].
    constructor; [eapply match_here_groups, Hm | constructor].
  - destruct skip; [|apply IH].
    destruct (re.match_here p prev (String c s)) as [[gs n]|] eqn:Hm; [|apply IH].
    constructor; [eapply match_here_groups, Hm | apply IH].
Qed.

(** ** KvpClient.get_pool_records *)

Lemma dict_of_items_pairs (items : list (list string)) (w : world unit) :
  Forall (fun gs => length gs = 2) items →
  ∀ records,
    KvpClient.dict_of_items items records w
    = (Return (dict_of (map key_value items) records), w).
Proof.
  induction 1 as [|item items Hlen _ IH]; intros records; [reflexivity|].
  cbn [KvpClient.dict_of_items]. unfold index.
  destruct item as [|key [|value [|x item]]]; try discriminate.
  cbn. run_monad. rewrite IH. reflexivity.
Qed.

Section linux_pool.

Variable node : Node.

(** The four ways [get_pool_records] can end. *)
Lemma linux_get_pool_records_run (pool_id : Z) (force_run : bool) (h : history) :
  let result := on_run node h (KvpClient.command node) (Py.str pool_id) force_run false in
  KvpClient.get_pool_records node pool_id force_run (World tt h)
  = (if bool_decide (exit_code result ∈ [0; 4]%Z) then
       match reported_count (stdout result) with
       | None => Raise ValueError
       | Some count =>
           if bool_decide (Z.of_nat (size (parsed_records (stdout result))) = count)
           then Return (parsed_records (stdout result))
           else Raise (AssertionError "result count is not the same as stats")
       end
     else Raise (AssertionError "failed to get pool"),
     World tt (h ++ [Run (KvpClient.command node) (Py.str pool_id) force_run false result])).
Proof.
  cbv zeta. unfold KvpClient.get_pool_records, assert_that. run_monad.
  destruct (bool_decide (exit_code _ ∈ [0; 4]%Z)); run_monad; [|reflexivity].
  unfold util.find_patterns_in_lines, index. cbn [map lookup list_lookup]. run_monad.
  rewrite dict_of_items_pairs by apply (scan_groups KvpClient._key_value_pattern).
  run_monad. fold (parsed_records (stdout (on_run node h (KvpClient.command node)
                                             (Py.str pool_id) force_run false))).
  fold (reported_count (stdout (on_run node h (KvpClient.command node)
                                  (Py.str pool_id) force_run false))).
  destruct (reported_count _) as [count|]; [|reflexivity].
  destruct (bool_decide (Z.of_nat _ = count)); run_monad; reflexivity.
Qed.

End linux_pool.

(** C10.  [KvpClient.get_pool_records] returns a dictionary only when
    the client exits with 0 or 4 and the number of records parsed from
    its `Key: K; Value: V` lines, keys counted once, is the count of
    the `Num records is N` line; then it returns those records.  With
    any other exit code, or with a count that differs from the number
    of records, it raises an assertion failure. *)
Theorem linux_get_pool_records_checks (node : Node) (pool_id : Z) (force_run : bool)
    (h : history) :
  let result := on_run node h (KvpClient.command node) (Py.str pool_id) force_run false in
  let outcome := fst (KvpClient.get_pool_records node pool_id force_run (World tt h)) in
  (∀ records, outcome = Return records ↔
     exit_code result ∈ [0; 4]%Z
     ∧ records = parsed_records (stdout result)
     ∧ reported_count (stdout result) = Some (Z.of_nat (size records)))
  ∧ (exit_code result ∉ [0; 4]%Z →
     outcome = Raise (AssertionError "failed to get pool"))
  ∧ (∀ count, exit_code result ∈ [0; 4]%Z →
     reported_count (stdout result) = Some count →
     Z.of_nat (size (parsed_records (stdout result))) ≠ count →
     outcome = Raise (AssertionError "result count is not the same as stats")).
Proof.
  cbv zeta. rewrite linux_get_pool_records_run. cbn [fst].
  set (result := on_run node h (KvpClient.command node) (Py.str pool_id) force_run false).
  split; [|split].
  - intros records. case_bool_decide as Hexit.
    + destruct (reported_count (stdout result)) as [count|] eqn:Hcount.
      * case_bool_decide as Hsize; split.
        -- intros [= <-]. subst count. auto.
        -- intros (_ & -> & _). reflexivity.
        -- discriminate.
        -- intros (_ & -> & [= E]). congruence.
      * split; [discriminate | intros (_ & _ & E); discriminate].
    + split; [discriminate | intros (E & _); contradiction].
  - intros Hexit. rewrite bool_decide_eq_false_2 by exact Hexit. reflexivity.
  - intros count Hexit Hcount Hsize.
    rewrite bool_decide_eq_true_2 by exact Hexit. rewrite Hcount.
    rewrite bool_decide_eq_false_2 by exact Hsize. reflexivity.
Qed.

(** Two records under one key collapse in the dictionary, the count of
    two is not met, and the call raises. *)
Lemma linux_get_pool_records_checks_witness :
  fst (KvpClient.get_pool_records (Sample_client duplicate_output 0) 3 false (World tt []))
  = Raise (AssertionError "result count is not the same as stats").
Proof.
  destruct (linux_get_pool_records_checks (Sample_client duplicate_output 0) 3 false [])
    as (_ & _ & Hcount).
  apply (Hcount 2%Z).
  - vm_compute. set_solver.
  - vm_compute. reflexivity.
  - vm_compute. discriminate.
Defined.

(** ** KvpClient._install *)

Lemma binaries_lookup (architecture : string) :
  KvpClient._binaries !! architecture
  = if decide (architecture = "x86_64")
    then Some ("https://raw.githubusercontent.com/microsoft/" +:+
               "lis-test/master/WS2012R2/lisa/tools/KVP/kvp_client64")
    else if decide (architecture = "i686")
    then Some ("https://raw.githubusercontent.com/microsoft/" +:+
               "lis-test/master/WS2012R2/lisa/tools/KVP/kvp_client32")
    else None.
Proof.
  unfold KvpClient._binaries.
  destruct (decide (architecture = "x86_64")) as [->|H1].
  - apply lookup_insert_eq.
  - rewrite lookup_insert_ne by congruence.
    destruct (decide (architecture = "i686")) as [->|H2].
    + apply lookup_singleton_eq.
    + apply lookup_singleton_ne. congruence.
Qed.

Example install_on_x86_64 :
  KvpClient._install (Sample_arch "x86_64") (KvpClient.class (Sample_arch "x86_64"))
    (World tt [])
  = (Return true,
     World tt
       [UnameHardwarePlatform (Return "x86_64");
        WgetGet ("https://raw.githubusercontent.com/microsoft/" +:+
                 "lis-test/master/WS2012R2/lisa/tools/KVP/kvp_client64")
                "/home/lisa" "kvp_client" true (Return "/home/lisa/kvp_client");
        CheckExists "/home/lisa/kvp_client" true]).
Proof. vm_compute. reflexivity. Qed.

Example install_on_aarch64 :
  KvpClient._install (Sample_arch "aarch64") (KvpClient.class (Sample_arch "aarch64"))
    (World tt [])
  = (Return true,
     World tt
       [UnameHardwarePlatform (Return "aarch64");
        WgetGet ("https://raw.githubusercontent.com/microsoft/" +:+
                 "lis-test/master/WS2012R2/lisa/tools/KVP/kvp_client.c")
                "/home/lisa" EmptyString false (Return "/home/lisa/kvp_client.c");
        GccCompile "/home/lisa/kvp_client.c" "/home/lisa/kvp_client" "-std=c99" (Return tt);
        CheckExists "/home/lisa/kvp_client" true]).
Proof. vm_compute. reflexivity. Qed.

Section install.

Variable node : Node.

(** The download strategy, step by step. *)
Lemma install_by_download_run (h : history) (architecture url : string) :
  on_uname node h = Return architecture →
  KvpClient._binaries !! architecture = Some url →
  Py.truthy url = true →
  let h1 := h ++ [UnameHardwarePlatform (Return architecture)] in
  let r := on_wget_get node h1 url (working_path node) KvpClient._command_name true in
  let h2 := h1 ++ [WgetGet url (working_path node) KvpClient._command_name true r] in
  KvpClient._install node (KvpClient.class node) (World tt h)
  = match r with
    | Return _ =>
        (Return (on_check_exists node h2 (KvpClient.command node)),
         World tt (h2 ++ [CheckExists (KvpClient.command node)
                            (on_check_exists node h2 (KvpClient.command node))]))
    | Raise e => (Raise e, World tt h2)
    end.
Proof.
  intros Huname Hurl Htruthy. cbv zeta.
  unfold KvpClient._install, KvpClient._install_by_download.
  run_monad. rewrite Huname. run_monad. rewrite Hurl.
  cbn [default from_option id]. rewrite Htruthy.
  run_monad.
  destruct (on_wget_get node _ url _ _ true); run_monad; reflexivity.
Qed.

(** The build strategy, step by step. *)
Lemma install_by_build_run (h : history) (architecture : string) :
  on_uname node h = Return architecture →
  KvpClient._binaries !! architecture = None →
  let command := KvpClient.command node in
  let packages := "kernel-headers glibc-devel binutils" in
  let h1 := h ++ [UnameHardwarePlatform (Return architecture)] in
  let r := on_wget_get node h1 KvpClient._source_location (working_path node)
             EmptyString false in
  let h2 := h1 ++ [WgetGet KvpClient._source_location (working_path node)
                     EmptyString false r] in
  let rp := if is_CBLMariner (os node) then on_install_packages node h2 packages
            else Return tt in
  let h3 := if is_CBLMariner (os node) then h2 ++ [InstallPackages packages rp]
            else h2 in
  KvpClient._install node (KvpClient.class node) (World tt h)
  = match r with
    | Raise e => (Raise e, World tt h2)
    | Return source_file =>
        match rp with
        | Raise e => (Raise e, World tt h3)
        | Return _ =>
            let rg := on_gcc_compile node h3 source_file command "-std=c99" in
            let h4 := h3 ++ [GccCompile source_file command "-std=c99" rg] in
            match rg with
            | Raise e => (Raise e, World tt h4)
            | Return _ =>
                (Return (on_check_exists node h4 command),
                 World tt (h4 ++ [CheckExists command (on_check_exists node h4 command)]))
            end
        end
    end.
Proof.
  intros Huname Hnone. cbv zeta.
  unfold KvpClient._install, KvpClient._install_by_build.
  run_monad. rewrite Huname. run_monad. rewrite Hnone.
  cbn [default from_option id Py.truthy].
  run_monad.
  destruct (on_wget_get node _ _ _ _ false) as [source_file|e]; run_monad; [|reflexivity].
  destruct (is_CBLMariner (os node)); run_monad.
  - destruct (on_install_packages node _ _) as [[]|e]; run_monad; [|reflexivity].
    cbn [Tool.command KvpClient.class].
    destruct (on_gcc_compile node _ _ _ _) as [[]|e]; run_monad; reflexivity.
  - cbn [Tool.command KvpClient.class].
    destruct (on_gcc_compile node _ _ _ _) as [[]|e]; run_monad; reflexivity.
Qed.

End install.

(** The events a call added to the log, as a list. *)
Ltac new_events :=
  cbn [fst snd log]; rewrite <- ?app_assoc; rewrite events_since_app; cbn [app].

(** One of the events listed holds an exception. *)
Ltac some_event_raised :=
  let Hok := fresh "Hok" in
  intros Hok; rewrite ?Forall_cons in Hok; cbn [raised] in Hok;
  repeat match goal with H : _ ∧ _ |- _ => destruct H end; discriminate.

(** Which of the events listed is a compile. *)
Ltac which_event :=
  let ev := fresh "ev" in
  let Hev := fresh "Hev" in
  let Hc := fresh "Hc" in
  intros ev Hev Hc; rewrite ?elem_of_cons, elem_of_nil in Hev;
  repeat match goal with H : _ ∨ _ |- _ => destruct H end;
  try contradiction; subst ev; try discriminate Hc; eauto.

Lemma binaries_keys (architecture : string) :
  architecture ∈ ["x86_64"; "i686"] ↔ is_Some (KvpClient._binaries !! architecture).
Proof.
  rewrite binaries_lookup.
  destruct (decide (architecture = "x86_64")) as [->|H1];
    [|destruct (decide (architecture = "i686")) as [->|H2]].
  - split; [eauto | intros _; rewrite !elem_of_cons; auto].
  - split; [eauto | intros _; rewrite !elem_of_cons; auto].
  - split; [|intros [x [=]]].
    rewrite !elem_of_cons, elem_of_nil. intros [?|[?|[]]]; contradiction.
Qed.

(** C5.  [KvpClient._install] downloads the binary exactly when the
    architecture of the node is a key of the table, [x86_64] or
    [i686]; for any other architecture it builds from the source: it
    fetches the source and compiles what it fetched with [-std=c99].
    Whichever strategy ran, a value [_install] returns is the answer
    of the existence check made last, and it returns one whenever no
    tool it called raised. *)
Theorem kvp_install_strategy (node : Node) (h : history) (architecture : string) :
  on_uname node h = Return architecture →
  let out := KvpClient._install node (KvpClient.class node) (World tt h) in
  let evs := events_since h (log (snd out)) in
  evs !! 0 = Some (UnameHardwarePlatform (Return architecture))
  ∧ (architecture ∈ ["x86_64"; "i686"] →
     ∃ url r,
       KvpClient._binaries !! architecture = Some url
       ∧ evs !! 1 = Some (WgetGet url (working_path node) "kvp_client" true r)
       ∧ Forall (fun e => is_compile e = false) evs)
  ∧ (architecture ∉ ["x86_64"; "i686"] →
     ∃ r,
       evs !! 1 = Some (WgetGet KvpClient._source_location (working_path node)
                          EmptyString false r)
       ∧ Forall (fun e => is_download e = false) evs
       ∧ (∀ e, e ∈ evs → is_compile e = true →
          ∃ source_file r',
            r = Return source_file
            ∧ e = GccCompile source_file (KvpClient.command node) "-std=c99" r')
       ∧ (Forall (fun e => raised e = false) evs →
          Exists (fun e => is_compile e = true) evs))
  ∧ (∀ b, fst out = Return b →
     last evs = Some (CheckExists (KvpClient.command node) b))
  ∧ (Forall (fun e => raised e = false) evs → ∃ b, fst out = Return b).
Proof.
  intros Huname. cbv zeta.
  destruct (KvpClient._binaries !! architecture) as [url|] eqn:Hurl.
  - assert (Hin : architecture ∈ ["x86_64"; "i686"]) by (apply binaries_keys; eauto).
    assert (Htruthy : Py.truthy url = true).
    { rewrite binaries_lookup in Hurl.
      destruct (decide (architecture = "x86_64"));
        [|destruct (decide (architecture = "i686"))];
        try discriminate; injection Hurl as <-; reflexivity. }
    pose proof (install_by_download_run node h architecture url Huname Hurl Htruthy)
      as Hrun. cbv zeta in Hrun. rewrite Hrun. clear Hrun.
    destruct (on_wget_get node _ url _ _ true) as [path|e] eqn:Hget; new_events.
    + split; [reflexivity|]. split; [|split; [contradiction|split]].
      * intros _. exists url, (Return path). repeat split. repeat constructor.
      * intros b [= <-]. reflexivity.
      * eauto.
    + split; [reflexivity|]. split; [|split; [contradiction|split]].
      * intros _. exists url, (Raise e). repeat split. repeat constructor.
      * intros b [=].
      * some_event_raised.
  - assert (Hnot : architecture ∉ ["x86_64"; "i686"]).
    { intros Hin. apply binaries_keys in Hin as [x Hx]. congruence. }
    pose proof (install_by_build_run node h architecture Huname Hurl) as Hrun.
    cbv zeta in Hrun. rewrite Hrun. clear Hrun.
    split; [|split; [contradiction|]].
    { destruct (on_wget_get node _ _ _ _ false), (is_CBLMariner (os node));
        try destruct (on_install_packages node _ _);
        try destruct (on_gcc_compile node _ _ _ _); new_events; reflexivity. }
    destruct (on_wget_get node _ _ _ _ false) as [source_file|e] eqn:Hget.
    2:{ new_events. split; [|split].
        - intros _. exists (Raise e). split; [reflexivity|].
          split; [repeat constructor|]. split; [which_event | some_event_raised].
        - intros b [=].
        - some_event_raised. }
    destruct (is_CBLMariner (os node)).
    + destruct (on_install_packages node _ _) as [[]|e] eqn:Hpkg.
      2:{ new_events. split; [|split].
          - intros _. exists (Return source_file). split; [reflexivity|].
            split; [repeat constructor|]. split; [which_event | some_event_raised].
          - intros b [=].
          - some_event_raised. }
      destruct (on_gcc_compile node _ _ _ _) as [[]|e] eqn:Hgcc; new_events.
      * split; [|split].
        -- intros _. exists (Return source_file). split; [reflexivity|].
           split; [repeat constructor|]. split; [which_event|].
           intros _. do 3 apply Exists_cons_tl. apply Exists_cons_hd. reflexivity.
        -- intros b [= <-]. reflexivity.
        -- eauto.
      * split; [|split].
        -- intros _. exists (Return source_file). split; [reflexivity|].
           split; [repeat constructor|]. split; [which_event | some_event_raised].
        -- intros b [=].
        -- some_event_raised.
    + destruct (on_gcc_compile node _ _ _ _) as [[]|e] eqn:Hgcc; new_events.
      * split; [|split].
        -- intros _. exists (Return source_file). split; [reflexivity|].
           split; [repeat constructor|]. split; [which_event|].
           intros _. do 2 apply Exists_cons_tl. apply Exists_cons_hd. reflexivity.
        -- intros b [= <-]. reflexivity.
        -- eauto.
      * split; [|split].
        -- intros _. exists (Return source_file). split; [reflexivity|].
           split; [repeat constructor|]. split; [which_event | some_event_raised].
        -- intros b [=].
        -- some_event_raised.
Qed.

Lemma kvp_install_strategy_witness :
  last (events_since []
          (log (snd (KvpClient._install (Sample_arch "aarch64")
                       (KvpClient.class (Sample_arch "aarch64")) (World tt [])))))
  = Some (CheckExists "/home/lisa/kvp_client" true).
Proof.
  destruct (kvp_install_strategy (Sample_arch "aarch64") [] "aarch64" eq_refl)
    as (_ & _ & _ & Hlast & _).
  apply Hlast. reflexivity.
Defined.

(** ** Texts *)

Lemma append_cons (x : ascii) (a b : string) :
  String x a +:+ b = String x (a +:+ b).
Proof. reflexivity. Qed.

Lemma append_nil_l (a : string) : EmptyString +:+ a = a.
Proof. reflexivity. Qed.

Lemma append_assoc (a b c : string) : (a +:+ b) +:+ c = a +:+ (b +:+ c).
Proof.
  induction a as [|x a IH]; [reflexivity|].
  rewrite !append_cons, IH. reflexivity.
Qed.

Lemma length_append (a b : string) :
  String.length (a +:+ b) = String.length a + String.length b.
Proof.
  induction a as [|x a IH]; [reflexivity|].
  rewrite append_cons. cbn [String.length]. rewrite IH. reflexivity.
Qed.

Lemma all_chars_cons (P : ascii -> bool) (c : ascii) (s : string) :
  all_chars P (String c s) = true ↔ P c = true ∧ all_chars P s = true.
Proof. cbn. apply andb_true_iff. Qed.

Lemma plain_spec (s : string) :
  plain s = true ↔
  s ≠ EmptyString
  ∧ all_chars (fun c => negb (Ascii.eqb c NUL)) s = true
  ∧ all_chars (fun c => negb (Ascii.eqb c LF)) s = true.
Proof.
  unfold plain. rewrite andb_true_iff.
  assert (Hall : all_chars (fun c => negb (Ascii.eqb c NUL) && negb (Ascii.eqb c LF)) s = true
                 ↔ all_chars (fun c => negb (Ascii.eqb c NUL)) s = true
                   ∧ all_chars (fun c => negb (Ascii.eqb c LF)) s = true).
  { induction s as [|c s IH]; cbn; [tauto|].
    rewrite !andb_true_iff, IH. tauto. }
  rewrite Hall. destruct s; cbn; intuition congruence.
Qed.

Lemma append_nil_r (a : string) : a +:+ EmptyString = a.
Proof.
  induction a as [|x a IH]; [reflexivity|].
  rewrite append_cons, IH. reflexivity.
Qed.

Lemma all_chars_impl (P Q : ascii -> bool) (s : string) :
  (∀ c, P c = true → Q c = true) →
  all_chars P s = true → all_chars Q s = true.
Proof.
  intros HPQ. induction s as [|c s IH]; [reflexivity|].
  rewrite !all_chars_cons. intros [Hc Hs]. auto.
Qed.

Lemma all_chars_append (P : ascii -> bool) (a b : string) :
  all_chars P (a +:+ b) = true ↔ all_chars P a = true ∧ all_chars P b = true.
Proof.
  induction a as [|x a IH]; [rewrite append_nil_l; cbn; tauto|].
  rewrite append_cons, !all_chars_cons, IH. tauto.
Qed.

Lemma last_char_append (prev : option ascii) (a b : string) :
  last_char prev (a +:+ b) = last_char (last_char prev a) b.
Proof.
  revert prev. induction a as [|x a IH]; intros prev; [reflexivity|].
  rewrite append_cons. cbn [last_char]. apply IH.
Qed.


Lemma last_char_nonempty (s : string) (prev : option ascii) :
  s ≠ EmptyString → last_char prev s = last_char None s.
Proof. destruct s as [|c s]; [congruence | reflexivity]. Qed.

Lemma at_eol_cases (tail : string) :
  re.at_eol tail = true → tail = EmptyString ∨ ∃ s, tail = String LF s.
Proof.
  destruct tail as [|c s]; [auto|].
  cbn [re.at_eol]. intros ->%Ascii.eqb_eq. eauto.
Qed.

(** ** Stripping *)

Lemma lstrip_clean (s : string) : starts_clean s = true → PyText.lstrip s = s.
Proof.
  destruct s as [|c s]; [reflexivity|].
  cbn [starts_clean]. intros Hc%negb_true_iff.
  unfold PyText.lstrip. cbn [PyText.lstrip_of]. rewrite Hc. reflexivity.
Qed.

Lemma rstrip_of_all (cls : ascii -> bool) (ws : string) :
  all_chars cls ws = true → PyText.rstrip_of cls ws = EmptyString.
Proof.
  induction ws as [|c ws IH]; [reflexivity|].
  intros [Hc Hws]%all_chars_cons. cbn [PyText.rstrip_of].
  rewrite (IH Hws), Hc. reflexivity.
Qed.

(** White space at the end goes, whatever stands before. *)
Lemma rstrip_of_trailing (cls : ascii -> bool) (ws : string) :
  all_chars cls ws = true →
  ∀ s, PyText.rstrip_of cls (s +:+ ws) = PyText.rstrip_of cls s.
Proof.
  intros Hws. induction s as [|c s IH].
  - rewrite append_nil_l. apply rstrip_of_all, Hws.
  - rewrite append_cons. cbn [PyText.rstrip_of]. rewrite IH. reflexivity.
Qed.

(** What stands before a text that holds more than white space
    stays. *)
Lemma rstrip_of_app (cls : ascii -> bool) (b : string) :
  PyText.rstrip_of cls b ≠ EmptyString →
  ∀ a, PyText.rstrip_of cls (a +:+ b) = a +:+ PyText.rstrip_of cls b.
Proof.
  intros Hb. induction a as [|c a IH]; [reflexivity|].
  rewrite !append_cons. cbn [PyText.rstrip_of]. rewrite IH.
  destruct (a +:+ PyText.rstrip_of cls b) as [|d r] eqn:Hr; [|reflexivity].
  destruct a; [|discriminate Hr]. rewrite append_nil_l in Hr. congruence.
Qed.

Lemma rstrip_clean (s : string) : ends_clean s = true → PyText.rstrip s = s.
Proof.
  unfold ends_clean, PyText.rstrip. induction s as [|c s IH]; [reflexivity|].
  cbn [last_char PyText.rstrip_of].
  destruct s as [|d s].
  - cbn [last_char PyText.rstrip_of]. intros ->%negb_true_iff. reflexivity.
  - intros H. rewrite IH by exact H. reflexivity.
Qed.

(** A text with clean ends comes back from its print-out with a line
    feed. *)
Lemma strip_line_feed (s : string) :
  starts_clean s = true → ends_clean s = true →
  PyText.strip (s +:+ String LF EmptyString) = s.
Proof.
  intros Hstart Hend. unfold PyText.strip.
  destruct s as [|c s].
  - reflexivity.
  - rewrite lstrip_clean by exact Hstart. unfold PyText.rstrip.
    rewrite rstrip_of_trailing by reflexivity. apply rstrip_clean, Hend.
Qed.


(** ** Lines *)

Lemma join_lines_cons (l : string) (rest : list string) :
  join_lines (l :: rest)
  = l +:+ match rest with
          | [] => EmptyString
          | _ :: _ => String LF (join_lines rest)
          end.
Proof. destruct rest; [symmetry; apply append_nil_r | reflexivity]. Qed.

Lemma at_eol_join_tail (rest : list string) :
  re.at_eol match rest with
            | [] => EmptyString
            | _ :: _ => String LF (join_lines rest)
            end = true.
Proof. destruct rest; reflexivity. Qed.

Lemma unlines_join_lines (lines : list string) :
  lines ≠ [] → unlines lines = join_lines lines +:+ String LF EmptyString.
Proof.
  induction lines as [|l rest IH]; [congruence|]. intros _.
  cbn [unlines]. destruct rest as [|l' rest]; [reflexivity|].
  rewrite IH by discriminate.
  change (join_lines (l :: l' :: rest))
    with (l +:+ String LF (join_lines (l' :: rest))).
  rewrite append_assoc, append_cons. reflexivity.
Qed.

Lemma last_char_join_lines (lines : list string) (l : string) :
  last lines = Some l → l ≠ EmptyString →
  ∀ prev, last_char prev (join_lines lines) = last_char None l.
Proof.
  intros Hlast Hl. induction lines as [|x rest IH]; [discriminate|].
  intros prev. destruct rest as [|y rest].
  - cbn in Hlast. injection Hlast as ->. cbn [join_lines].
    apply last_char_nonempty, Hl.
  - change (join_lines (x :: y :: rest))
      with (x +:+ String LF (join_lines (y :: rest))).
    rewrite last_char_append. cbn [last_char]. apply IH. exact Hlast.
Qed.

Lemma record_lines_unlines (records : list (string * string)) :
  record_lines records = unlines (map record_text records).
Proof.
  induction records as [|record records IH]; [reflexivity|].
  cbn [record_lines map unlines]. unfold record_line.
  rewrite IH, append_assoc, append_cons, append_nil_l. reflexivity.
Qed.

Lemma client_output_unlines (pool count : string) (records : list (string * string)) :
  client_output pool count records = unlines (client_lines pool count records).
Proof.
  unfold client_output, client_lines. cbn [unlines].
  rewrite record_lines_unlines, !append_assoc. reflexivity.
Qed.

Lemma digit_not_space (c : ascii) : Py.is_digit c = true → Py.is_space c = false.
Proof.
  unfold Py.is_digit, Py.is_space. cbv zeta.
  generalize (nat_of_ascii c). intros n Hn.
  apply andb_true_iff in Hn as [H1%Nat.leb_le H2%Nat.leb_le].
  repeat (apply orb_false_iff; split);
    try (apply andb_false_iff; (left; apply Nat.leb_gt; lia) || (right; apply Nat.leb_gt; lia));
    apply Nat.eqb_neq; lia.
Qed.

Lemma ends_clean_digits (lead count : string) :
  all_chars Py.is_digit count = true → Py.truthy count = true →
  ends_clean (lead +:+ count) = true.
Proof.
  intros Hdigits Hne. unfold ends_clean. rewrite last_char_append.
  generalize (last_char None lead). induction count as [|c count IH];
    [discriminate|]. intros prev.
  apply all_chars_cons in Hdigits as [Hc Hdigits]. cbn [last_char].
  destruct count as [|d count].
  - cbn [last_char]. rewrite (digit_not_space c Hc). reflexivity.
  - apply IH; [exact Hdigits | reflexivity].
Qed.

Lemma ends_clean_append (lead s : string) :
  s ≠ EmptyString → ends_clean (lead +:+ s) = ends_clean s.
Proof.
  intros Hs. unfold ends_clean. rewrite last_char_append.
  rewrite last_char_nonempty by exact Hs. reflexivity.
Qed.

Lemma last_map_text {A B} (f : A -> B) (l : list A) :
  last (map f l) = f <$> last l.
Proof.
  induction l as [|x l IH]; [reflexivity|].
  cbn [map]. rewrite !last_cons, IH. destruct (last l); reflexivity.
Qed.

Lemma last_client_lines (pool count : string) (records : list (string * string)) :
  last (client_lines pool count records)
  = Some match last records with
         | Some record => record_text record
         | None => "Num records is " +:+ count
         end.
Proof.
  unfold client_lines. rewrite !last_cons, last_map_text.
  destruct (last records); reflexivity.
Qed.
(** ** The pool file read back *)




Lemma readable_spec (record : string * string) :
  readable record = true ↔
  plain record.1 = true ∧ plain record.2 = true
  ∧ contains "; Value: " record.2 = false.
Proof.
  unfold readable. rewrite !andb_true_iff, negb_true_iff. tauto.
Qed.









(** ** Scanning a text for a pattern *)

Lemma consume_consume (n m : nat) (r : option re.found) :
  re.consume n (re.consume m r) = re.consume (n + m) r.
Proof. destruct r as [[gs k]|]; cbn; [f_equal; f_equal; lia | reflexivity]. Qed.

Lemma scan_skip (p : re.pattern) (s : string) :
  ∀ t prev, re.scan p (String.length t) prev (t +:+ s) = re.scan p 0 (last_char prev t) s.
Proof.
  induction t as [|c t IH]; intros prev; [reflexivity|].
  rewrite append_cons. cbn [String.length re.scan last_char]. apply IH.
Qed.

Lemma scan_no_match (p : re.pattern) (prev : option ascii) (c : ascii) (s : string) :
  re.match_here p prev (String c s) = None →
  re.scan p 0 prev (String c s) = re.scan p 0 (Some c) s.
Proof. intros H. cbn [re.scan]. rewrite H. reflexivity. Qed.

Lemma scan_match (p : re.pattern) (prev : option ascii) (c : ascii) (t s : string)
    (gs : list string) :
  re.match_here p prev (String c t +:+ s) = Some (gs, String.length (String c t)) →
  re.scan p 0 prev (String c t +:+ s) = gs :: re.scan p 0 (last_char (Some c) t) s.
Proof.
  intros H. rewrite append_cons in *. cbn [re.scan]. rewrite H.
  cbn [String.length Nat.pred]. rewrite scan_skip. reflexivity.
Qed.

(** Literal text at the head of a pattern. *)
Lemma match_lits (lit : string) (rest : re.pattern) (s : string) :
  ∀ prev,
    re.match_here (re.lits lit ++ rest) prev (lit +:+ s)
    = re.consume (String.length lit) (re.match_here rest (last_char prev lit) s).
Proof.
  induction lit as [|c lit IH]; intros prev.
  - rewrite append_nil_l. cbn [re.lits app String.length last_char].
    destruct (re.match_here rest prev s) as [[gs n]|]; reflexivity.
  - rewrite append_cons. cbn [re.lits app re.match_here String.length last_char].
    rewrite Ascii.eqb_refl, IH, consume_consume. reflexivity.
Qed.

Lemma match_lits_fail (lit : string) (rest : re.pattern) :
  ∀ s prev, String.prefix lit s = false →
    re.match_here (re.lits lit ++ rest) prev s = None.
Proof.
  induction lit as [|c lit IH]; intros s prev;
    [intros H; destruct s; cbn in H; discriminate H|].
  cbn [re.lits app re.match_here].
  destruct s as [|d s]; [reflexivity|].
  cbn [String.prefix].
  destruct (ascii_dec c d) as [<-|Hne].
  - intros H. rewrite Ascii.eqb_refl, (IH s _ H). reflexivity.
  - intros _. destruct (Ascii.eqb_spec d c); [congruence | reflexivity].
Qed.

Lemma prefix_line (sub : string) (tail : string) :
  re.at_eol tail = true →
  all_chars Py.not_newline sub = true →
  ∀ t, String.prefix sub t = false →
    String.prefix sub (t +:+ tail) = false.
Proof.
  intros Htail. induction sub as [|a sub IH]; intros Hsub t;
    [intros H; destruct t; cbn in H; discriminate H|].
  apply all_chars_cons in Hsub as [Ha Hsub].
  destruct t as [|b t].
  - intros _. rewrite append_nil_l.
    destruct (at_eol_cases tail Htail) as [->|[s ->]]; [reflexivity|].
    cbn [String.prefix].
    destruct (ascii_dec a LF) as [E|]; [|reflexivity].
    rewrite E in Ha. vm_compute in Ha. discriminate Ha.
  - rewrite append_cons. cbn [String.prefix].
    destruct (ascii_dec a b); [apply IH, Hsub | reflexivity].
Qed.

Lemma not_newline_not_bol (c : ascii) :
  Py.not_newline c = true → re.at_bol (Some c) = false.
Proof. unfold Py.not_newline. cbn [re.at_bol]. apply negb_true_iff. Qed.

Lemma plain_not_newline (t : string) :
  plain t = true → all_chars Py.not_newline t = true.
Proof. intros (_ & _ & H)%plain_spec. exact H. Qed.

Lemma digit_not_newline (c : ascii) : Py.is_digit c = true → Py.not_newline c = true.
Proof.
  intros Hd. unfold Py.not_newline. apply negb_true_iff.
  destruct (Ascii.eqb_spec c LF) as [->|]; [|reflexivity].
  vm_compute in Hd. discriminate Hd.
Qed.

Lemma digit_not_N (c : ascii) : Py.is_digit c = true → negb (Ascii.eqb c "N") = true.
Proof.
  intros Hd. apply negb_true_iff.
  destruct (Ascii.eqb_spec c "N") as [->|]; [|reflexivity].
  vm_compute in Hd. discriminate Hd.
Qed.

(** The end of a line: an optional carriage return, then the end of
    the text or a line feed. *)
Lemma match_line_end (tail : string) (prev : option ascii) :
  re.at_eol tail = true →
  re.match_here [re.Opt CR; re.Dollar] prev tail = Some ([], 0).
Proof.
  intros Htail. destruct (at_eol_cases tail Htail) as [->|[s ->]]; reflexivity.
Qed.

Lemma match_line_end_cr (tail : string) (prev : option ascii) :
  re.at_eol tail = true →
  re.match_here [re.Opt CR; re.Dollar] prev (String CR tail) = Some ([], 1).
Proof.
  intros Htail. destruct (at_eol_cases tail Htail) as [->|[s ->]]; reflexivity.
Qed.

(** A repetition stops where the text ends or goes on with a
    character outside the class. *)
Lemma rep_end (k : option ascii -> string -> option re.found) (cls : ascii -> bool)
    (plus group : bool) (acc : string) (prev : option ascii) (tail : string) :
  match tail with
  | String c _ => cls c = false
  | EmptyString => True
  end →
  re.rep k cls plus group acc prev tail
  = if plus && negb (Py.truthy acc) then None
    else re.consume (String.length acc) (re.capture group acc (k prev tail)).
Proof.
  destruct tail as [|c s]; [reflexivity|]. intros Hc.
  cbn [re.rep]. rewrite Hc. reflexivity.
Qed.

Lemma line_end_outside (cls : ascii -> bool) (tail : string) :
  cls LF = false → re.at_eol tail = true →
  match tail with
  | String c _ => cls c = false
  | EmptyString => True
  end.
Proof.
  intros Hcls Htail. destruct (at_eol_cases tail Htail) as [->|[s ->]];
    [exact I | exact Hcls].
Qed.

(** ** The key/value pattern on a record line *)

Section record_line.

(** What follows the line: nothing, or a line feed and more. *)
Variable tail : string.
Hypothesis line_ends : re.at_eol tail = true.

(** The value runs to the end of the line. *)
Lemma rep_value (v : string) :
  all_chars Py.not_newline v = true →
  ∀ acc prev,
    re.rep (re.match_here [re.Opt CR; re.Dollar]) Py.not_newline false true
      acc prev (v +:+ tail)
    = Some ([acc +:+ v], String.length (acc +:+ v) + 0).
Proof.
  induction v as [|c v IH]; intros Hv acc prev.
  - rewrite append_nil_l, append_nil_r.
    rewrite rep_end by (apply line_end_outside; [reflexivity | exact line_ends]).
    rewrite match_line_end by exact line_ends. reflexivity.
  - apply all_chars_cons in Hv as [Hc Hv].
    rewrite append_cons. cbn [re.rep]. rewrite Hc, (IH Hv).
    rewrite append_assoc, append_cons, append_nil_l. reflexivity.
Qed.

(** Past the key, no other place of the line starts the separator. *)
Lemma rep_no_separator (t : string) :
  all_chars Py.not_newline t = true →
  contains "; Value: " t = false →
  ∀ acc prev,
    re.rep (re.match_here separator_part) Py.not_newline false true
      acc prev (t +:+ tail)
    = None.
Proof.
  induction t as [|c t IH]; intros Ht Hsub acc prev.
  - rewrite append_nil_l.
    rewrite rep_end by (apply line_end_outside; [reflexivity | exact line_ends]).
    cbn [andb]. unfold separator_part.
    rewrite match_lits_fail; [reflexivity|].
    destruct (at_eol_cases tail line_ends) as [->|[s ->]]; reflexivity.
  - apply all_chars_cons in Ht as [Hc Ht].
    cbn [contains] in Hsub. apply orb_false_iff in Hsub as [Hpre Hsub].
    rewrite append_cons. cbn [re.rep]. rewrite Hc, (IH Ht Hsub).
    cbn [andb]. unfold separator_part.
    rewrite match_lits_fail; [reflexivity|].
    rewrite <- append_cons. apply prefix_line; [exact line_ends | reflexivity | exact Hpre].
Qed.

Lemma contains_after_semicolon (v : string) :
  contains "; Value: " (" Value: " +:+ v) = contains "; Value: " v.
Proof. reflexivity. Qed.

(** The key is what stands before the last separator of the line: for
    a value that does not hold the separator, the key as printed. *)
Lemma rep_key (k v : string) :
  all_chars Py.not_newline k = true →
  all_chars Py.not_newline v = true →
  contains "; Value: " v = false →
  ∀ acc prev,
    re.rep (re.match_here separator_part) Py.not_newline false true
      acc prev (k +:+ "; Value: " +:+ v +:+ tail)
    = Some ([acc +:+ k; v], String.length (acc +:+ k) + (9 + (String.length v + 0))).
Proof.
  intros Hk Hv Hsub. induction k as [|c k IH]; intros acc prev.
  - rewrite append_nil_l, append_nil_r.
    change ("; Value: " +:+ v +:+ tail)
      with (String ";" (" Value: " +:+ v +:+ tail)).
    cbn [re.rep]. replace (Py.not_newline ";") with true by reflexivity.
    rewrite <- (append_assoc " Value: " v tail).
    rewrite rep_no_separator.
    + cbn [andb]. rewrite (append_assoc " Value: " v tail).
      change (String ";" (" Value: " +:+ v +:+ tail))
        with ("; Value: " +:+ v +:+ tail).
      unfold separator_part. rewrite match_lits. unfold value_part.
      cbn [re.match_here]. rewrite (rep_value v Hv). reflexivity.
    + apply all_chars_append. split; [reflexivity | exact Hv].
    + rewrite contains_after_semicolon. exact Hsub.
  - apply all_chars_cons in Hk as [Hc Hk].
    rewrite append_cons. cbn [re.rep]. rewrite Hc, (IH Hk).
    rewrite append_assoc, append_cons, append_nil_l. reflexivity.
Qed.

(** A record line at the start of a line matches, with the key and the
    value as its groups, up to the end of the line. *)
Lemma match_record_line (prev : option ascii) (k v : string) :
  re.at_bol prev = true →
  all_chars Py.not_newline k = true →
  all_chars Py.not_newline v = true →
  contains "; Value: " v = false →
  re.match_here KvpClient._key_value_pattern prev (record_text (k, v) +:+ tail)
  = Some ([k; v], String.length (record_text (k, v))).
Proof.
  intros Hbol Hk Hv Hsub. unfold record_text. cbn [fst snd].
  rewrite !append_assoc.
  change KvpClient._key_value_pattern
    with (re.Caret :: re.lits "Key: " ++
          re.Rep Py.not_newline false true :: separator_part).
  cbn [re.match_here]. rewrite Hbol, match_lits. cbn [re.match_here].
  rewrite (rep_key k v Hk Hv Hsub). cbn [re.consume].
  rewrite append_nil_l, !length_append. cbn [String.length]. do 2 f_equal. lia.
Qed.

(** The digits of a count or of a pool run to the end of the line. *)
Lemma rep_digits (count : string) :
  all_chars Py.is_digit count = true →
  ∀ acc prev,
    Py.truthy (acc +:+ count) = true →
    re.rep (re.match_here [re.Opt CR; re.Dollar]) Py.is_digit true true
      acc prev (count +:+ tail)
    = Some ([acc +:+ count], String.length (acc +:+ count) + 0).
Proof.
  induction count as [|c count IH]; intros Hcount acc prev Hacc.
  - rewrite append_nil_l. rewrite append_nil_r in *.
    rewrite rep_end by (apply line_end_outside; [reflexivity | exact line_ends]).
    rewrite Hacc, match_line_end by exact line_ends. reflexivity.
  - apply all_chars_cons in Hcount as [Hc Hcount].
    rewrite append_cons. cbn [re.rep]. rewrite Hc.
    rewrite (IH Hcount).
    + rewrite append_assoc, append_cons, append_nil_l. reflexivity.
    + rewrite append_assoc, append_cons, append_nil_l. exact Hacc.
Qed.

(** The same when a carriage return ends the line: the pattern takes
    it, the group does not. *)
Lemma rep_digits_cr (count : string) :
  all_chars Py.is_digit count = true →
  ∀ acc prev,
    Py.truthy (acc +:+ count) = true →
    re.rep (re.match_here [re.Opt CR; re.Dollar]) Py.is_digit true true
      acc prev (count +:+ String CR tail)
    = Some ([acc +:+ count], String.length (acc +:+ count) + 1).
Proof.
  induction count as [|c count IH]; intros Hcount acc prev Hacc.
  - rewrite append_nil_l. rewrite append_nil_r in *.
    rewrite rep_end by reflexivity.
    rewrite Hacc, match_line_end_cr by exact line_ends. reflexivity.
  - apply all_chars_cons in Hcount as [Hc Hcount].
    rewrite append_cons. cbn [re.rep]. rewrite Hc.
    rewrite (IH Hcount).
    + rewrite append_assoc, append_cons, append_nil_l. reflexivity.
    + rewrite append_assoc, append_cons, append_nil_l. exact Hacc.
Qed.

End record_line.

(** ** Patterns that start a line with a given character *)

Section line_patterns.

Variable first : ascii.
Variable p : re.pattern.
Hypothesis first_not_LF : Ascii.eqb LF first = false.

Lemma starts_line_needs_bol (prev : option ascii) (s : string) :
  re.at_bol prev = false →
  re.match_here (re.Caret :: re.Lit first :: p) prev s = None.
Proof. intros Hbol. cbn [re.match_here]. rewrite Hbol. reflexivity. Qed.

Lemma starts_line_needs_first (prev : option ascii) (c : ascii) (s : string) :
  Ascii.eqb c first = false →
  re.match_here (re.Caret :: re.Lit first :: p) prev (String c s) = None.
Proof.
  intros Hc. cbn [re.match_here]. rewrite Hc. destruct (re.at_bol prev); reflexivity.
Qed.

Lemma scan_line_end (tail : string) (prev : option ascii) :
  re.at_eol tail = true →
  re.scan (re.Caret :: re.Lit first :: p) 0 prev tail
  = match tail with
    | String _ s => re.scan (re.Caret :: re.Lit first :: p) 0 (Some LF) s
    | EmptyString => []
    end.
Proof.
  intros Htail. destruct (at_eol_cases tail Htail) as [->|[s ->]].
  - cbn [re.scan re.match_here]. destruct (re.at_bol prev); reflexivity.
  - apply scan_no_match, starts_line_needs_first, first_not_LF.
Qed.

(** Inside a line nothing matches: the scan goes on to its end. *)
Lemma scan_to_line_end (tail t : string) :
  all_chars Py.not_newline t = true →
  ∀ prev, re.at_bol prev = false →
    re.scan (re.Caret :: re.Lit first :: p) 0 prev (t +:+ tail)
    = re.scan (re.Caret :: re.Lit first :: p) 0 (last_char prev t) tail.
Proof.
  induction t as [|c t IH]; intros Ht prev Hbol; [reflexivity|].
  apply all_chars_cons in Ht as [Hc Ht]. rewrite append_cons.
  rewrite scan_no_match by apply starts_line_needs_bol, Hbol.
  cbn [last_char]. apply (IH Ht), not_newline_not_bol, Hc.
Qed.

(** A line that does not start with the character holds no match. *)
Lemma reads_other_line (l : string) :
  other_line first l = true → reads_line (re.Caret :: re.Lit first :: p) l [].
Proof.
  unfold other_line. intros [Hfirst Hline]%andb_true_iff prev tail _ _.
  destruct l as [|c t]; [reflexivity|].
  apply negb_true_iff in Hfirst. apply all_chars_cons in Hline as [Hc Ht].
  rewrite append_cons.
  rewrite scan_no_match by apply starts_line_needs_first, Hfirst.
  cbn [last_char app]. apply (scan_to_line_end tail t Ht), not_newline_not_bol, Hc.
Qed.

(** A line the pattern matches from its start to its end holds that
    match. *)
Lemma reads_matching_line (c : ascii) (t : string) (gs : list string) :
  (∀ prev tail, re.at_bol prev = true → re.at_eol tail = true →
     re.match_here (re.Caret :: re.Lit first :: p) prev (String c t +:+ tail)
     = Some (gs, String.length (String c t))) →
  reads_line (re.Caret :: re.Lit first :: p) (String c t) [gs].
Proof.
  intros Hmatch prev tail Hbol Htail.
  rewrite (scan_match _ _ _ _ _ _ (Hmatch prev tail Hbol Htail)). reflexivity.
Qed.

(** The matches in lines joined by line feeds: those of each line, in
    order. *)
Lemma scan_join_lines (lines : list string) (results : list (list (list string))) :
  Forall2 (reads_line (re.Caret :: re.Lit first :: p)) lines results →
  ∀ prev, re.at_bol prev = true →
    re.scan (re.Caret :: re.Lit first :: p) 0 prev (join_lines lines)
    = concat results.
Proof.
  induction 1 as [|l found lines results Hl Hrest IH]; intros prev Hbol.
  - cbn [join_lines concat re.scan re.match_here]. rewrite Hbol. reflexivity.
  - rewrite join_lines_cons, (Hl prev _ Hbol (at_eol_join_tail lines)).
    cbn [concat]. f_equal.
    rewrite scan_line_end by apply at_eol_join_tail.
    destruct lines as [|l' lines].
    + apply Forall2_nil_inv_l in Hrest. subst results. reflexivity.
    + apply IH. reflexivity.
Qed.

End line_patterns.

(** ** The output of the client read back *)

Lemma key_value_pattern_shape :
  KvpClient._key_value_pattern
  = re.Caret :: re.Lit "K" ::
    re.lits "ey: " ++ re.Rep Py.not_newline false true :: separator_part.
Proof. reflexivity. Qed.

Lemma reads_record_line (record : string * string) :
  readable record = true →
  reads_line KvpClient._key_value_pattern (record_text record) [[record.1; record.2]].
Proof.
  intros (Hk & Hv & Hsub)%readable_spec. apply plain_not_newline in Hk, Hv.
  destruct record as [k v]. cbn [fst snd] in *.
  rewrite key_value_pattern_shape.
  change (record_text (k, v)) with (String "K" ("ey: " +:+ k +:+ "; Value: " +:+ v)).
  apply reads_matching_line. intros prev tail Hbol Htail.
  rewrite <- key_value_pattern_shape.
  change (String "K" ("ey: " +:+ k +:+ "; Value: " +:+ v)) with (record_text (k, v)).
  apply match_record_line; assumption.
Qed.

Lemma reads_record_lines (records : list (string * string)) :
  Forall (fun record => readable record = true) records →
  Forall2 (reads_line KvpClient._key_value_pattern)
    (map record_text records) (map (fun record => [[record.1; record.2]]) records).
Proof.
  induction 1 as [|record records Hr _ IH]; cbn [map].
  - constructor.
  - constructor; [apply reads_record_line, Hr | exact IH].
Qed.

Lemma concat_singletons {A B} (f : A -> B) (l : list A) :
  concat (map (fun x => [f x]) l) = map f l.
Proof. induction l as [|x l IH]; [reflexivity|]. cbn. f_equal. exact IH. Qed.

(** The lines of an output give back the records of its record lines:
    the lines before them, which do not start with K, give none. *)
Lemma findall_record_lines (others : list string) (records : list (string * string)) :
  Forall (fun l => other_line "K" l = true) others →
  Forall (fun record => readable record = true) records →
  re.findall KvpClient._key_value_pattern
    (join_lines (others ++ map record_text records))
  = map (fun record => [record.1; record.2]) records.
Proof.
  intros Hothers Hrecords. unfold re.findall.
  rewrite key_value_pattern_shape.
  rewrite (scan_join_lines "K" _ eq_refl _
             (map (fun _ => []) others
              ++ map (fun record => [[record.1; record.2]]) records));
    [|
     | reflexivity].
  - rewrite concat_app, concat_singletons.
    replace (concat (map (fun _ : string => @nil (list string)) others)) with (@nil (list string));
      [reflexivity|].
    clear Hothers. induction others as [|l others IH]; [reflexivity | exact IH].
  - apply Forall2_app.
    + clear Hrecords. induction Hothers as [|l others Hl _ IH]; cbn [map].
      * constructor.
      * constructor; [apply reads_other_line, Hl | exact IH].
    + rewrite <- key_value_pattern_shape. apply reads_record_lines, Hrecords.
Qed.

(** ** The count line read back *)

Lemma count_needs_N (prev : option ascii) (c : ascii) (s : string) :
  negb (Ascii.eqb c "N") = true →
  re.match_here KvpClient._count_record_pattern prev (String c s) = None.
Proof.
  intros Hc. apply negb_true_iff in Hc.
  change KvpClient._count_record_pattern
    with (re.lits "Num records is " ++
          [re.Rep Py.is_digit true true; re.Opt CR; re.Dollar]).
  cbn [re.match_here re.lits app]. rewrite Hc. reflexivity.
Qed.

Lemma scan_count_skip (s t : string) :
  all_chars (fun c => negb (Ascii.eqb c "N")) t = true →
  ∀ prev,
    re.scan KvpClient._count_record_pattern 0 prev (t +:+ s)
    = re.scan KvpClient._count_record_pattern 0 (last_char prev t) s.
Proof.
  induction t as [|c t IH]; intros Ht prev; [reflexivity|].
  apply all_chars_cons in Ht as [Hc Ht]. rewrite append_cons.
  rewrite scan_no_match by apply count_needs_N, Hc.
  cbn [last_char]. apply (IH Ht).
Qed.

Lemma match_count_line (tail count : string) (prev : option ascii) :
  re.at_eol tail = true →
  all_chars Py.is_digit count = true →
  Py.truthy count = true →
  re.match_here KvpClient._count_record_pattern prev
    ("Num records is " +:+ count +:+ tail)
  = Some ([count], 15 + (String.length count + 0)).
Proof.
  intros Htail Hcount Hne.
  change KvpClient._count_record_pattern
    with (re.lits "Num records is " ++
          [re.Rep Py.is_digit true true; re.Opt CR; re.Dollar]).
  rewrite match_lits. cbn [re.match_here].
  rewrite (rep_digits tail Htail count Hcount) by (rewrite append_nil_l; exact Hne).
  rewrite append_nil_l. reflexivity.
Qed.

Lemma match_count_line_cr (tail count : string) (prev : option ascii) :
  re.at_eol tail = true →
  all_chars Py.is_digit count = true →
  Py.truthy count = true →
  re.match_here KvpClient._count_record_pattern prev
    ("Num records is " +:+ count +:+ String CR tail)
  = Some ([count], 15 + (String.length count + 1)).
Proof.
  intros Htail Hcount Hne.
  change KvpClient._count_record_pattern
    with (re.lits "Num records is " ++
          [re.Rep Py.is_digit true true; re.Opt CR; re.Dollar]).
  rewrite match_lits. cbn [re.match_here].
  rewrite (rep_digits_cr tail Htail count Hcount) by (rewrite append_nil_l; exact Hne).
  rewrite append_nil_l. reflexivity.
Qed.

(** The count is read from the first count line, after a first line
    without N. *)
Lemma count_of_lines (first count : string) (rest : list string) :
  all_chars (fun c => negb (Ascii.eqb c "N")) first = true →
  all_chars Py.is_digit count = true →
  Py.truthy count = true →
  util.get_matched_str (join_lines (first :: ("Num records is " +:+ count) :: rest))
    KvpClient._count_record_pattern
  = count.
Proof.
  intros Hfirst Hcount Hne. unfold util.get_matched_str, re.findall.
  change (join_lines (first :: ("Num records is " +:+ count) :: rest))
    with (first +:+ String LF (join_lines (("Num records is " +:+ count) :: rest))).
  replace (Py.truthy (first +:+ String LF
             (join_lines (("Num records is " +:+ count) :: rest)))) with true
    by (destruct first; reflexivity).
  rewrite join_lines_cons.
  replace (first +:+ String LF
             (("Num records is " +:+ count) +:+
              match rest with
              | [] => EmptyString
              | _ :: _ => String LF (join_lines rest)
              end))
    with ((first +:+ String LF EmptyString) +:+
          String "N" ("um records is " +:+ count +:+
                      match rest with
                      | [] => EmptyString
                      | _ :: _ => String LF (join_lines rest)
                      end))
    by (rewrite !append_assoc; reflexivity).
  rewrite scan_count_skip
    by (apply all_chars_append; split; [exact Hfirst | reflexivity]).
  cbn [re.scan].
  change (String "N" ("um records is " +:+ count +:+
                      match rest with
                      | [] => EmptyString
                      | _ :: _ => String LF (join_lines rest)
                      end))
    with ("Num records is " +:+ count +:+
          match rest with
          | [] => EmptyString
          | _ :: _ => String LF (join_lines rest)
          end).
  rewrite (match_count_line _ count _ (at_eol_join_tail rest) Hcount Hne).
  reflexivity.
Qed.

Lemma int_go_digits (s : string) :
  ∀ acc n, Py.int_go acc s = Some n → all_chars Py.is_digit s = true.
Proof.
  induction s as [|c s IH]; intros acc n; [reflexivity|].
  cbn [Py.int_go all_chars]. destruct (Py.is_digit c); [|discriminate].
  intros H. apply IH in H. exact H.
Qed.

Lemma int_digits (s : string) (n : Z) :
  Py.int s = Some n → all_chars Py.is_digit s = true ∧ Py.truthy s = true.
Proof.
  destruct s as [|c s]; [discriminate|].
  intros H. split; [eapply int_go_digits, H | reflexivity].
Qed.

(** ** Dictionaries of records *)

Lemma dict_of_foldr (records : list (string * string)) :
  ∀ m, dict_of records m
       = foldr (fun kv => <[kv.1 := kv.2]>) m (reverse records).
Proof.
  induction records as [|kv records IH]; intros m; [reflexivity|].
  rewrite reverse_cons, foldr_app. cbn [foldr]. apply IH.
Qed.

Lemma dict_of_list_to_map (records : list (string * string)) :
  dict_of records ∅ = list_to_map (reverse records).
Proof. apply dict_of_foldr. Qed.

Lemma NoDup_reverse_keys (records : list (string * string)) :
  NoDup records.*1 → NoDup (reverse records).*1.
Proof. intros H. rewrite fmap_reverse, reverse_Permutation. exact H. Qed.

Lemma size_dict_of (records : list (string * string)) :
  NoDup records.*1 → size (dict_of records ∅) = length records.
Proof.
  intros H. rewrite dict_of_list_to_map.
  rewrite map_size_list_to_map by apply NoDup_reverse_keys, H.
  apply length_reverse.
Qed.


Lemma key_value_of_groups (records : list (string * string)) :
  map key_value (map (fun record => [record.1; record.2]) records) = records.
Proof.
  induction records as [|[k v] records IH]; [reflexivity|].
  cbn [map]. rewrite IH. reflexivity.
Qed.


(** ** The output of the client as a run hands it over *)

Lemma pool_line_other (first : ascii) (pool : string) :
  Ascii.eqb "P" first = false →
  all_chars Py.is_digit pool = true →
  other_line first ("Pool is " +:+ pool) = true.
Proof.
  intros Hfirst Hpool. unfold other_line.
  change ("Pool is " +:+ pool) with (String "P" ("ool is " +:+ pool)).
  cbv beta iota. rewrite Hfirst. cbn [negb andb].
  apply all_chars_cons. split; [reflexivity|].
  apply all_chars_append. split; [reflexivity|].
  apply (all_chars_impl _ _ _ digit_not_newline Hpool).
Qed.

Lemma count_line_other (first : ascii) (count : string) :
  Ascii.eqb "N" first = false →
  all_chars Py.is_digit count = true →
  other_line first ("Num records is " +:+ count) = true.
Proof.
  intros Hfirst Hcount. unfold other_line.
  change ("Num records is " +:+ count) with (String "N" ("um records is " +:+ count)).
  cbv beta iota. rewrite Hfirst. cbn [negb andb].
  apply all_chars_cons. split; [reflexivity|].
  apply all_chars_append. split; [reflexivity|].
  apply (all_chars_impl _ _ _ digit_not_newline Hcount).
Qed.

(** Stripping takes the last line feed of the output, and no more
    when the last value does not end with white space. *)
Lemma strip_client_output (pool count : string) (records : list (string * string)) :
  Forall (fun record => readable record = true) records →
  last_value_clean records = true →
  all_chars Py.is_digit count = true →
  Py.truthy count = true →
  PyText.strip (client_output pool count records)
  = join_lines (client_lines pool count records).
Proof.
  intros Hreadable Hlast Hcount Hne.
  rewrite client_output_unlines, unlines_join_lines by discriminate.
  apply strip_line_feed; [reflexivity|].
  unfold ends_clean.
  pose proof (last_client_lines pool count records) as Hline.
  unfold last_value_clean in Hlast.
  destruct (last records) as [[k v]|] eqn:Hrecord.
  - rewrite (last_char_join_lines _ _ Hline) by discriminate.
    apply last_Some_elem_of in Hrecord as Hin.
    rewrite Forall_forall in Hreadable. apply Hreadable in Hin.
    apply readable_spec in Hin as (_ & (Hv & _)%plain_spec & _).
    cbn [snd] in Hlast, Hv.
    unfold record_text. cbn [fst snd].
    rewrite <- !append_assoc.
    exact (eq_trans (ends_clean_append _ v Hv) Hlast).
  - rewrite (last_char_join_lines _ _ Hline) by discriminate.
    apply (ends_clean_digits "Num records is " count Hcount Hne).
Qed.

(** The client of Linux reads readable records back as they are, when
    their keys differ, the count printed is their number and the last
    value does not end with white space. *)
Lemma linux_reads_records (node : Node) (pool_id : Z) (force_run : bool) (h : history)
    (pool count : string) (records : list (string * string)) :
  Forall (fun record => readable record = true) records →
  NoDup records.*1 →
  last_value_clean records = true →
  all_chars Py.is_digit pool = true →
  Py.int count = Some (Z.of_nat (length records)) →
  exit_code (on_run node h (KvpClient.command node) (Py.str pool_id) force_run false)
    ∈ [0; 4]%Z →
  stdout (on_run node h (KvpClient.command node) (Py.str pool_id) force_run false)
    = PyText.strip (client_output pool count records) →
  fst (KvpClient.get_pool_records node pool_id force_run (World tt h))
  = Return (dict_of records ∅).
Proof.
  intros Hreadable Hkeys Hlast Hpool Hcount Hexit Hout.
  pose proof (linux_get_pool_records_run node pool_id force_run h) as Hrun.
  cbv zeta in Hrun. rewrite Hrun. clear Hrun. cbn [fst].
  rewrite bool_decide_eq_true_2 by exact Hexit.
  destruct (int_digits count _ Hcount) as [Hdigits Hne].
  unfold reported_count, parsed_records. rewrite Hout.
  rewrite (strip_client_output pool count records Hreadable Hlast Hdigits Hne).
  unfold client_lines.
  rewrite count_of_lines, Hcount;
    [| apply all_chars_append; split;
       [reflexivity | apply (all_chars_impl _ _ _ digit_not_N Hpool)]
     | exact Hdigits | exact Hne].
  pose proof (findall_record_lines
                ["Pool is " +:+ pool; "Num records is " +:+ count] records)
    as Hfound.
  cbn [app] in Hfound. rewrite Hfound;
    [| repeat constructor;
       [apply pool_line_other | apply count_line_other]; (reflexivity || assumption)
     | exact Hreadable].
  rewrite key_value_of_groups.
  rewrite bool_decide_eq_true_2; [reflexivity|].
  f_equal. apply size_dict_of, Hkeys.
Qed.




(** Two records under one key are read differently too: the client of
    Linux raises on the count, the client of FreeBSD keeps the last. *)
Example duplicate_key_read_differently :
  fst (KvpClient.get_pool_records (Sample_linux_holds [("a", "1"); ("a", "2")]) 3 false
         (World tt []))
  = Raise (AssertionError "result count is not the same as stats")
  ∧ fst (KvpClientFreeBSD.get_pool_records
           (Sample_freebsd_holds [("a", "1"); ("a", "2")]) 3 false (World tt []))
    = Return {[ "a" := "2" ]}.
Proof. split; vm_compute; reflexivity. Qed.

(** So is a last value that ends with white space: the stripped
    output of the client of Linux has lost it, the pool file of
    FreeBSD, which ends with a NUL, has not. *)
Example trailing_space_read_differently :
  fst (KvpClient.get_pool_records (Sample_linux_holds [("K", "v ")]) 3 false
         (World tt []))
  = Return {[ "K" := "v" ]}
  ∧ fst (KvpClientFreeBSD.get_pool_records (Sample_freebsd_holds [("K", "v ")]) 3 false
           (World tt []))
    = Return {[ "K" := "v " ]}.
Proof. split; vm_compute; reflexivity. Qed.

(** * Further properties *)

(** ** Waagent.get_python_cmd when no interpreter is found *)

Lemma asked_requests (node : Node) (commands : list string) :
  ∀ h, Forall (fun e => ∃ command answer, e = CommandExists command answer)
         (asked node h commands).
Proof.
  induction commands as [|c rest IH]; intros h; cbn [asked]; constructor; eauto.
Qed.

Lemma probe_python_none (node : Node) (candidates : list string) :
  (∀ h command, command ∈ candidates → (on_command_exists node h command).1 = false) →
  ∀ (bound : option (string * bool)) (w : Waagent.fields) (h : history),
    Waagent.probe_python node candidates bound (World w h)
    = (Return match last (asked node h candidates) with
              | Some (CommandExists command answer) => Some (command, answer.2)
              | _ => bound
              end,
       World w (h ++ asked node h candidates)).
Proof.
  induction candidates as [|c rest IH]; intros Hmissing bound w h.
  - cbn. rewrite app_nil_r. reflexivity.
  - cbn [Waagent.probe_python asked]. unfold Waagent.command_exists. run_monad.
    pose proof (Hmissing h c (list_elem_of_here _ _)) as Hc.
    destruct (on_command_exists node h c) as [python_exists use_sudo].
    cbn [fst] in Hc. subst python_exists.
    rewrite IH by (intros h' command Hin; apply Hmissing; right; exact Hin).
    rewrite <- app_assoc, last_cons. cbn [app].
    destruct (last (asked node (h ++ [CommandExists c (false, use_sudo)]) rest))
      as [e|] eqn:Hlast; [|reflexivity].
    apply last_Some_elem_of in Hlast.
    pose proof (asked_requests node rest (h ++ [CommandExists c (false, use_sudo)]))
      as Hall.
    rewrite Forall_forall in Hall. destruct (Hall e Hlast) as (c' & a & ->).
    reflexivity.
Qed.

(** X1.  When none of the four interpreter candidates exists,
    [get_python_cmd] raises nothing: it asks for all four, in order,
    and returns and keeps the last one,
    [/usr/share/oem/python/bin/python3], with the [use_sudo] of the
    answer to it, as if it had been found. *)
Theorem get_python_cmd_none_found (node : Node) (w : Waagent.fields) (h : history) :
  cached PythonCmd w = None →
  (∀ h' command, command ∈ Waagent._python_candidates →
                 (on_command_exists node h' command).1 = false) →
  ∃ use_sudo,
    last (asked node h Waagent._python_candidates)
    = Some (CommandExists last_python_candidate (false, use_sudo))
    ∧ Waagent.get_python_cmd node (World w h)
      = (Return (last_python_candidate, use_sudo),
         World (Waagent.set_python last_python_candidate use_sudo w)
               (h ++ asked node h Waagent._python_candidates)).
Proof.
  intros Hnone Hmissing.
  assert (Hmatch : match Waagent._python_cmd w, Waagent._python_use_sudo w with
                   | Some c, Some s => Some (Interpreter c s)
                   | _, _ => None
                   end = None) by exact Hnone.
  pose proof (probe_python_none node _ Hmissing None w h) as Hloop.
  assert (Hlast : ∃ answer,
    last (asked node h Waagent._python_candidates)
    = Some (CommandExists last_python_candidate answer)).
  { cbn [asked Waagent._python_candidates]. rewrite !last_cons. cbn [last].
    eexists. reflexivity. }
  destruct Hlast as ([python_exists use_sudo] & Hlast).
  assert (python_exists = false) as ->.
  { revert Hlast. cbn [asked Waagent._python_candidates]. rewrite !last_cons. cbn [last].
    intros [= Hanswer].
    match type of Hanswer with
    | on_command_exists node ?hist ?c = _ =>
        pose proof (Hmissing hist c) as Hc; rewrite Hanswer in Hc
    end.
    apply Hc. unfold Waagent._python_candidates. rewrite !elem_of_cons. auto. }
  exists use_sudo. split; [exact Hlast|].
  rewrite Hlast in Hloop. cbn [snd] in Hloop.
  unfold Waagent.get_python_cmd, get, modify. run_monad.
  destruct (Waagent._python_cmd w), (Waagent._python_use_sudo w);
    try discriminate; run_monad; rewrite Hloop; run_monad; reflexivity.
Qed.

Lemma get_python_cmd_none_found_witness :
  ∃ use_sudo,
    last (asked Sample_no_python [] Waagent._python_candidates)
    = Some (CommandExists last_python_candidate (false, use_sudo))
    ∧ Waagent.get_python_cmd Sample_no_python
        (World (Waagent._initialize Sample_no_python) [])
      = (Return (last_python_candidate, use_sudo),
         World (Waagent.set_python last_python_candidate use_sudo
                  (Waagent._initialize Sample_no_python))
               ([] ++ asked Sample_no_python [] Waagent._python_candidates)).
Proof.
  apply (get_python_cmd_none_found Sample_no_python
           (Waagent._initialize Sample_no_python) []).
  - reflexivity.
  - intros h' command Hin. unfold Waagent._python_candidates in Hin.
    rewrite !elem_of_cons, elem_of_nil in Hin.
    destruct Hin as [->|[->|[->|[->|[]]]]]; reflexivity.
Defined.

(** ** Waagent.get_version, called again *)

(** X2.  On a node whose answers to a run do not depend on the
    history, once [get_version] has ended on a form that exits with 0,
    calling it again runs that form only, once, and returns the same
    version: the forms that failed before are not tried again. *)
Theorem get_version_again (node : Node) (w : Waagent.fields) (h : history)
    (v : string) (w1 : world Waagent.fields) :
  run_stateless node →
  Waagent.get_version node (World w h) = (Return v, w1) →
  exit_code (version_probe node [] (Waagent._command (self w1))) = 0%Z →
  Waagent.get_version node w1
  = (Return v,
     World (self w1)
       (log w1 ++ [version_event (Waagent._command (self w1))
                     (version_probe node [] (Waagent._command (self w1)))])).
Proof.
  intros Hstateless Hfirst Hworks.
  assert (Hany : ∀ h' c, version_probe node h' c = version_probe node [] c).
  { intros h' c. apply Hstateless. }
  pose proof (get_version_run node w h) as Hrun. cbv zeta in Hrun.
  rewrite Hfirst in Hrun.
  rewrite ?(Hany (_ ++ _)), ?(Hany h) in Hrun.
  destruct w1 as [w' h1]. cbn [self log] in *.
  pose proof (get_version_run node w' h1) as Hagain. cbv zeta in Hagain.
  rewrite Hagain. clear Hagain.
  rewrite ?(Hany (_ ++ _)), ?(Hany h1).
  apply failed_false in Hworks. rewrite Hworks.
  f_equal. f_equal.
  destruct (Waagent.failed (version_probe node [] (Waagent._command w)));
    [destruct (Waagent.failed (version_probe node [] "/usr/sbin/waagent"))|];
    injection Hrun as -> -> _; reflexivity.
Qed.

Lemma get_version_again_witness :
  Waagent.get_version Sample_fallback
    (snd (Waagent.get_version Sample_fallback
            (World (Waagent._initialize Sample_fallback) [])))
  = (Return "2.2.45",
     World (Waagent.set_command "/usr/sbin/waagent" (Waagent._initialize Sample_fallback))
       [version_event "waagent" Sample.not_found;
        version_event "/usr/sbin/waagent"
          (Sample.ok "WALinuxAgent-2.2.45 running on ubuntu 18.04");
        version_event "/usr/sbin/waagent"
          (Sample.ok "WALinuxAgent-2.2.45 running on ubuntu 18.04")]).
Proof.
  apply (get_version_again Sample_fallback (Waagent._initialize Sample_fallback) []
           "2.2.45").
  - intros h h' command parameters force_run sudo. reflexivity.
  - reflexivity.
  - reflexivity.
Defined.

(** ** The version read out of the output *)

Lemma version_needs_dash (prev : option ascii) (s : string) :
  re.prev_is "-" prev = false →
  re.match_here Waagent.__version_pattern prev s = None.
Proof. intros H. cbn [Waagent.__version_pattern re.match_here]. rewrite H. reflexivity. Qed.

Lemma scan_version_skip (s name : string) :
  no_dash name = true →
  ∀ prev, re.prev_is "-" prev = false →
    re.scan Waagent.__version_pattern 0 prev (name +:+ String "-" s)
    = re.scan Waagent.__version_pattern 0 (Some "-"%char) s.
Proof.
  unfold no_dash. induction name as [|c name IH]; intros Hname prev Hprev.
  - rewrite append_nil_l. apply scan_no_match, version_needs_dash, Hprev.
  - apply all_chars_cons in Hname as [Hc Hname]. rewrite append_cons.
    rewrite scan_no_match by apply version_needs_dash, Hprev.
    apply (IH Hname). cbn [re.prev_is]. apply negb_true_iff, Hc.
Qed.

Lemma rep_version (rest ver : string) :
  ends_word rest = true →
  all_chars Py.not_space ver = true →
  ∀ acc prev,
    Py.truthy (acc +:+ ver) = true →
    re.rep (re.match_here []) Py.not_space true true acc prev (ver +:+ rest)
    = Some ([acc +:+ ver], String.length (acc +:+ ver) + 0).
Proof.
  intros Hrest. induction ver as [|c ver IH]; intros Hver acc prev Hacc.
  - rewrite append_nil_l. rewrite append_nil_r in *.
    destruct rest as [|c rest']; cbn [re.rep].
    + rewrite Hacc. reflexivity.
    + cbn [ends_word] in Hrest. unfold Py.not_space. rewrite Hrest.
      cbn [negb]. rewrite Hacc. reflexivity.
  - apply all_chars_cons in Hver as [Hc Hver].
    rewrite append_cons. cbn [re.rep]. rewrite Hc.
    rewrite (IH Hver).
    + rewrite append_assoc, append_cons, append_nil_l. reflexivity.
    + rewrite append_assoc, append_cons, append_nil_l. exact Hacc.
Qed.

Lemma version_of_output (name ver rest : string) :
  no_dash name = true →
  Py.truthy ver = true →
  all_chars Py.not_space ver = true →
  ends_word rest = true →
  util.get_matched_str (name +:+ "-" +:+ ver +:+ rest) Waagent.__version_pattern = ver.
Proof.
  intros Hname Hne Hver Hrest. unfold util.get_matched_str.
  replace (Py.truthy (name +:+ "-" +:+ ver +:+ rest)) with true
    by (destruct name; reflexivity).
  unfold re.findall.
  change ("-" +:+ ver +:+ rest) with (String "-" (ver +:+ rest)).
  rewrite scan_version_skip by (exact Hname || reflexivity).
  destruct ver as [|c ver]; [discriminate|].
  rewrite append_cons. cbn [re.scan Waagent.__version_pattern re.match_here re.prev_is].
  rewrite Ascii.eqb_refl. rewrite <- append_cons.
  rewrite (rep_version rest (String c ver) Hrest Hver) by reflexivity.
  reflexivity.
Qed.

(** X3.  When the command the object holds exits with 0 and prints a
    name without dash, a dash, and a version that is followed by white
    space or by nothing, [get_version] returns that version after this
    one run, whatever the name and the rest of the output are. *)
Theorem get_version_reads_version (node : Node) (w : Waagent.fields) (h : history)
    (name ver rest : string) :
  exit_code (version_probe node h (Waagent._command w)) = 0%Z →
  stdout (version_probe node h (Waagent._command w)) = name +:+ "-" +:+ ver +:+ rest →
  no_dash name = true →
  Py.truthy ver = true →
  all_chars Py.not_space ver = true →
  ends_word rest = true →
  Waagent.get_version node (World w h)
  = (Return ver,
     World w (h ++ [version_event (Waagent._command w)
                      (version_probe node h (Waagent._command w))])).
Proof.
  intros Hexit Hout Hname Hne Hver Hrest.
  pose proof (get_version_run node w h) as Hrun. cbv zeta in Hrun. rewrite Hrun.
  apply failed_false in Hexit. rewrite Hexit, Hout.
  rewrite (version_of_output name ver rest Hname Hne Hver Hrest). reflexivity.
Qed.

Lemma get_version_reads_version_witness :
  Waagent.get_version Sample_fallback
    (World (Waagent.set_command "/usr/sbin/waagent" (Waagent._initialize Sample_fallback)) [])
  = (Return "2.2.45",
     World (Waagent.set_command "/usr/sbin/waagent" (Waagent._initialize Sample_fallback))
       [version_event "/usr/sbin/waagent"
          (Sample.ok "WALinuxAgent-2.2.45 running on ubuntu 18.04")]).
Proof.
  apply (get_version_reads_version Sample_fallback
           (Waagent.set_command "/usr/sbin/waagent" (Waagent._initialize Sample_fallback))
           [] "WALinuxAgent" "2.2.45" " running on ubuntu 18.04");
    reflexivity.
Defined.

(** ** The host name, on Linux and on FreeBSD *)




(** ** Pool files with a key more than once *)

Lemma lookup_dict_of_last (pairs : list (string * string)) (k : string) :
  ∀ m, dict_of pairs m !! k
       = match last (under_key k pairs) with
         | Some kv => Some kv.2
         | None => m !! k
         end.
Proof.
  unfold under_key.
  induction pairs as [|[k' v'] pairs IH]; intros m; [reflexivity|].
  change (dict_of ((k', v') :: pairs) m) with (dict_of pairs (<[k' := v']> m)).
  rewrite IH. destruct (decide (k' = k)) as [->|Hne].
  - rewrite filter_cons_True by reflexivity. rewrite last_cons.
    destruct (last (filter _ pairs)); [reflexivity|].
    rewrite lookup_insert_eq. reflexivity.
  - rewrite filter_cons_False by exact Hne.
    destruct (last (filter _ pairs)); [reflexivity|].
    apply lookup_insert_ne. exact Hne.
Qed.

(** X5.  Once the pool file is read, [KvpClientFreeBSD.get_pool_records]
    returns a dictionary exactly when the file has an even number of
    non-empty fields; the dictionary then gives, for every key, the
    value that follows its last occurrence as a key, so a later record
    replaces an earlier one with the same key, and the number of NULs
    between fields plays no part. *)
Theorem freebsd_last_record_wins (node : Node) (pool_id : Z) (force_run : bool)
    (h : history) (content : string) :
  on_cat_read node h (KvpClientFreeBSD.pool_file pool_id) true = Return content →
  (Nat.Even (length (fields_of content)) ↔
   ∃ records,
     fst (KvpClientFreeBSD.get_pool_records node pool_id force_run (World tt h))
     = Return records)
  ∧ (∀ records,
       fst (KvpClientFreeBSD.get_pool_records node pool_id force_run (World tt h))
       = Return records →
       ∀ k, records !! k
            = snd <$> last (under_key k (pair_up (fields_of content)))).
Proof.
  intros Hread.
  rewrite (freebsd_get_pool_records_read node pool_id force_run h content Hread).
  cbn [fst]. rewrite <- Nat.even_spec.
  destruct (Nat.even (length (fields_of content))).
  - split; [split; eauto|].
    intros records [= <-] k. rewrite lookup_dict_of_last, lookup_empty.
    destruct (last _); reflexivity.
  - split; [split; [discriminate | intros [records [=]]]|].
    intros records [=].
Qed.

Lemma freebsd_last_record_wins_witness :
  (Nat.Even (length (fields_of (pool_content (fun _ => 2) (fun _ => 0)
                                  [("a", "1"); ("a", "2")]))) ↔
   ∃ records,
     fst (KvpClientFreeBSD.get_pool_records
            (Sample_freebsd (pool_content (fun _ => 2) (fun _ => 0)
                               [("a", "1"); ("a", "2")]))
            3 false (World tt []))
     = Return records)
  ∧ (∀ records,
       fst (KvpClientFreeBSD.get_pool_records
              (Sample_freebsd (pool_content (fun _ => 2) (fun _ => 0)
                                 [("a", "1"); ("a", "2")]))
              3 false (World tt []))
       = Return records →
       ∀ k, records !! k
            = snd <$> last (under_key k
                              (pair_up (fields_of (pool_content (fun _ => 2) (fun _ => 0)
                                                     [("a", "1"); ("a", "2")]))))).
Proof.
  apply (freebsd_last_record_wins
           (Sample_freebsd (pool_content (fun _ => 2) (fun _ => 0)
                              [("a", "1"); ("a", "2")])) 3 false []).
  reflexivity.
Defined.

(** ** Values that hold the separator *)

Lemma record_text_separator (k v1 v2 : string) :
  record_text (k, v1 +:+ "; Value: " +:+ v2)
  = record_text (k +:+ "; Value: " +:+ v1, v2).
Proof. unfold record_text. cbn [fst snd]. rewrite !append_assoc. reflexivity. Qed.

Lemma record_lines_app (l1 l2 : list (string * string)) :
  record_lines (l1 ++ l2) = record_lines l1 +:+ record_lines l2.
Proof.
  induction l1 as [|r l1 IH]; [reflexivity|].
  cbn [app record_lines]. rewrite IH, append_assoc. reflexivity.
Qed.

Lemma client_output_separator (pool count : string)
    (before after : list (string * string)) (k v1 v2 : string) :
  client_output pool count (before ++ (k, v1 +:+ "; Value: " +:+ v2) :: after)
  = client_output pool count (before ++ (k +:+ "; Value: " +:+ v1, v2) :: after).
Proof.
  unfold client_output. rewrite !record_lines_app. cbn [record_lines].
  unfold record_line. rewrite record_text_separator. reflexivity.
Qed.

(** X6.  The key of a line is everything before its last
    `; Value: `.  When the client prints a record whose value holds
    that text, [KvpClient.get_pool_records] returns the record split
    at the last occurrence: what stood before it in the value has moved
    to the key.  The output is as the client receives it, stripped,
    and its last value does not end with white space. *)
Theorem linux_splits_at_last_separator (node : Node) (pool_id : Z) (force_run : bool)
    (h : history) (pool count : string) (before after : list (string * string))
    (k v1 v2 : string) :
  let printed := before ++ (k, v1 +:+ "; Value: " +:+ v2) :: after in
  let read := before ++ (k +:+ "; Value: " +:+ v1, v2) :: after in
  Forall (fun record => readable record = true) read →
  NoDup read.*1 →
  last_value_clean read = true →
  all_chars Py.is_digit pool = true →
  Py.int count = Some (Z.of_nat (length printed)) →
  exit_code (on_run node h (KvpClient.command node) (Py.str pool_id) force_run false)
    ∈ [0; 4]%Z →
  stdout (on_run node h (KvpClient.command node) (Py.str pool_id) force_run false)
    = PyText.strip (client_output pool count printed) →
  fst (KvpClient.get_pool_records node pool_id force_run (World tt h))
  = Return (dict_of read ∅).
Proof.
  intros printed read Hreadable Hkeys Hlast Hpool Hcount Hexit Hout.
  apply (linux_reads_records node pool_id force_run h pool count read);
    try assumption.
  - rewrite Hcount. subst printed read. rewrite !length_app. reflexivity.
  - rewrite Hout. f_equal. apply client_output_separator.
Qed.

Lemma linux_splits_at_last_separator_witness :
  fst (KvpClient.get_pool_records
         (Sample_client
            (PyText.strip (client_output "3" "1" [("Note", "a; Value: b")])) 0)
         3 false (World tt []))
  = Return (dict_of [("Note; Value: a", "b")] ∅).
Proof.
  apply (linux_splits_at_last_separator
           (Sample_client
              (PyText.strip (client_output "3" "1" [("Note", "a; Value: b")])) 0)
           3 false [] "3" "1" [] [] "Note" "a" "b").
  - repeat constructor.
  - cbn. repeat constructor. rewrite elem_of_nil. tauto.
  - reflexivity.
  - reflexivity.
  - reflexivity.
  - cbn. rewrite !elem_of_cons. auto.
  - reflexivity.
Defined.

(** ** Lines that end with a carriage return *)

Lemma prefix_snoc (c : ascii) (sub : string) :
  all_chars (fun x => negb (Ascii.eqb x c)) sub = true →
  ∀ t s, String.prefix sub t = false →
    String.prefix sub (t +:+ String c s) = false.
Proof.
  induction sub as [|a sub IH]; intros Hsub t s;
    [intros H; destruct t; cbn in H; discriminate H|].
  apply all_chars_cons in Hsub as [Ha Hsub].
  destruct t as [|b t].
  - intros _. rewrite append_nil_l. cbn [String.prefix].
    destruct (ascii_dec a c) as [E|]; [|reflexivity].
    rewrite E, Ascii.eqb_refl in Ha. discriminate Ha.
  - rewrite append_cons. cbn [String.prefix].
    destruct (ascii_dec a b); [apply IH, Hsub | reflexivity].
Qed.

Lemma contains_snoc (c : ascii) (sub v : string) :
  all_chars (fun x => negb (Ascii.eqb x c)) sub = true →
  contains sub v = false →
  contains sub (v +:+ String c EmptyString) = false.
Proof.
  intros Hsub. induction v as [|x v IH]; intros Hv.
  - rewrite append_nil_l. cbn [contains] in *.
    apply orb_false_iff in Hv as [Hpre _].
    rewrite <- (append_nil_l (String c EmptyString)).
    rewrite (prefix_snoc c sub Hsub _ _ Hpre), Hpre. reflexivity.
  - cbn [contains] in Hv. apply orb_false_iff in Hv as [Hpre Hv].
    rewrite append_cons. cbn [contains]. rewrite <- append_cons.
    rewrite (prefix_snoc c sub Hsub _ _ Hpre), (IH Hv). reflexivity.
Qed.

Lemma plain_snoc_cr (v : string) :
  plain v = true → plain (v +:+ String CR EmptyString) = true.
Proof.
  intros (Hne & Hnul & Hlf)%plain_spec. apply plain_spec.
  split; [destruct v; [congruence | discriminate]|].
  split; apply all_chars_append; (split; [assumption | reflexivity]).
Qed.

Lemma readable_with_cr (record : string * string) :
  readable record = true → readable (with_cr record) = true.
Proof.
  intros (Hk & Hv & Hsub)%readable_spec. apply readable_spec.
  unfold with_cr. cbn [fst snd].
  split; [exact Hk|]. split; [apply plain_snoc_cr, Hv|].
  apply contains_snoc; [reflexivity | exact Hsub].
Qed.

Lemma lstrip_of_all (cls : ascii -> bool) (ws : string) :
  all_chars cls ws = true → PyText.lstrip_of cls ws = EmptyString.
Proof.
  induction ws as [|c ws IH]; [reflexivity|].
  intros [Hc Hws]%all_chars_cons. cbn [PyText.lstrip_of]. rewrite Hc. exact (IH Hws).
Qed.

(** A text with clean ends comes back from what has white space
    after it. *)
Lemma strip_trailing (s ws : string) :
  starts_clean s = true → ends_clean s = true →
  all_chars Py.is_space ws = true →
  PyText.strip (s +:+ ws) = s.
Proof.
  intros Hstart Hend Hws. unfold PyText.strip.
  destruct s as [|c s].
  - rewrite append_nil_l. unfold PyText.lstrip.
    rewrite lstrip_of_all by exact Hws. reflexivity.
  - rewrite lstrip_clean by exact Hstart. unfold PyText.rstrip.
    rewrite rstrip_of_trailing by exact Hws. apply rstrip_clean, Hend.
Qed.

Lemma cr_but_last_cons (l l' : string) (rest : list string) :
  cr_but_last (l :: l' :: rest) = add_cr l :: cr_but_last (l' :: rest).
Proof. reflexivity. Qed.

Lemma cr_but_last_not_nil (l : string) (rest : list string) :
  ∃ x xs, cr_but_last (l :: rest) = x :: xs.
Proof. destruct rest; cbn; eauto. Qed.

Lemma join_lines_add_cr (lines : list string) :
  lines ≠ [] →
  join_lines (map add_cr lines) = join_lines (cr_but_last lines) +:+ String CR EmptyString.
Proof.
  induction lines as [|l rest IH]; [congruence|]. intros _.
  destruct rest as [|l' rest]; [reflexivity|].
  rewrite cr_but_last_cons.
  destruct (cr_but_last_not_nil l' rest) as (x & xs & Hx).
  rewrite Hx in *.
  change (join_lines (map add_cr (l :: l' :: rest)))
    with (add_cr l +:+ String LF (join_lines (map add_cr (l' :: rest)))).
  change (join_lines (add_cr l :: x :: xs))
    with (add_cr l +:+ String LF (join_lines (x :: xs))).
  rewrite IH by discriminate. rewrite !append_assoc, append_cons. reflexivity.
Qed.

Lemma last_cr_but_last (lines : list string) : last (cr_but_last lines) = last lines.
Proof.
  induction lines as [|l rest IH]; [reflexivity|].
  destruct rest as [|l' rest]; [reflexivity|].
  rewrite cr_but_last_cons, (last_cons (add_cr l)), IH, (last_cons l (l' :: rest)).
  rewrite (last_cons l'). destruct (last rest); reflexivity.
Qed.

Lemma record_text_with_cr (record : string * string) :
  add_cr (record_text record) = record_text (with_cr record).
Proof.
  unfold add_cr, record_text, with_cr. cbn [fst snd].
  rewrite !append_assoc. reflexivity.
Qed.

Lemma cr_but_last_records (records : list (string * string)) :
  cr_but_last (map record_text records) = map record_text (with_cr_but_last records).
Proof.
  induction records as [|record rest IH]; [reflexivity|].
  destruct rest as [|record' rest]; [reflexivity|].
  change (cr_but_last (map record_text (record :: record' :: rest)))
    with (add_cr (record_text record)
          :: cr_but_last (map record_text (record' :: rest))).
  rewrite IH, record_text_with_cr. reflexivity.
Qed.

Lemma readable_with_cr_but_last (records : list (string * string)) :
  Forall (fun record => readable record = true) records →
  Forall (fun record => readable record = true) (with_cr_but_last records).
Proof.
  induction 1 as [|record rest Hr Hrest IH]; [constructor|].
  destruct rest as [|record' rest]; [repeat constructor; exact Hr|].
  change (with_cr_but_last (record :: record' :: rest))
    with (with_cr record :: with_cr_but_last (record' :: rest)).
  constructor; [apply readable_with_cr, Hr | exact IH].
Qed.

Lemma keys_with_cr_but_last (records : list (string * string)) :
  (with_cr_but_last records).*1 = records.*1.
Proof.
  induction records as [|record rest IH]; [reflexivity|].
  destruct rest as [|record' rest]; [reflexivity|].
  change (with_cr_but_last (record :: record' :: rest))
    with (with_cr record :: with_cr_but_last (record' :: rest)).
  cbn [fmap list_fmap] in *. rewrite IH. reflexivity.
Qed.

Lemma record_lines_crlf_unlines (records : list (string * string)) :
  record_lines_crlf records = unlines (map add_cr (map record_text records)).
Proof.
  induction records as [|record records IH]; [reflexivity|].
  cbn [record_lines_crlf map unlines]. unfold crlf, add_cr.
  rewrite IH, !append_assoc. reflexivity.
Qed.

Lemma client_output_crlf_unlines (pool count : string)
    (records : list (string * string)) :
  client_output_crlf pool count records
  = unlines (map add_cr (client_lines pool count records)).
Proof.
  unfold client_output_crlf, client_lines. cbn [map unlines].
  rewrite record_lines_crlf_unlines. unfold crlf, add_cr.
  rewrite !append_assoc. reflexivity.
Qed.

(** The lines of the stripped output: the pool and the count with
    their carriage return, unless the count is the last line, and the
    records. *)
Lemma cr_but_last_client_lines (pool count : string)
    (records : list (string * string)) :
  cr_but_last (client_lines pool count records)
  = [add_cr ("Pool is " +:+ pool);
     match records with
     | [] => "Num records is " +:+ count
     | _ :: _ => add_cr ("Num records is " +:+ count)
     end]
    ++ map record_text (with_cr_but_last records).
Proof.
  unfold client_lines. rewrite cr_but_last_cons.
  destruct records as [|record records]; [reflexivity|].
  change (map record_text (record :: records))
    with (record_text record :: map record_text records).
  rewrite cr_but_last_cons.
  change (record_text record :: map record_text records)
    with (map record_text (record :: records)).
  rewrite cr_but_last_records. reflexivity.
Qed.

Lemma strip_client_output_crlf (pool count : string)
    (records : list (string * string)) :
  Forall (fun record => readable record = true) records →
  last_value_clean records = true →
  all_chars Py.is_digit count = true →
  Py.truthy count = true →
  PyText.strip (client_output_crlf pool count records)
  = join_lines (cr_but_last (client_lines pool count records)).
Proof.
  intros Hreadable Hlast Hcount Hne.
  rewrite client_output_crlf_unlines, unlines_join_lines by discriminate.
  rewrite join_lines_add_cr, append_assoc by discriminate.
  apply strip_trailing; [| |reflexivity].
  - rewrite cr_but_last_client_lines. reflexivity.
  - unfold ends_clean.
    pose proof (last_client_lines pool count records) as Hline.
    rewrite <- last_cr_but_last in Hline.
    unfold last_value_clean in Hlast.
    destruct (last records) as [[k v]|] eqn:Hrecord.
    + rewrite (last_char_join_lines _ _ Hline) by discriminate.
      apply last_Some_elem_of in Hrecord as Hin.
      rewrite Forall_forall in Hreadable. apply Hreadable in Hin.
      apply readable_spec in Hin as (_ & (Hv & _)%plain_spec & _).
      cbn [snd] in Hlast, Hv.
      unfold record_text. cbn [fst snd].
      rewrite <- !append_assoc.
      exact (eq_trans (ends_clean_append _ v Hv) Hlast).
    + rewrite (last_char_join_lines _ _ Hline) by discriminate.
      apply (ends_clean_digits "Num records is " count Hcount Hne).
Qed.

Lemma add_cr_other (first : ascii) (l : string) :
  other_line first l = true → l ≠ EmptyString → other_line first (add_cr l) = true.
Proof.
  unfold other_line, add_cr. destruct l as [|c l]; [congruence|]. intros H _.
  apply andb_true_iff in H as [Hfirst Hline]. rewrite append_cons.
  rewrite Hfirst. cbn [andb]. rewrite <- append_cons.
  apply all_chars_append. split; [exact Hline | reflexivity].
Qed.

(** The count is read from a count line that ends with a carriage
    return too. *)
Lemma count_of_lines_cr (first count : string) (rest : list string) :
  all_chars (fun c => negb (Ascii.eqb c "N")) first = true →
  all_chars Py.is_digit count = true →
  Py.truthy count = true →
  util.get_matched_str
    (join_lines (first :: add_cr ("Num records is " +:+ count) :: rest))
    KvpClient._count_record_pattern
  = count.
Proof.
  intros Hfirst Hcount Hne. unfold util.get_matched_str, re.findall, add_cr.
  change (join_lines (first :: (("Num records is " +:+ count) +:+ String CR EmptyString)
                      :: rest))
    with (first +:+ String LF
            (join_lines ((("Num records is " +:+ count) +:+ String CR EmptyString)
                         :: rest))).
  replace (Py.truthy (first +:+ String LF
             (join_lines ((("Num records is " +:+ count) +:+ String CR EmptyString)
                          :: rest)))) with true
    by (destruct first; reflexivity).
  rewrite join_lines_cons.
  set (tail := match rest with
               | [] => EmptyString
               | _ :: _ => String LF (join_lines rest)
               end).
  replace (first +:+ String LF
             ((("Num records is " +:+ count) +:+ String CR EmptyString) +:+ tail))
    with ((first +:+ String LF EmptyString) +:+
          String "N" ("um records is " +:+ count +:+ String CR tail))
    by (rewrite !append_assoc; reflexivity).
  rewrite scan_count_skip
    by (apply all_chars_append; split; [exact Hfirst | reflexivity]).
  cbn [re.scan].
  change (String "N" ("um records is " +:+ count +:+ String CR tail))
    with ("Num records is " +:+ count +:+ String CR tail).
  rewrite (match_count_line_cr tail count _ (at_eol_join_tail rest) Hcount Hne).
  reflexivity.
Qed.

Lemma length_with_cr_but_last (records : list (string * string)) :
  length (with_cr_but_last records) = length records.
Proof.
  rewrite <- (length_fmap fst (with_cr_but_last records)), keys_with_cr_but_last.
  apply length_fmap.
Qed.

(** X7.  When the lines of the client end with a carriage return and
    a line feed, and the output is received stripped,
    [KvpClient.get_pool_records] still reads the count, but every
    value it returns, except the one of the last line, keeps the
    carriage return at its end: the value group takes the whole rest
    of the line, and the optional carriage return of the pattern never
    takes one.  The last line has lost its carriage return with the
    stripping, so its value comes back as it is, provided it does not
    end with white space. *)
Theorem linux_values_keep_carriage_return (node : Node) (pool_id : Z)
    (force_run : bool) (h : history) (pool count : string)
    (records : list (string * string)) :
  Forall (fun record => readable record = true) records →
  NoDup records.*1 →
  last_value_clean records = true →
  all_chars Py.is_digit pool = true →
  Py.int count = Some (Z.of_nat (length records)) →
  exit_code (on_run node h (KvpClient.command node) (Py.str pool_id) force_run false)
    ∈ [0; 4]%Z →
  stdout (on_run node h (KvpClient.command node) (Py.str pool_id) force_run false)
    = PyText.strip (client_output_crlf pool count records) →
  fst (KvpClient.get_pool_records node pool_id force_run (World tt h))
  = Return (dict_of (with_cr_but_last records) ∅).
Proof.
  intros Hreadable Hkeys Hlast Hpool Hcount Hexit Hout.
  pose proof (linux_get_pool_records_run node pool_id force_run h) as Hrun.
  cbv zeta in Hrun. rewrite Hrun. clear Hrun. cbn [fst].
  rewrite bool_decide_eq_true_2 by exact Hexit.
  destruct (int_digits count _ Hcount) as [Hdigits Hne].
  unfold reported_count, parsed_records. rewrite Hout.
  rewrite (strip_client_output_crlf pool count records Hreadable Hlast Hdigits Hne).
  assert (Hpool_line : all_chars (fun c => negb (Ascii.eqb c "N"))
                         (add_cr ("Pool is " +:+ pool)) = true).
  { unfold add_cr. rewrite !all_chars_append.
    split; [split; [reflexivity | apply (all_chars_impl _ _ _ digit_not_N Hpool)]
           | reflexivity]. }
  assert (Hread_count :
    util.get_matched_str (join_lines (cr_but_last (client_lines pool count records)))
      KvpClient._count_record_pattern = count).
  { rewrite cr_but_last_client_lines. cbn [app].
    destruct records; [apply count_of_lines | apply count_of_lines_cr]; assumption. }
  rewrite Hread_count, Hcount.
  rewrite cr_but_last_client_lines, findall_record_lines.
  - rewrite key_value_of_groups.
    rewrite bool_decide_eq_true_2; [reflexivity|].
    f_equal. rewrite size_dict_of by (rewrite keys_with_cr_but_last; exact Hkeys).
    apply length_with_cr_but_last.
  - repeat constructor.
    + apply add_cr_other; [apply pool_line_other; (reflexivity || assumption)|].
      discriminate.
    + destruct records.
      * apply count_line_other; (reflexivity || assumption).
      * apply add_cr_other; [apply count_line_other; (reflexivity || assumption)|].
        discriminate.
  - apply readable_with_cr_but_last, Hreadable.
Qed.

Lemma linux_values_keep_carriage_return_witness :
  fst (KvpClient.get_pool_records
         (Sample_client (PyText.strip (client_output_crlf "3" "2" sample_records)) 0)
         3 false (World tt []))
  = Return (dict_of (with_cr_but_last sample_records) ∅).
Proof.
  apply (linux_values_keep_carriage_return
           (Sample_client (PyText.strip (client_output_crlf "3" "2" sample_records)) 0)
           3 false [] "3" "2" sample_records).
  - repeat constructor.
  - cbn. repeat constructor; rewrite ?elem_of_cons, ?elem_of_nil; intuition discriminate.
  - reflexivity.
  - reflexivity.
  - reflexivity.
  - cbn. rewrite !elem_of_cons. auto.
  - reflexivity.
Defined.

(** ** Lines of a text *)

Lemma splitlines_line (t rest : string) :
  all_chars not_linebreak t = true →
  PyText.splitlines_go false (t +:+ String LF rest)
  = t :: PyText.splitlines_go false rest.
Proof.
  induction t as [|c t IH]; intros Ht.
  - rewrite append_nil_l. reflexivity.
  - apply all_chars_cons in Ht as [Hc Ht]. apply negb_true_iff in Hc.
    rewrite append_cons. cbn [PyText.splitlines_go andb]. rewrite Hc, (IH Ht).
    reflexivity.
Qed.

Lemma splitlines_last_line (t : string) :
  all_chars not_linebreak t = true →
  PyText.splitlines_go false t
  = match t with
    | EmptyString => []
    | String _ _ => [t]
    end.
Proof.
  induction t as [|c t IH]; intros Ht; [reflexivity|].
  apply all_chars_cons in Ht as [Hc Ht]. apply negb_true_iff in Hc.
  cbn [PyText.splitlines_go andb]. rewrite Hc, (IH Ht).
  destruct t; reflexivity.
Qed.

Lemma space_not_equals (c : ascii) : Py.is_space c = true → Ascii.eqb c "=" = false.
Proof.
  intros Hs. destruct (Ascii.eqb_spec c "=") as [->|]; [|reflexivity].
  vm_compute in Hs. discriminate Hs.
Qed.

Lemma blank_is_space (c : ascii) : is_blank c = true → Py.is_space c = true.
Proof. unfold is_blank. intros [H _]%andb_true_iff. exact H. Qed.

Lemma blank_not_linebreak (c : ascii) : is_blank c = true → not_linebreak c = true.
Proof. unfold is_blank. intros [_ H]%andb_true_iff. exact H. Qed.

Lemma linebreak_is_space (c : ascii) :
  PyText.is_linebreak c = true → Py.is_space c = true.
Proof.
  unfold PyText.is_linebreak, Py.is_space. cbv zeta.
  rewrite !orb_true_iff, !andb_true_iff, !Nat.leb_le, !Nat.eqb_eq. lia.
Qed.

Lemma not_space_not_linebreak (c : ascii) :
  Py.not_space c = true → not_linebreak c = true.
Proof.
  unfold Py.not_space, not_linebreak. rewrite !negb_true_iff.
  intros Hs. destruct (PyText.is_linebreak c) eqn:Hl; [|reflexivity].
  apply linebreak_is_space in Hl. congruence.
Qed.

Lemma init_append (a b : string) :
  b ≠ EmptyString → init (a +:+ b) = a +:+ init b.
Proof.
  intros Hb. induction a as [|c a IH]; [reflexivity|].
  rewrite !append_cons. cbn [init]. rewrite IH.
  destruct (a +:+ b) as [|d r] eqn:Hab; [|reflexivity].
  destruct a; [|discriminate Hab]. rewrite append_nil_l in Hab. congruence.
Qed.

Lemma has_char_append (c : ascii) (a b : string) :
  has_char c (a +:+ b) = has_char c a || has_char c b.
Proof.
  induction a as [|x a IH]; [reflexivity|].
  rewrite append_cons. cbn [has_char]. rewrite IH. apply orb_assoc.
Qed.

Lemma lstrip_of_leading (cls : ascii -> bool) (ws s : string) :
  all_chars cls ws = true →
  PyText.lstrip_of cls (ws +:+ s) = PyText.lstrip_of cls s.
Proof.
  induction ws as [|c ws IH]; [reflexivity|].
  intros [Hc Hws]%all_chars_cons. rewrite append_cons.
  cbn [PyText.lstrip_of]. rewrite Hc. exact (IH Hws).
Qed.

(** A text with clean ends comes back from the white space around
    it. *)
Lemma strip_around (lead s trail : string) :
  all_chars Py.is_space lead = true →
  all_chars Py.is_space trail = true →
  starts_clean s = true → ends_clean s = true →
  PyText.strip (lead +:+ s +:+ trail) = s.
Proof.
  intros Hlead Htrail Hstart Hend.
  rewrite <- (strip_trailing s trail Hstart Hend Htrail) at 2.
  unfold PyText.strip, PyText.lstrip. rewrite lstrip_of_leading by exact Hlead.
  reflexivity.
Qed.

Lemma last_char_no_space (s : string) :
  all_chars Py.not_space s = true →
  ∀ prev,
    match prev with Some c => Py.not_space c = true | None => True end →
    match last_char prev s with Some c => Py.not_space c = true | None => True end.
Proof.
  induction s as [|c s IH]; intros Hs prev Hprev; [exact Hprev|].
  apply all_chars_cons in Hs as [Hc Hs]. cbn [last_char]. apply (IH Hs). exact Hc.
Qed.

Lemma ends_clean_no_space (s : string) :
  all_chars Py.not_space s = true → ends_clean s = true.
Proof.
  intros Hs. unfold ends_clean.
  pose proof (last_char_no_space s Hs None I) as H.
  destruct (last_char None s); [exact H | reflexivity].
Qed.

(** ** The key/value pattern of the configuration on a line *)

Section conf_regex.

Lemma fullmatch_here_rep (cls : ascii -> bool) (plus group : bool) (p : re.pattern)
    (prev : option ascii) (s : string) :
  refull.fullmatch_here (re.Rep cls plus group :: p) prev s
  = re.rep (refull.fullmatch_here p) cls plus group EmptyString prev s.
Proof. reflexivity. Qed.

Lemma rep_stop (k : option ascii -> string -> option re.found) (cls : ascii -> bool)
    (plus group : bool) (acc : string) (prev : option ascii) (s : string) :
  ends_with cls s = true →
  re.rep k cls plus group acc prev s
  = if plus && negb (Py.truthy acc) then None
    else re.consume (String.length acc) (re.capture group acc (k prev s)).
Proof.
  destruct s as [|c s]; cbn [ends_with re.rep]; [reflexivity|].
  intros Hc. apply negb_true_iff in Hc. rewrite Hc. reflexivity.
Qed.

Lemma rep_more (k : option ascii -> string -> option re.found) (cls : ascii -> bool)
    (plus group : bool) (acc : string) (prev : option ascii) (c : ascii) (s : string)
    (r : re.found) :
  cls c = true →
  re.rep k cls plus group (acc +:+ String c EmptyString) (Some c) s = Some r →
  re.rep k cls plus group acc prev (String c s) = Some r.
Proof. intros Hc Hrec. cbn [re.rep]. rewrite Hc, Hrec. reflexivity. Qed.

Lemma snoc_append (acc : string) (c : ascii) (s : string) :
  (acc +:+ String c EmptyString) +:+ s = acc +:+ String c s.
Proof. rewrite append_assoc, append_cons, append_nil_l. reflexivity. Qed.

Lemma ends_with_space (trail : string) :
  all_chars Py.is_space trail = true → ends_with Py.not_space trail = true.
Proof.
  destruct trail as [|c trail]; [reflexivity|].
  intros [Hc _]%all_chars_cons. cbn [ends_with]. unfold Py.not_space.
  rewrite Hc. reflexivity.
Qed.

(** The white space at the end of the line. *)
Lemma rep_trail (trail : string) :
  all_chars Py.is_space trail = true →
  ∀ acc prev, ∃ n,
    re.rep (refull.fullmatch_here conf_end_part) Py.is_space false false acc prev trail
    = Some ([], n).
Proof.
  induction trail as [|c trail IH]; intros Htrail acc prev.
  - eexists. reflexivity.
  - apply all_chars_cons in Htrail as [Hc Htrail].
    destruct (IH Htrail (acc +:+ String c EmptyString) (Some c)) as [n Hn].
    exists n. apply rep_more; assumption.
Qed.

(** The value runs to the white space at the end. *)
Lemma rep_conf_value (trail v : string) :
  all_chars Py.is_space trail = true →
  all_chars Py.not_space v = true →
  ∀ acc prev, Py.truthy (acc +:+ v) = true →
    ∃ n, re.rep (refull.fullmatch_here conf_trail_part) Py.not_space true true
           acc prev (v +:+ trail)
         = Some ([acc +:+ v], n).
Proof.
  intros Htrail. induction v as [|c v IH]; intros Hv acc prev Hacc.
  - rewrite append_nil_l. rewrite append_nil_r in *.
    rewrite rep_stop by apply ends_with_space, Htrail.
    rewrite Hacc. cbn [andb negb]. unfold conf_trail_part.
    rewrite fullmatch_here_rep.
    destruct (rep_trail trail Htrail EmptyString prev) as [n Hn].
    rewrite Hn. cbn. eauto.
  - apply all_chars_cons in Hv as [Hc Hv].
    destruct (IH Hv (acc +:+ String c EmptyString) (Some c)) as [n Hn].
    { rewrite snoc_append. exact Hacc. }
    exists n. rewrite append_cons. rewrite snoc_append in Hn.
    apply rep_more; assumption.
Qed.

Lemma equals_needed (prev : option ascii) (s : string) :
  ends_with (fun c => Ascii.eqb c "=") s = true →
  refull.fullmatch_here conf_equals_part prev s = None.
Proof.
  destruct s as [|c s]; [reflexivity|]. cbn [ends_with].
  intros Hc. apply negb_true_iff in Hc.
  unfold conf_equals_part. cbn [refull.fullmatch_here]. rewrite Hc. reflexivity.
Qed.

(** An equals sign with white space only after it starts no value. *)
Lemma equals_then_trail (prev : option ascii) (trail : string) :
  all_chars Py.is_space trail = true →
  refull.fullmatch_here conf_equals_part prev (String "=" trail) = None.
Proof.
  intros Htrail. unfold conf_equals_part. cbn [refull.fullmatch_here].
  rewrite Ascii.eqb_refl.
  rewrite rep_stop by apply ends_with_space, Htrail. reflexivity.
Qed.

Lemma stop_without_equals (plus group : bool) (acc : string) (prev : option ascii)
    (s : string) :
  refull.fullmatch_here conf_equals_part prev s = None →
  (if plus && negb (Py.truthy acc) then None
   else re.consume (String.length acc)
          (re.capture group acc (refull.fullmatch_here conf_equals_part prev s)))
  = None.
Proof.
  intros Hs. rewrite Hs.
  destruct (plus && negb (Py.truthy acc)); reflexivity.
Qed.

(** Past the key, no other place of the line has an equals sign with
    a value after it. *)
Lemma rep_no_equals (trail t : string) :
  all_chars Py.is_space trail = true →
  all_chars Py.not_space t = true →
  all_chars not_equals (init t) = true →
  ∀ acc prev,
    re.rep (refull.fullmatch_here conf_equals_part) Py.not_space true true
      acc prev (t +:+ trail)
    = None.
Proof.
  intros Htrail. induction t as [|c t IH]; intros Ht Heq acc prev.
  - rewrite append_nil_l.
    rewrite rep_stop by apply ends_with_space, Htrail.
    apply stop_without_equals, equals_needed.
    destruct trail as [|c trail']; [reflexivity|].
    apply all_chars_cons in Htrail as [Hc _]. cbn [ends_with].
    rewrite (space_not_equals c Hc). reflexivity.
  - apply all_chars_cons in Ht as [Hc Ht].
    rewrite append_cons. cbn [re.rep]. rewrite Hc.
    destruct t as [|d t].
    + rewrite (IH Ht eq_refl). apply stop_without_equals.
      rewrite append_nil_l.
      destruct (Ascii.eqb_spec c "=") as [->|Hne].
      * apply equals_then_trail, Htrail.
      * apply equals_needed. cbn [ends_with]. apply negb_true_iff.
        destruct (Ascii.eqb_spec c "="); [contradiction | reflexivity].
    + cbn [init] in Heq. apply all_chars_cons in Heq as [He Heq].
      rewrite (IH Ht Heq). apply stop_without_equals, equals_needed.
      cbn [ends_with]. exact He.
Qed.

(** The key runs to the last equals sign that leaves a value. *)
Lemma rep_conf_key (trail v k : string) :
  all_chars Py.is_space trail = true →
  Py.truthy v = true →
  all_chars Py.not_space v = true →
  all_chars not_equals (init v) = true →
  all_chars Py.not_space k = true →
  ∀ acc prev, Py.truthy (acc +:+ k) = true →
    ∃ n, re.rep (refull.fullmatch_here conf_equals_part) Py.not_space true true
           acc prev (k +:+ "=" +:+ v +:+ trail)
         = Some ([acc +:+ k; v], n).
Proof.
  intros Htrail Hne Hv Heq. induction k as [|c k IH]; intros Hk acc prev Hacc.
  - rewrite append_nil_l. rewrite append_nil_r in *.
    change ("=" +:+ v +:+ trail) with (String "=" (v +:+ trail)).
    cbn [re.rep]. replace (Py.not_space "=") with true by reflexivity.
    rewrite (rep_no_equals trail v Htrail Hv Heq).
    rewrite Hacc. cbn [andb negb]. unfold conf_equals_part at 1.
    cbn [refull.fullmatch_here]. rewrite Ascii.eqb_refl.
    destruct (rep_conf_value trail v Htrail Hv EmptyString (Some "="%char)) as [n Hn].
    { rewrite append_nil_l. exact Hne. }
    rewrite Hn, append_nil_l. cbn. eauto.
  - apply all_chars_cons in Hk as [Hc Hk].
    destruct (IH Hk (acc +:+ String c EmptyString) (Some c)) as [n Hn].
    { rewrite snoc_append. exact Hacc. }
    exists n. rewrite append_cons. rewrite snoc_append in Hn.
    apply rep_more; assumption.
Qed.

(** The white space before the key. *)
Lemma rep_indent (gs : list string) (c : ascii) (rest indent : string) :
  Py.not_space c = true →
  (∀ prev, ∃ n, refull.fullmatch_here conf_key_part prev (String c rest) = Some (gs, n)) →
  all_chars Py.is_space indent = true →
  ∀ acc prev, ∃ n,
    re.rep (refull.fullmatch_here conf_key_part) Py.is_space false false
      acc prev (indent +:+ String c rest)
    = Some (gs, n).
Proof.
  intros Hc Hkey. induction indent as [|x indent IH]; intros Hindent acc prev.
  - rewrite append_nil_l.
    rewrite rep_stop by exact Hc.
    cbn [andb]. destruct (Hkey prev) as [n Hn]. rewrite Hn. cbn. eauto.
  - apply all_chars_cons in Hindent as [Hx Hindent].
    destruct (IH Hindent (acc +:+ String x EmptyString) (Some x)) as [n Hn].
    exists n. rewrite append_cons. apply rep_more; assumption.
Qed.

Lemma fullmatch_setting (indent k v trail : string) :
  well_formed (Setting indent k v trail) = true →
  refull.fullmatch WaagentConfiguration._key_value_regex
    (conf_text (Setting indent k v trail))
  = Some [k; v].
Proof.
  cbn [well_formed conf_text]. rewrite !andb_true_iff.
  intros ((((((Hindent & Htrail) & Hk0) & Hk) & Hv0) & Hv) & Heq).
  apply (all_chars_impl _ _ _ blank_is_space) in Hindent, Htrail.
  destruct k as [|c k]; [discriminate|].
  apply all_chars_cons in Hk as Hk'. destruct Hk' as [Hc _].
  unfold refull.fullmatch.
  change WaagentConfiguration._key_value_regex
    with (re.Caret :: re.Rep Py.is_space false false :: conf_key_part).
  cbn [refull.fullmatch_here refull.at_start].
  rewrite append_cons.
  destruct (rep_indent [String c k; v] c (k +:+ "=" +:+ v +:+ trail) indent Hc)
    with (acc := EmptyString) (prev := @None ascii) as [n Hn].
  - intros prev. unfold conf_key_part. rewrite fullmatch_here_rep, <- append_cons.
    destruct (rep_conf_key trail v (String c k) Htrail Hv0 Hv Heq Hk EmptyString prev)
      as [n Hn]; [reflexivity|].
    rewrite Hn, append_nil_l. eauto.
  - exact Hindent.
  - fold (refull.fullmatch_here conf_key_part). rewrite Hn. reflexivity.
Qed.

(** What a match says of the text: a repetition took characters of
    its class, one at least when it must, and the rest of the pattern
    matched what follows. *)
Lemma rep_sound (k : option ascii -> string -> option re.found)
    (cls : ascii -> bool) (plus group : bool) (P : string -> Prop) :
  (∀ prev s r, k prev s = Some r → P s) →
  ∀ s acc prev r,
    re.rep k cls plus group acc prev s = Some r →
    ∃ a b, s = a +:+ b ∧ all_chars cls a = true ∧ P b
           ∧ (plus = true → Py.truthy (acc +:+ a) = true).
Proof.
  intros Hk.
  assert (Hstop : ∀ acc prev s r,
    (if plus && negb (Py.truthy acc) then None
     else re.consume (String.length acc) (re.capture group acc (k prev s)))
    = Some r →
    ∃ a b, s = a +:+ b ∧ all_chars cls a = true ∧ P b
           ∧ (plus = true → Py.truthy (acc +:+ a) = true)).
  { intros acc prev s r.
    destruct (plus && negb (Py.truthy acc)) eqn:E; [discriminate|].
    destruct (k prev s) as [r'|] eqn:Hks; [|discriminate]. intros _.
    exists EmptyString, s. split; [reflexivity|]. split; [reflexivity|].
    split; [eauto|]. intros ->. rewrite append_nil_r.
    apply negb_false_iff. exact E. }
  induction s as [|x s IH]; intros acc prev r; cbn [re.rep].
  - apply Hstop.
  - destruct (cls x) eqn:Hx; [|apply Hstop].
    destruct (re.rep k cls plus group _ (Some x) s) as [r'|] eqn:Hrec; [|apply Hstop].
    intros _. apply IH in Hrec as (a & b & -> & Ha & Hb & Hplus).
    exists (String x a), b. split; [reflexivity|].
    split; [apply all_chars_cons; auto|]. split; [exact Hb|].
    intros Hp. specialize (Hplus Hp). rewrite snoc_append in Hplus. exact Hplus.
Qed.

Lemma end_part_shape (prev : option ascii) (s : string) (r : re.found) :
  refull.fullmatch_here conf_end_part prev s = Some r → s = EmptyString.
Proof.
  unfold conf_end_part. cbn [refull.fullmatch_here].
  destruct s as [|c [|d s]]; cbn [refull.at_end]; [reflexivity| |discriminate].
  destruct (Ascii.eqb c LF); discriminate.
Qed.

Lemma trail_part_shape (prev : option ascii) (s : string) (r : re.found) :
  refull.fullmatch_here conf_trail_part prev s = Some r →
  all_chars Py.is_space s = true.
Proof.
  unfold conf_trail_part. rewrite fullmatch_here_rep. intros H.
  apply (rep_sound _ _ _ _ (fun s => s = EmptyString)) in H
    as (a & b & -> & Ha & -> & _); [|apply end_part_shape].
  rewrite append_nil_r. exact Ha.
Qed.

Lemma equals_part_shape (prev : option ascii) (s : string) (r : re.found) :
  refull.fullmatch_here conf_equals_part prev s = Some r →
  ∃ v trail,
    s = String "=" (v +:+ trail) ∧ Py.truthy v = true
    ∧ all_chars Py.not_space v = true ∧ all_chars Py.is_space trail = true.
Proof.
  unfold conf_equals_part. cbn [refull.fullmatch_here].
  destruct s as [|c s]; [discriminate|].
  destruct (Ascii.eqb_spec c "=") as [->|]; [|discriminate].
  destruct (re.rep (refull.fullmatch_here conf_trail_part) Py.not_space true true
              EmptyString (Some "="%char) s)
    as [r'|] eqn:Hm; [|discriminate].
  intros _.
  apply (rep_sound _ _ _ _ (fun s => all_chars Py.is_space s = true)) in Hm
    as (v & trail & -> & Hv & Htrail & Hplus); [|apply trail_part_shape].
  exists v, trail. specialize (Hplus eq_refl). rewrite append_nil_l in Hplus. auto.
Qed.

Lemma key_part_shape (prev : option ascii) (s : string) (r : re.found) :
  refull.fullmatch_here conf_key_part prev s = Some r →
  ∃ k v trail,
    s = k +:+ String "=" (v +:+ trail)
    ∧ Py.truthy k = true ∧ all_chars Py.not_space k = true
    ∧ Py.truthy v = true ∧ all_chars Py.not_space v = true
    ∧ all_chars Py.is_space trail = true.
Proof.
  unfold conf_key_part. rewrite fullmatch_here_rep. intros H.
  apply (rep_sound _ _ _ _
           (fun s => ∃ v trail,
              s = String "=" (v +:+ trail) ∧ Py.truthy v = true
              ∧ all_chars Py.not_space v = true
              ∧ all_chars Py.is_space trail = true)) in H
    as (k & b & -> & Hk & (v & trail & -> & Hv0 & Hv & Htrail) & Hplus);
    [|apply equals_part_shape].
  exists k, v, trail. specialize (Hplus eq_refl). rewrite append_nil_l in Hplus.
  auto 10.
Qed.

(** A line the pattern matches has the shape of a setting. *)
Lemma fullmatch_shape (text : string) (gs : list string) :
  refull.fullmatch WaagentConfiguration._key_value_regex text = Some gs →
  setting_shape text = true.
Proof.
  unfold refull.fullmatch.
  destruct (refull.fullmatch_here _ None text) as [r|] eqn:Hm; [|discriminate].
  intros _. revert Hm.
  change WaagentConfiguration._key_value_regex
    with (re.Caret :: re.Rep Py.is_space false false :: conf_key_part).
  cbn [refull.fullmatch_here refull.at_start]. intros Hm.
  apply (rep_sound _ _ _ _
           (fun s => ∃ k v trail,
              s = k +:+ String "=" (v +:+ trail)
              ∧ Py.truthy k = true ∧ all_chars Py.not_space k = true
              ∧ Py.truthy v = true ∧ all_chars Py.not_space v = true
              ∧ all_chars Py.is_space trail = true)) in Hm
    as (indent & b & -> & Hindent
        & (k & v & trail & -> & Hk0 & Hk & Hv0 & Hv & Htrail) & _);
    [|apply key_part_shape].
  destruct k as [|c k]; [discriminate|]. destruct v as [|d v]; [discriminate|].
  apply all_chars_cons in Hk as Hk'. destruct Hk' as [Hc Hk'].
  assert (Hstrip : PyText.strip
                     (indent +:+ String c k +:+ String "=" (String d v +:+ trail))
                   = String c k +:+ String "=" (String d v)).
  { replace (String c k +:+ String "=" (String d v +:+ trail))
      with ((String c k +:+ String "=" (String d v)) +:+ trail)
      by (rewrite !append_assoc; reflexivity).
    apply strip_around; [exact Hindent | exact Htrail | exact Hc |].
    rewrite ends_clean_append by discriminate.
    apply (ends_clean_no_space (String "=" (String d v))).
    apply all_chars_cons. split; [reflexivity | exact Hv]. }
  unfold setting_shape. rewrite Hstrip. apply andb_true_iff. split.
  - apply all_chars_append. split; [exact Hk|].
    apply all_chars_cons. split; [reflexivity | exact Hv].
  - rewrite append_cons. cbn [middle].
    rewrite init_append by discriminate.
    rewrite has_char_append. cbn [init has_char].
    rewrite Ascii.eqb_refl. apply orb_true_r.
Qed.

Lemma fullmatch_other (text : string) :
  well_formed (Other text) = true →
  refull.fullmatch WaagentConfiguration._key_value_regex (conf_text (Other text)) = None.
Proof.
  cbn [well_formed conf_text]. intros [_ Hshape%negb_true_iff]%andb_true_iff.
  destruct (refull.fullmatch _ text) as [gs|] eqn:Hm; [|reflexivity].
  apply fullmatch_shape in Hm. congruence.
Qed.

End conf_regex.

(** ** Reading a configuration file *)

Lemma conf_text_one_line (l : conf_line) :
  well_formed l = true → all_chars not_linebreak (conf_text l) = true.
Proof.
  destruct l as [indent k v trail|text]; cbn [well_formed conf_text].
  - rewrite !andb_true_iff.
    intros ((((((Hindent & Htrail) & _) & Hk) & _) & Hv) & _).
    rewrite !all_chars_append. repeat split.
    + apply (all_chars_impl _ _ _ blank_not_linebreak Hindent).
    + apply (all_chars_impl _ _ _ not_space_not_linebreak Hk).
    + apply (all_chars_impl _ _ _ not_space_not_linebreak Hv).
    + apply (all_chars_impl _ _ _ blank_not_linebreak Htrail).
  - intros [H _]%andb_true_iff. exact H.
Qed.

(** A line is read as its setting, if it is one. *)
Lemma read_line (l : conf_line) (rest : list string) (config : gmap string string) :
  well_formed l = true →
  WaagentConfiguration.read_lines (conf_text l :: rest) config
  = WaagentConfiguration.read_lines rest (dict_of (settings [l]) config).
Proof.
  intros Hl. cbn [WaagentConfiguration.read_lines].
  destruct l as [indent k v trail|text].
  - rewrite (fullmatch_setting indent k v trail Hl). reflexivity.
  - rewrite (fullmatch_other text Hl). reflexivity.
Qed.

Lemma dict_of_settings_cons (l : conf_line) (lines : list conf_line)
    (config : gmap string string) :
  dict_of (settings (l :: lines)) config
  = dict_of (settings lines) (dict_of (settings [l]) config).
Proof. destruct l; reflexivity. Qed.

(** The text handed over is read line by line; an empty last line is
    no line for [splitlines], and no setting either. *)
Lemma read_conf_file (lines : list conf_line) :
  Forall (fun l => well_formed l = true) lines →
  ∀ config,
    WaagentConfiguration.read_lines (PyText.splitlines (conf_file lines)) config
    = dict_of (settings lines) config.
Proof.
  unfold PyText.splitlines, conf_file.
  induction 1 as [|l lines Hl _ IH]; intros config; [reflexivity|].
  rewrite dict_of_settings_cons. cbn [map]. rewrite join_lines_cons.
  destruct lines as [|l' lines].
  - cbn [map]. rewrite append_nil_r.
    rewrite splitlines_last_line by apply conf_text_one_line, Hl.
    change (dict_of (settings []) (dict_of (settings [l]) config))
      with (WaagentConfiguration.read_lines [] (dict_of (settings [l]) config)).
    rewrite <- (read_line l [] config Hl).
    destruct (conf_text l) eqn:Htext; reflexivity.
  - change (map conf_text (l' :: lines))
      with (conf_text l' :: map conf_text lines) in *.
    cbv beta iota.
    rewrite splitlines_line by apply conf_text_one_line, Hl.
    rewrite read_line by exact Hl. apply IH.
Qed.

Lemma lookup_settings (lines : list conf_line) (key : string) :
  dict_of (settings lines) ∅ !! key = setting_of key lines.
Proof.
  unfold setting_of. rewrite lookup_dict_of_last, lookup_empty.
  destruct (last _); reflexivity.
Qed.

Section configuration.

Variable node : Node.
Variable cat : string.

Lemma get_configuration_reads (force_run : bool) (w : Waagent.fields) (h : history)
    (lines : list conf_line) :
  Forall (fun l => well_formed l = true) lines →
  configuration_file node cat force_run w h lines →
  ∃ w',
    WaagentConfiguration._get_configuration node cat force_run (World w h)
    = (Return (dict_of (settings lines) ∅), w')
    ∧ ∃ path result,
        last (log w') = Some (Run cat path force_run false result)
        ∧ stdout result = conf_file lines.
Proof.
  intros Hlines (path & w1 & h1 & Hpath & Hout).
  unfold WaagentConfiguration._get_configuration. run_monad. rewrite Hpath.
  run_monad. rewrite Hout, (read_conf_file lines Hlines).
  eexists. split; [reflexivity|].
  exists path, (on_run node h1 cat path force_run false). cbn [log].
  split; [apply last_snoc | exact Hout].
Qed.

Lemma reading_reads {A} (force_run : bool) (f : gmap string string -> answer A)
    (w : Waagent.fields) (h : history) (lines : list conf_line) :
  Forall (fun l => well_formed l = true) lines →
  configuration_file node cat force_run w h lines →
  fst (WaagentConfiguration.reading node cat force_run f (World w h))
  = f (dict_of (settings lines) ∅).
Proof.
  intros Hlines Hfile.
  destruct (get_configuration_reads force_run w h lines Hlines Hfile)
    as (w' & Hrun & _).
  unfold WaagentConfiguration.reading. rewrite Hrun. reflexivity.
Qed.

End configuration.

(** X8.  [_get_configuration] reads the file its configuration path
    leads to with one run of [cat].  The text [cat] hands over is
    taken line by line.  A line is a setting when, the white space
    around it apart, it holds no white space and has an equals sign
    with something before and after it; its key goes up to the last
    equals sign that leaves a value.  For a text whose lines hold no
    line end but the line feeds between them, the dictionary returned
    gives every key the value of its last setting, and the lines that
    are no settings (comments, empty lines, settings that are
    commented out or followed by a comment) are skipped. *)
Theorem get_configuration_last_setting (node : Node) (cat : string) (force_run : bool)
    (w : Waagent.fields) (h : history) (lines : list conf_line) :
  Forall (fun l => well_formed l = true) lines →
  configuration_file node cat force_run w h lines →
  ∃ config w',
    WaagentConfiguration._get_configuration node cat force_run (World w h)
    = (Return config, w')
    ∧ (∀ key, config !! key = setting_of key lines)
    ∧ ∃ path result,
        last (log w') = Some (Run cat path force_run false result)
        ∧ stdout result = conf_file lines.
Proof.
  intros Hlines Hfile.
  destruct (get_configuration_reads node cat force_run w h lines Hlines Hfile)
    as (w' & Hrun & Hlast).
  exists (dict_of (settings lines) ∅), w'.
  split; [exact Hrun|]. split; [|exact Hlast].
  intros key. apply lookup_settings.
Qed.

Lemma sample_conf_file (force_run : bool) :
  configuration_file (Sample_configured sample_conf) "cat" force_run
    (Waagent._initialize (Sample_configured sample_conf)) [] sample_conf.
Proof.
  eexists _, _, _. split; [vm_compute; reflexivity|]. reflexivity.
Defined.

Lemma sample_conf_well_formed :
  Forall (fun l => well_formed l = true) sample_conf.
Proof. repeat constructor. Defined.

Lemma get_configuration_last_setting_witness :
  ∃ config w',
    WaagentConfiguration._get_configuration (Sample_configured sample_conf) "cat" false
      (World (Waagent._initialize (Sample_configured sample_conf)) [])
    = (Return config, w')
    ∧ (∀ key, config !! key = setting_of key sample_conf)
    ∧ ∃ path result,
        last (log w') = Some (Run "cat" path false false result)
        ∧ stdout result = conf_file sample_conf.
Proof.
  apply (get_configuration_last_setting (Sample_configured sample_conf) "cat" false
           (Waagent._initialize (Sample_configured sample_conf)) [] sample_conf
           sample_conf_well_formed (sample_conf_file false)).
Defined.

(** X9.  [is_autoupdate_enabled] never fails on such a text: it
    answers [False] exactly when the last `AutoUpdate.Enabled` setting
    is `n`, and [True] for any other value and when the text has no
    such setting. *)
Theorem autoupdate_enabled_by_default (node : Node) (cat : string)
    (w : Waagent.fields) (h : history) (lines : list conf_line) :
  Forall (fun l => well_formed l = true) lines →
  configuration_file node cat false w h lines →
  fst (WaagentConfiguration.is_autoupdate_enabled node cat (World w h))
  = Returned (negb (bool_decide (setting_of "AutoUpdate.Enabled" lines = Some "n"))).
Proof.
  intros Hlines Hfile. unfold WaagentConfiguration.is_autoupdate_enabled.
  rewrite (reading_reads node cat false _ w h lines Hlines Hfile).
  rewrite lookup_settings.
  destruct (decide (setting_of "AutoUpdate.Enabled" lines = Some "n")) as [Hn|Hn].
  - rewrite bool_decide_eq_true_2 by exact Hn. reflexivity.
  - rewrite bool_decide_eq_false_2 by exact Hn. reflexivity.
Qed.

Lemma autoupdate_enabled_by_default_witness :
  fst (WaagentConfiguration.is_autoupdate_enabled (Sample_configured sample_conf) "cat"
         (World (Waagent._initialize (Sample_configured sample_conf)) []))
  = Returned (negb (bool_decide (setting_of "AutoUpdate.Enabled" sample_conf = Some "n"))).
Proof.
  apply (autoupdate_enabled_by_default (Sample_configured sample_conf) "cat"
           (Waagent._initialize (Sample_configured sample_conf)) [] sample_conf
           sample_conf_well_formed (sample_conf_file false)).
Defined.

(** X10.  On such a text [is_swap_enabled] and [is_rdma_enabled]
    answer from the last setting of their key: [True] for `y`,
    [False] for `n`, a [LisaException] naming the value for anything
    else, and a [KeyError] when the text has no setting of the key.
    [is_rdma_enabled] reads the file with [force_run]. *)
Theorem swap_and_rdma_settings (node : Node) (cat : string)
    (w : Waagent.fields) (h : history) (lines : list conf_line) :
  Forall (fun l => well_formed l = true) lines →
  (configuration_file node cat false w h lines →
   fst (WaagentConfiguration.is_swap_enabled node cat (World w h))
   = match setting_of "ResourceDisk.EnableSwap" lines with
     | None => Failed (KeyError "ResourceDisk.EnableSwap")
     | Some value =>
         if decide (value = "y") then Returned true
         else if decide (value = "n") then Returned false
         else Failed (Exn (LisaException
                ("Unknown value for ResourceDisk.EnableSwap : " +:+ value)))
     end)
  ∧ (configuration_file node cat true w h lines →
     fst (WaagentConfiguration.is_rdma_enabled node cat (World w h))
     = match setting_of "OS.EnableRDMA" lines with
       | None => Failed (KeyError "OS.EnableRDMA")
       | Some value =>
           if decide (value = "y") then Returned true
           else if decide (value = "n") then Returned false
           else Failed (Exn (LisaException
                  ("Unknown value for OS.EnableRDMA : " +:+ value)))
       end).
Proof.
  intros Hlines. split; intros Hfile.
  - unfold WaagentConfiguration.is_swap_enabled.
    rewrite (reading_reads node cat false _ w h lines Hlines Hfile).
    unfold WaagentConfiguration.item. rewrite lookup_settings.
    destruct (setting_of "ResourceDisk.EnableSwap" lines); reflexivity.
  - unfold WaagentConfiguration.is_rdma_enabled.
    rewrite (reading_reads node cat true _ w h lines Hlines Hfile).
    unfold WaagentConfiguration.item. rewrite lookup_settings.
    destruct (setting_of "OS.EnableRDMA" lines); reflexivity.
Qed.

Lemma swap_and_rdma_settings_witness :
  fst (WaagentConfiguration.is_swap_enabled (Sample_configured sample_conf) "cat"
         (World (Waagent._initialize (Sample_configured sample_conf)) []))
  = Returned true
  ∧ fst (WaagentConfiguration.is_rdma_enabled (Sample_configured sample_conf) "cat"
           (World (Waagent._initialize (Sample_configured sample_conf)) []))
    = Failed (Exn (LisaException "Unknown value for OS.EnableRDMA : maybe")).
Proof.
  destruct (swap_and_rdma_settings (Sample_configured sample_conf) "cat"
              (Waagent._initialize (Sample_configured sample_conf)) [] sample_conf
              sample_conf_well_formed) as [Hswap Hrdma].
  split.
  - exact (Hswap (sample_conf_file false)).
  - exact (Hrdma (sample_conf_file true)).
Defined.

(** ** Numbers in the configuration *)

Lemma rstrip_of_none (cls : ascii -> bool) (s : string) :
  all_chars (fun c => negb (cls c)) s = true → PyText.rstrip_of cls s = s.
Proof.
  induction s as [|c s IH]; [reflexivity|].
  intros [Hc Hs]%all_chars_cons. cbn [PyText.rstrip_of]. rewrite (IH Hs).
  apply negb_true_iff in Hc. rewrite Hc. destruct s; reflexivity.
Qed.

Lemma digit_not_int_space (c : ascii) :
  Py.is_digit c = true → negb (PyText.is_int_space c) = true.
Proof.
  unfold Py.is_digit, PyText.is_int_space. cbv zeta.
  generalize (nat_of_ascii c). intros n Hn.
  apply andb_true_iff in Hn as [H1%Nat.leb_le H2%Nat.leb_le].
  apply negb_true_iff.
  repeat (apply orb_false_iff; split);
    try (apply andb_false_iff; (left; apply Nat.leb_gt; lia) || (right; apply Nat.leb_gt; lia));
    apply Nat.eqb_neq; lia.
Qed.

Lemma int_digits_after_digit (s : string) :
  all_chars Py.is_digit s = true →
  ∀ acc, PyText.int_digits acc PyText.AfterDigit s = Py.int_go acc s.
Proof.
  induction s as [|c s IH]; intros Hs acc; [reflexivity|].
  apply all_chars_cons in Hs as [Hc Hs].
  cbn [PyText.int_digits Py.int_go]. rewrite Hc. apply (IH Hs).
Qed.

Lemma count_digits_all (s : string) :
  all_chars Py.is_digit s = true → PyText.count_digits s = String.length s.
Proof.
  induction s as [|c s IH]; [reflexivity|].
  intros [Hc Hs]%all_chars_cons. cbn [PyText.count_digits String.length].
  rewrite Hc, (IH Hs). reflexivity.
Qed.

(** [int] on a run of decimal digits comes to the number read, or to
    the refusal of its length. *)
Lemma int_on_digits (s : string) :
  all_chars Py.is_digit s = true → Py.truthy s = true →
  PyText.int s
  = if (PyText.int_max_str_digits <? String.length s)%nat then None else Py.int s.
Proof.
  intros Hdigits Hne. destruct s as [|c s]; [discriminate|].
  apply all_chars_cons in Hdigits as Hd. destruct Hd as [Hc Hs].
  unfold PyText.int. cbn [PyText.lstrip_of].
  pose proof (digit_not_int_space c Hc) as Hsp. apply negb_true_iff in Hsp.
  rewrite Hsp.
  rewrite rstrip_of_none by apply (all_chars_impl _ _ _ digit_not_int_space Hdigits).
  replace (Ascii.eqb c "+") with false
    by (destruct (Ascii.eqb_spec c "+") as [->|]; [discriminate Hc | reflexivity]).
  replace (Ascii.eqb c "-") with false
    by (destruct (Ascii.eqb_spec c "-") as [->|]; [discriminate Hc | reflexivity]).
  unfold PyText.int_unsigned. rewrite (count_digits_all _ Hdigits).
  destruct (PyText.int_max_str_digits <? String.length (String c s))%nat;
    [reflexivity|].
  cbn [PyText.int_digits Py.int Py.int_go]. rewrite Hc.
  apply (int_digits_after_digit s Hs).
Qed.

(** X11.  On such a text [get_root_device_timeout] and
    [get_resource_disk_mount_point] answer from the last setting of
    their key and raise [KeyError] when the text has none.  A timeout
    written in at most 4300 decimal digits is returned as that number;
    one of more digits, and any other timeout that [int] does not
    read, raises [ValueError]. *)
Theorem timeout_and_mount_point (node : Node) (cat : string)
    (w : Waagent.fields) (h : history) (lines : list conf_line) :
  Forall (fun l => well_formed l = true) lines →
  configuration_file node cat false w h lines →
  (setting_of "OS.RootDeviceScsiTimeout" lines = None →
   fst (WaagentConfiguration.get_root_device_timeout node cat (World w h))
   = Failed (KeyError "OS.RootDeviceScsiTimeout"))
  ∧ (∀ digits n,
       setting_of "OS.RootDeviceScsiTimeout" lines = Some digits →
       Py.int digits = Some n →
       String.length digits ≤ 4300 →
       fst (WaagentConfiguration.get_root_device_timeout node cat (World w h))
       = Returned n)
  ∧ (∀ digits,
       setting_of "OS.RootDeviceScsiTimeout" lines = Some digits →
       all_chars Py.is_digit digits = true →
       4300 < String.length digits →
       fst (WaagentConfiguration.get_root_device_timeout node cat (World w h))
       = Failed (Exn ValueError))
  ∧ (∀ value,
       setting_of "OS.RootDeviceScsiTimeout" lines = Some value →
       PyText.int value = None →
       fst (WaagentConfiguration.get_root_device_timeout node cat (World w h))
       = Failed (Exn ValueError))
  ∧ fst (WaagentConfiguration.get_resource_disk_mount_point node cat (World w h))
    = match setting_of "ResourceDisk.MountPoint" lines with
      | Some value => Returned value
      | None => Failed (KeyError "ResourceDisk.MountPoint")
      end.
Proof.
  intros Hlines Hfile.
  unfold WaagentConfiguration.get_root_device_timeout,
    WaagentConfiguration.get_resource_disk_mount_point.
  rewrite !(reading_reads node cat false _ w h lines Hlines Hfile).
  unfold WaagentConfiguration.item. rewrite !lookup_settings.
  split; [|split; [|split; [|split]]].
  - intros ->. reflexivity.
  - intros digits n -> Hint Hlen.
    destruct (int_digits digits n Hint) as [Hdigits Hne].
    rewrite (int_on_digits digits Hdigits Hne).
    replace (PyText.int_max_str_digits <? String.length digits)%nat with false
      by (symmetry; apply Nat.ltb_ge; exact Hlen).
    rewrite Hint. reflexivity.
  - intros digits -> Hdigits Hlen.
    assert (Hne : Py.truthy digits = true)
      by (destruct digits; [cbn in Hlen; lia | reflexivity]).
    rewrite (int_on_digits digits Hdigits Hne).
    replace (PyText.int_max_str_digits <? String.length digits)%nat with true
      by (symmetry; apply Nat.ltb_lt; exact Hlen).
    reflexivity.
  - intros value -> Hint. rewrite Hint. reflexivity.
  - destruct (setting_of "ResourceDisk.MountPoint" lines); reflexivity.
Qed.

Lemma timeout_and_mount_point_witness :
  fst (WaagentConfiguration.get_root_device_timeout (Sample_configured sample_conf) "cat"
         (World (Waagent._initialize (Sample_configured sample_conf)) []))
  = Returned 300%Z
  ∧ fst (WaagentConfiguration.get_resource_disk_mount_point
           (Sample_configured sample_conf) "cat"
           (World (Waagent._initialize (Sample_configured sample_conf)) []))
    = Returned "/mnt".
Proof.
  destruct (timeout_and_mount_point (Sample_configured sample_conf) "cat"
              (Waagent._initialize (Sample_configured sample_conf)) [] sample_conf
              sample_conf_well_formed (sample_conf_file false))
    as (_ & Hdigits & _ & _ & Hmount).
  split.
  - apply (Hdigits "300"); [reflexivity | reflexivity | cbn; lia].
  - exact Hmount.
Defined.

(** ** The pools counted *)

Lemma pool_pattern_shape :
  KvpClientPools._pool_pattern
  = re.Caret :: re.Lit "P" ::
    re.lits "ool is " ++ [re.Rep Py.is_digit true true; re.Opt CR; re.Dollar].
Proof. reflexivity. Qed.

Lemma match_pool_line (tail pool : string) (prev : option ascii) :
  re.at_bol prev = true → re.at_eol tail = true →
  all_chars Py.is_digit pool = true →
  Py.truthy pool = true →
  re.match_here KvpClientPools._pool_pattern prev
    (String "P" ("ool is " +:+ pool) +:+ tail)
  = Some ([pool], String.length (String "P" ("ool is " +:+ pool))).
Proof.
  intros Hbol Htail Hpool Hne.
  change (String "P" ("ool is " +:+ pool) +:+ tail)
    with ("Pool is " +:+ pool +:+ tail).
  change KvpClientPools._pool_pattern
    with (re.Caret :: re.lits "Pool is " ++
          [re.Rep Py.is_digit true true; re.Opt CR; re.Dollar]).
  cbn [re.match_here]. rewrite Hbol, match_lits. cbn [re.match_here].
  rewrite (rep_digits tail Htail pool Hpool) by (rewrite append_nil_l; exact Hne).
  rewrite append_nil_l. cbn. rewrite length_append. cbn. do 2 f_equal. lia.
Qed.

Lemma reads_pool_line (pool : string) :
  all_chars Py.is_digit pool = true → Py.truthy pool = true →
  reads_line KvpClientPools._pool_pattern ("Pool is " +:+ pool) [[pool]].
Proof.
  intros Hpool Hne. rewrite pool_pattern_shape.
  change ("Pool is " +:+ pool) with (String "P" ("ool is " +:+ pool)).
  apply reads_matching_line. intros prev tail Hbol Htail.
  rewrite <- pool_pattern_shape. apply match_pool_line; assumption.
Qed.

Lemma record_line_other (first : ascii) (record : string * string) :
  Ascii.eqb "K" first = false →
  all_chars Py.not_newline record.1 = true →
  all_chars Py.not_newline record.2 = true →
  other_line first (record_text record) = true.
Proof.
  intros Hfirst Hk Hv. unfold other_line.
  change (record_text record)
    with (String "K" ("ey: " +:+ record.1 +:+ "; Value: " +:+ record.2)).
  cbv beta iota. rewrite Hfirst. cbn [negb andb].
  apply all_chars_cons. split; [reflexivity|].
  rewrite !all_chars_append. auto.
Qed.

Lemma printable_block_spec (b : pool_block) :
  printable_block b = true ↔
  Py.truthy (block_pool b) = true
  ∧ all_chars Py.is_digit (block_pool b) = true
  ∧ all_chars Py.is_digit (block_count b) = true
  ∧ Forall (fun record => all_chars Py.not_newline record.1 = true
                          ∧ all_chars Py.not_newline record.2 = true)
      (block_records b).
Proof.
  unfold printable_block. rewrite !andb_true_iff, forallb_forall, Forall_forall.
  split.
  - intros (((H1 & H2) & H3) & H4).
    split; [exact H1|]. split; [exact H2|]. split; [exact H3|].
    intros record Hin. apply list_elem_of_In in Hin.
    apply andb_true_iff, H4, Hin.
  - intros (H1 & H2 & H3 & H4).
    split; [split; [split|]; assumption|].
    intros record Hin. apply andb_true_iff, H4, list_elem_of_In, Hin.
Qed.

(** The lines of a block: the pool line gives the pool, the count
    line and the record lines give nothing. *)
Lemma reads_block_lines (b : pool_block) :
  printable_block b = true →
  Forall2 (reads_line KvpClientPools._pool_pattern) (block_lines b) (block_pools b).
Proof.
  intros (Hne & Hpool & Hcount & Hrecords)%printable_block_spec.
  unfold block_lines, block_pools, client_lines.
  constructor; [apply reads_pool_line; assumption|].
  constructor.
  { rewrite pool_pattern_shape. apply reads_other_line, count_line_other;
      [reflexivity | exact Hcount]. }
  induction Hrecords as [|record records [Hk Hv] _ IH]; cbn [map]; constructor.
  - rewrite pool_pattern_shape. apply reads_other_line, record_line_other;
      [reflexivity | assumption | assumption].
  - exact IH.
Qed.

Lemma reads_all_lines (blocks : list pool_block) :
  Forall (fun b => printable_block b = true) blocks →
  Forall2 (reads_line KvpClientPools._pool_pattern)
    (flat_map block_lines blocks) (flat_map block_pools blocks).
Proof.
  induction 1 as [|b blocks Hb _ IH]; cbn [flat_map]; [constructor|].
  apply Forall2_app; [apply reads_block_lines, Hb | exact IH].
Qed.

Lemma concat_block_pools (blocks : list pool_block) :
  concat (flat_map block_pools blocks) = map (fun b => [block_pool b]) blocks.
Proof.
  induction blocks as [|b blocks IH]; [reflexivity|].
  cbn [flat_map map]. rewrite concat_app, IH. unfold block_pools.
  cbn [concat app]. f_equal.
  induction (block_records b) as [|record records IHr]; [reflexivity | exact IHr].
Qed.

Lemma all_pools_output_unlines (blocks : list pool_block) :
  all_pools_output blocks = unlines (flat_map block_lines blocks).
Proof.
  induction blocks as [|b blocks IH]; [reflexivity|].
  cbn [all_pools_output flat_map]. rewrite IH, client_output_unlines.
  fold (block_lines b).
  induction (block_lines b) as [|l lines IHl]; [reflexivity|].
  cbn [unlines app]. rewrite append_assoc, append_cons, IHl. reflexivity.
Qed.

(** ** Stripping the last line *)

Lemma join_lines_snoc (lines : list string) (l : string) :
  join_lines (lines ++ [l]) = unlines lines +:+ l.
Proof.
  induction lines as [|x lines IH]; [reflexivity|].
  cbn [app unlines]. rewrite join_lines_cons, append_assoc, append_cons.
  destruct lines as [|y lines]; [reflexivity|].
  cbn [app] in *. rewrite IH. reflexivity.
Qed.

Lemma rstrip_of_starts (cls : ascii -> bool) (c : ascii) (s : string) :
  cls c = false → ∃ r, PyText.rstrip_of cls (String c s) = String c r.
Proof.
  intros Hc. cbn [PyText.rstrip_of]. rewrite Hc.
  destruct (PyText.rstrip_of cls s); eauto.
Qed.

Lemma all_chars_rstrip_of (P cls : ascii -> bool) (s : string) :
  all_chars P s = true → all_chars P (PyText.rstrip_of cls s) = true.
Proof.
  induction s as [|c s IH]; [reflexivity|].
  intros [Hc Hs]%all_chars_cons. cbn [PyText.rstrip_of].
  specialize (IH Hs).
  destruct (PyText.rstrip_of cls s) as [|d r].
  - destruct (cls c); [reflexivity|]. cbn. rewrite Hc. reflexivity.
  - apply all_chars_cons. auto.
Qed.

(** Stripping lines that start with a character that is no white
    space, the last line holding one too: the last line loses the
    white space at its end, and the line feed after it. *)
Lemma strip_unlines (lines : list string) (c : ascii) (s l : string) :
  starts_clean (unlines (lines ++ [l])) = true →
  l = String c s → Py.is_space c = false →
  PyText.strip (unlines (lines ++ [l])) = join_lines (lines ++ [PyText.rstrip l]).
Proof.
  intros Hstart -> Hc. unfold PyText.strip.
  rewrite lstrip_clean by exact Hstart.
  rewrite unlines_join_lines by (destruct lines; discriminate).
  rewrite !join_lines_snoc. unfold PyText.rstrip.
  destruct (rstrip_of_starts Py.is_space c s Hc) as [r Hr].
  rewrite append_assoc.
  rewrite rstrip_of_app.
  - rewrite rstrip_of_trailing by reflexivity. reflexivity.
  - rewrite rstrip_of_trailing by reflexivity. rewrite Hr. discriminate.
Qed.

Lemma other_line_rstrip (first c : ascii) (s : string) :
  Py.is_space c = false →
  other_line first (String c s) = true →
  other_line first (PyText.rstrip (String c s)) = true.
Proof.
  intros Hc. unfold other_line, PyText.rstrip.
  intros [Hfirst Hline]%andb_true_iff.
  apply (all_chars_rstrip_of _ Py.is_space) in Hline.
  destruct (rstrip_of_starts Py.is_space c s Hc) as [r Hr].
  rewrite Hr in *. rewrite Hfirst, Hline. reflexivity.
Qed.

(** What [findall] gives for a line does not depend on the way to
    say it. *)
Lemma reads_line_unique (p : re.pattern) (l : string)
    (found found' : list (list string)) :
  reads_line p l found → reads_line p l found' → found = found'.
Proof.
  intros H H'. specialize (H None EmptyString eq_refl eq_refl).
  specialize (H' None EmptyString eq_refl eq_refl).
  rewrite H in H'. apply app_inv_tail in H'. exact H'.
Qed.

Lemma reads_lines_but_last (p : re.pattern) (lines : list string) (l l' : string)
    (results : list (list (list string))) :
  Forall2 (reads_line p) (lines ++ [l]) results →
  reads_line p l [] → reads_line p l' [] →
  Forall2 (reads_line p) (lines ++ [l']) results.
Proof.
  intros Hall Hl Hl'.
  apply Forall2_app_inv_l in Hall as (r1 & r2 & H1 & H2 & ->).
  apply Forall2_cons_inv_l in H2 as (r & r2' & Hr & Hnil & ->).
  apply Forall2_nil_inv_l in Hnil as ->.
  rewrite (reads_line_unique p l r [] Hr Hl).
  apply Forall2_app; [exact H1 | repeat constructor; exact Hl'].
Qed.

Lemma last_flat_map_block_lines (blocks : list pool_block) (b : pool_block) :
  last blocks = Some b →
  last (flat_map block_lines blocks) = last (block_lines b).
Proof.
  intros [bs ->]%last_Some. rewrite flat_map_app. cbn [flat_map].
  rewrite app_nil_r, last_app.
  unfold block_lines at 1 3. rewrite last_client_lines. reflexivity.
Qed.

(** The last line of the output is no pool line: it is a count line
    or a record line. *)
Lemma last_line_other (blocks : list pool_block) (l : string) :
  Forall (fun b => printable_block b = true) blocks →
  last (flat_map block_lines blocks) = Some l →
  ∃ c s, l = String c s ∧ Py.is_space c = false
         ∧ other_line "P" (String c s) = true.
Proof.
  intros Hblocks Hlast.
  destruct (last blocks) as [b|] eqn:Hb;
    [|apply last_None in Hb; subst blocks; discriminate Hlast].
  rewrite (last_flat_map_block_lines blocks b Hb) in Hlast.
  unfold block_lines in Hlast. rewrite last_client_lines in Hlast.
  injection Hlast as <-.
  apply last_Some_elem_of in Hb. rewrite Forall_forall in Hblocks.
  apply Hblocks, printable_block_spec in Hb as (_ & _ & Hcount & Hrecords).
  destruct (last (block_records b)) as [record|] eqn:Hrecord.
  - apply last_Some_elem_of in Hrecord. rewrite Forall_forall in Hrecords.
    destruct (Hrecords record Hrecord) as [Hk Hv].
    exists "K"%char, ("ey: " +:+ record.1 +:+ "; Value: " +:+ record.2).
    split; [reflexivity|]. split; [reflexivity|].
    apply (record_line_other "P" record); [reflexivity | exact Hk | exact Hv].
  - exists "N"%char, ("um records is " +:+ block_count b).
    split; [reflexivity|]. split; [reflexivity|].
    apply (count_line_other "P"); [reflexivity | exact Hcount].
Qed.

(** The pools of the output as the client receives it. *)
Lemma findall_pools (blocks : list pool_block) :
  Forall (fun b => printable_block b = true) blocks →
  re.findall KvpClientPools._pool_pattern (PyText.strip (all_pools_output blocks))
  = map (fun b => [block_pool b]) blocks.
Proof.
  intros Hblocks. rewrite all_pools_output_unlines.
  pose proof (reads_all_lines blocks Hblocks) as Hall.
  destruct (last (flat_map block_lines blocks)) as [l|] eqn:Hlast.
  - destruct (last_line_other blocks l Hblocks Hlast) as (c & s & -> & Hc & Hother).
    apply last_Some in Hlast as [lines Hlines]. rewrite Hlines in *.
    rewrite (strip_unlines lines c s _) by
      (reflexivity || exact Hc ||
       (destruct blocks as [|b blocks]; [destruct lines; discriminate Hlines|];
        rewrite <- Hlines; reflexivity)).
    unfold re.findall. rewrite pool_pattern_shape.
    rewrite (scan_join_lines "P" _ eq_refl _ (flat_map block_pools blocks));
      [apply concat_block_pools | | reflexivity].
    rewrite <- pool_pattern_shape.
    apply (reads_lines_but_last _ lines (String c s)); [exact Hall | |];
      rewrite pool_pattern_shape; apply reads_other_line;
      [exact Hother | apply other_line_rstrip; assumption].
  - apply last_None in Hlast.
    destruct blocks as [|b blocks]; [reflexivity | discriminate Hlast].
Qed.

(** X12.  [KvpClient.get_pool_count] raises an assertion failure when
    the client exits with a non-zero code.  When the client exits with
    0 and prints its pools one after the other, each with its count
    and its records, and the output is received stripped, it returns
    the number of pools printed, whatever the records are, as long as
    no key and no value holds a line feed: a line of a record is never
    taken for a pool. *)
Theorem get_pool_count_counts_pools (node : Node) (h : history) :
  let result := on_run node h (KvpClient.command node) EmptyString false false in
  (exit_code result ≠ 0%Z →
   fst (KvpClientPools.get_pool_count node (World tt h))
   = Raise (AssertionError "failed to run kvp_client"))
  ∧ (∀ blocks,
       exit_code result = 0%Z →
       Forall (fun b => printable_block b = true) blocks →
       stdout result = PyText.strip (all_pools_output blocks) →
       fst (KvpClientPools.get_pool_count node (World tt h)) = Return (length blocks)).
Proof.
  cbv zeta. unfold KvpClientPools.get_pool_count, assert_that. run_monad.
  split.
  - intros Hexit. apply Z.eqb_neq in Hexit. rewrite Hexit. reflexivity.
  - intros blocks Hexit Hblocks Hout. apply Z.eqb_eq in Hexit. rewrite Hexit.
    run_monad. unfold util.find_patterns_in_lines, index.
    cbn [map lookup list_lookup]. run_monad.
    rewrite Hout, (findall_pools blocks Hblocks), length_map.
    reflexivity.
Qed.

Lemma get_pool_count_counts_pools_witness :
  fst (KvpClientPools.get_pool_count
         (Sample_client (PyText.strip (all_pools_output sample_blocks)) 0)
         (World tt []))
  = Return 5.
Proof.
  destruct (get_pool_count_counts_pools
              (Sample_client (PyText.strip (all_pools_output sample_blocks)) 0) [])
    as [_ Hcount].
  apply (Hcount sample_blocks).
  - reflexivity.
  - repeat constructor.
  - reflexivity.
Defined.
